(** * The statistics counter registry of syslog-ng (lib/stats.c)

    A shallow embedding of the counter registry: the [StatsCounter] records,
    the hash table that owns them, the register / unregister life cycle, the
    pruning sweep and the CSV exporter, followed by the properties proved
    about them.

    Records live at addresses: the hash table stores pointers, and the
    handles the API gives out are pointers into the records, so the model
    keeps a store of records indexed by address next to the table. *)

From Stdlib Require Import ZArith Lia String Ascii.
From stdpp Require Import base numbers option list gmap strings vector pretty.

Local Open Scope Z_scope.

(** ** Outcomes of a call

    [g_assert] and [g_assert_not_reached] abort the process; an access
    outside a live object is undefined behaviour. Both end the run. *)

Inductive outcome (A : Type) : Type :=
| Ok (a : A)
| AssertFail
| MemFault.

Arguments Ok {A} a.
Arguments AssertFail {A}.
Arguments MemFault {A}.

(** ** Data model *)

(** Modelled from the spec: the enumeration [StatsCounterType] of stats.h,
    which is not in stats.c; the closed set of sub-types, numbered in the
    order that the [tag_names] table of stats.c gives them. *)
Inductive StatsCounterType : Type :=
| SC_TYPE_DROPPED
| SC_TYPE_PROCESSED
| SC_TYPE_STORED
| SC_TYPE_SUPPRESSED
| SC_TYPE_STAMP.

(** Modelled from the spec: [SC_TYPE_MAX] of stats.h, the number of
    sub-types, which is the length of [tag_names]. *)
Definition SC_TYPE_MAX : nat := 5.

(** The numeric value of a counter type, as used in [1 << type]. *)
Definition type_num (t : StatsCounterType) : Z :=
  match t with
  | SC_TYPE_DROPPED => 0
  | SC_TYPE_PROCESSED => 1
  | SC_TYPE_STORED => 2
  | SC_TYPE_SUPPRESSED => 3
  | SC_TYPE_STAMP => 4
  end.

(** The slot of a counter type in [counters[SC_TYPE_MAX]]. *)
Definition type_index (t : StatsCounterType) : fin SC_TYPE_MAX :=
  match t with
  | SC_TYPE_DROPPED => 0%fin
  | SC_TYPE_PROCESSED => 1%fin
  | SC_TYPE_STORED => 2%fin
  | SC_TYPE_SUPPRESSED => 3%fin
  | SC_TYPE_STAMP => 4%fin
  end.

(** The counter types in the order [for (type = 0; type < SC_TYPE_MAX;
    type++)] visits them. *)
Definition all_types : list StatsCounterType :=
  [SC_TYPE_DROPPED; SC_TYPE_PROCESSED; SC_TYPE_STORED; SC_TYPE_SUPPRESSED;
   SC_TYPE_STAMP].

(** A [guint16] field keeps the low 16 bits of what is stored in it. *)
Definition guint16 (z : Z) : Z := z mod 65536.

(** Modelled from the spec: [StatsCounterItem] of stats.h, which is not in
    stats.c; "an integer accumulator", here the integer it holds. *)
Definition StatsCounterItem : Type := Z.

(** [struct _StatsCounter]; [ref_cnt], [source] and [live_mask] are 16-bit
    fields, [dynamic] is a one-bit field. *)
Record StatsCounter : Type := mkStatsCounter {
  counters : vec StatsCounterItem SC_TYPE_MAX;
  ref_cnt : Z;
  source : Z;
  id : string;
  instance : string;
  live_mask : Z;
  dynamic : bool
}.

Abbreviation addr := positive.
Abbreviation Key := (Z * string * string)%type.

(** What [stats_counter_equal] compares and [stats_counter_hash] hashes. *)
Definition key_of (sc : StatsCounter) : Key := (source sc, id sc, instance sc).

(** A pointer to a [StatsCounter] and a pointer to one of its items;
    [None] is [NULL]. *)
Abbreviation StatsCounter_ptr := (option addr).
Abbreviation StatsCounterItem_ptr := (option (addr * StatsCounterType)).

(** Equality of two item pointers: the same record and the same slot. *)
Definition item_ptr_eqb (p q : StatsCounterItem_ptr) : bool :=
  match p, q with
  | Some (a, t), Some (b, u) => Pos.eqb a b && (type_num t =? type_num u)
  | None, None => true
  | _, _ => false
  end.

(** The globals of the module: the hash table, the records it points to,
    the configured level and the lock flag. *)
Record Stats : Type := mkStats {
  counter_hash : gmap Key addr;
  heap : gmap addr StatsCounter;
  current_stats_level : Z;
  stats_locked : bool
}.

Definition set_ref_cnt (f : Z → Z) (sc : StatsCounter) : StatsCounter :=
  mkStatsCounter (counters sc) (f (ref_cnt sc)) (source sc) (id sc)
    (instance sc) (live_mask sc) (dynamic sc).

Definition set_live_mask (f : Z → Z) (sc : StatsCounter) : StatsCounter :=
  mkStatsCounter (counters sc) (ref_cnt sc) (source sc) (id sc)
    (instance sc) (f (live_mask sc)) (dynamic sc).

Definition set_dynamic (b : bool) (sc : StatsCounter) : StatsCounter :=
  mkStatsCounter (counters sc) (ref_cnt sc) (source sc) (id sc)
    (instance sc) (live_mask sc) b.

Definition set_counter (t : StatsCounterType) (f : Z → Z) (sc : StatsCounter)
  : StatsCounter :=
  mkStatsCounter (vinsert (type_index t) (f (counters sc !!! type_index t)) (counters sc))
    (ref_cnt sc) (source sc) (id sc) (instance sc) (live_mask sc) (dynamic sc).

Definition set_counter_hash (f : gmap Key addr → gmap Key addr)
  (s : Stats) : Stats :=
  mkStats (f (counter_hash s)) (heap s) (current_stats_level s) (stats_locked s).

Definition set_heap (f : gmap addr StatsCounter → gmap addr StatsCounter)
  (s : Stats) : Stats :=
  mkStats (counter_hash s) (f (heap s)) (current_stats_level s) (stats_locked s).

Definition set_stats_locked (b : bool) (s : Stats) : Stats :=
  mkStats (counter_hash s) (heap s) (current_stats_level s) b.

(** Modelled from the spec: [stats_counter_get] of stats.h applied to
    [&sc->counters[type]]; the value of one counter of a record. *)
Definition counter_value (sc : StatsCounter) (t : StatsCounterType) : Z :=
  counters sc !!! type_index t.

(** [sc->live_mask & (1 << type)] as a truth value. *)
Definition is_live (sc : StatsCounter) (t : StatsCounterType) : bool :=
  negb (Z.land (live_mask sc) (Z.shiftl 1 (type_num t)) =? 0).

(** ** The state and error monad of the module *)

Definition M (A : Type) : Type := Stats → outcome (A * Stats).

Definition ret {A} (a : A) : M A := λ s, Ok (a, s).

Definition bind {A B} (m : M A) (k : A → M B) : M B :=
  λ s, match m s with
       | Ok (a, s') => k a s'
       | AssertFail => AssertFail
       | MemFault => MemFault
       end.

Notation "x <- c1 ;; c2" := (bind c1 (λ x, c2))
  (at level 100, c1 at next level, right associativity).
Notation "c1 ;;; c2" := (bind c1 (λ _, c2))
  (at level 100, right associativity).

Definition get : M Stats := λ s, Ok (s, s).

Definition modify (f : Stats → Stats) : M unit := λ s, Ok (tt, f s).

Definition g_assert (b : bool) : M unit :=
  λ s, if b then Ok (tt, s) else AssertFail.

Definition g_assert_not_reached {A} : M A := λ _, AssertFail.

(** Reading [*sc]. *)
Definition deref (a : addr) : M StatsCounter :=
  λ s, match heap s !! a with
       | Some sc => Ok (sc, s)
       | None => MemFault
       end.

(** An assignment to fields of [*sc]. *)
Definition update (a : addr) (f : StatsCounter → StatsCounter) : M unit :=
  sc <- deref a ;; modify (set_heap (insert a (f sc))).

(** [g_new0(StatsCounter, 1)] followed by the initialisation of the new
    record: an address that holds no live record. *)
Definition g_new0 (sc : StatsCounter) : M addr :=
  λ s, let a := fresh (dom (heap s)) in Ok (a, set_heap (insert a sc) s).

(** The table is keyed by what [stats_counter_equal] compares. *)
Definition g_hash_table_lookup (key : Key) : M (StatsCounter_ptr) :=
  λ s, Ok (counter_hash s !! key, s).

Definition g_hash_table_insert (key : Key) (a : addr) : M unit :=
  modify (set_counter_hash (insert key a)).

(** Modelled from the spec: [stats_check_level] of stats.h; "a counter
    registers only if the active level is numerically >= the counter's
    required level". *)
Definition stats_check_level (level : Z) : M bool :=
  λ s, Ok (level <=? current_stats_level s, s).

(** Modelled from the spec: [stats_lock] of stats.h takes the one global
    lock; [stats_locked] records that it is held. The model is sequential:
    taking the lock sets the flag. *)
Definition stats_lock : M unit := modify (set_stats_locked true).

(** Modelled from the spec: [stats_unlock] of stats.h releases the global
    lock. *)
Definition stats_unlock : M unit := modify (set_stats_locked false).

(** [g_assert(stats_locked)]. *)
Definition assert_locked : M unit :=
  s <- get ;; g_assert (stats_locked s).

(** Modelled from the spec: [stats_counter_inc] of stats.h; incrementing
    through an absent handle is a safe no-op, otherwise the integer behind
    the handle goes up by one. The count is kept as the number of
    increments; the exporters print it with [%u], that is modulo 2^32. *)
Definition stats_counter_inc (counter : StatsCounterItem_ptr) : M unit :=
  match counter with
  | None => ret tt
  | Some (a, t) => update a (set_counter t (λ v, v + 1))
  end.

(** What a 32-bit signed integer keeps of a value stored in it. *)
Definition gint (z : Z) : Z := (z + 2147483648) mod 4294967296 - 2147483648.

(** Modelled from the spec: [stats_counter_set] of stats.h; a no-op on an
    absent handle, otherwise the integer behind the handle becomes
    [value]. The accumulator is "fixed-size": stats.c reads a stamp back
    from the field [.value] as a signed number and prints counters with
    [%u], so what is kept of [value] is its 32-bit signed value. *)
Definition stats_counter_set (counter : StatsCounterItem_ptr) (value : Z)
  : M unit :=
  match counter with
  | None => ret tt
  | Some (a, t) => update a (set_counter t (λ _, gint value))
  end.

(** ** Registration *)

(** [stats_add_counter]: the result is the record pointer together with
    what was stored in [*new]; when the level is not met [NULL] is returned
    and [*new] is not written. *)
Definition stats_add_counter (stats_level source : Z) (id instance : option string)
  : M (option (addr * bool)) :=
  ok <- stats_check_level stats_level ;;
  if negb ok then ret None
  else
    let id := default EmptyString id in
    let instance := default EmptyString instance in
    let key := (guint16 source, id, instance) in
    sc <- g_hash_table_lookup key ;;
    match sc with
    | None =>
        sc <- g_new0 (mkStatsCounter (vreplicate SC_TYPE_MAX 0) 1 (guint16 source)
                        id instance 0 false) ;;
        g_hash_table_insert key sc ;;;
        ret (Some (sc, true))
    | Some sc =>
        r <- deref sc ;;
        let new := ref_cnt r =? 0 in
        update sc (set_ref_cnt (λ n, guint16 (n + 1))) ;;;
        ret (Some (sc, new))
    end.

(** [sc->live_mask |= 1 << type]. *)
Definition mark_live (t : StatsCounterType) : StatsCounter → StatsCounter :=
  set_live_mask (λ m, guint16 (Z.lor m (Z.shiftl 1 (type_num t)))).

(** [stats_register_counter]; the result is [*counter]. *)
Definition stats_register_counter (stats_level source : Z) (id instance : option string)
  (type : StatsCounterType) : M (StatsCounterItem_ptr) :=
  assert_locked ;;;
  g_assert (type_num type <? Z.of_nat SC_TYPE_MAX) ;;;
  r <- stats_add_counter stats_level source id instance ;;
  match r with
  | None => ret None
  | Some (sc, _) =>
      update sc (mark_live type) ;;;
      ret (Some (sc, type))
  end.

(** [stats_register_dynamic_counter]; the result is the returned record
    pointer, [*counter] and [*new]. When [stats_add_counter] returns [NULL]
    it has not written [local_new], and [*new] receives that indeterminate
    value: [None] in the third component. *)
Definition stats_register_dynamic_counter (stats_level source : Z)
  (id instance : option string) (type : StatsCounterType)
  : M (StatsCounter_ptr * StatsCounterItem_ptr * option bool) :=
  assert_locked ;;;
  g_assert (type_num type <? Z.of_nat SC_TYPE_MAX) ;;;
  r <- stats_add_counter stats_level source id instance ;;
  match r with
  | None => ret (None, None, None)
  | Some (sc, local_new) =>
      r <- deref sc ;;
      (if negb local_new && negb (dynamic r) then g_assert_not_reached else ret tt) ;;;
      update sc (set_dynamic true) ;;;
      update sc (mark_live type) ;;;
      ret (Some sc, Some (sc, type), Some local_new)
  end.

(** [stats_register_associated_counter]; the result is [*counter]. *)
Definition stats_register_associated_counter (sc : StatsCounter_ptr)
  (type : StatsCounterType) : M (StatsCounterItem_ptr) :=
  assert_locked ;;;
  match sc with
  | None => ret None
  | Some sc =>
      r <- deref sc ;;
      g_assert (dynamic r) ;;;
      update sc (mark_live type) ;;;
      update sc (set_ref_cnt (λ n, guint16 (n + 1))) ;;;
      ret (Some (sc, type))
  end.

(** ** Unregistration *)

(** [stats_unregister_counter]; the argument [counter] is [*counter] on
    entry and the result is [*counter] on return. *)
Definition stats_unregister_counter (source : Z) (id instance : option string)
  (type : StatsCounterType) (counter : StatsCounterItem_ptr)
  : M (StatsCounterItem_ptr) :=
  assert_locked ;;;
  match counter with
  | None => ret None
  | Some h =>
      let id := default EmptyString id in
      let instance := default EmptyString instance in
      let key := (guint16 source, id, instance) in
      sc <- g_hash_table_lookup key ;;
      match sc with
      | None => g_assert false ;;; ret None
      | Some sc =>
          r <- deref sc ;;
          g_assert (is_live r type && item_ptr_eqb (Some (sc, type)) (Some h)) ;;;
          update sc (set_ref_cnt (λ n, guint16 (n - 1))) ;;;
          ret None
      end
  end.

(** [stats_unregister_dynamic_counter]; [counter] is [*counter], which the
    function reads and never writes. *)
Definition stats_unregister_dynamic_counter (sc : StatsCounter_ptr)
  (type : StatsCounterType) (counter : StatsCounterItem_ptr) : M unit :=
  assert_locked ;;;
  match sc with
  | None => ret tt
  | Some sc =>
      r <- deref sc ;;
      g_assert (is_live r type && item_ptr_eqb (Some (sc, type)) counter) ;;;
      update sc (set_ref_cnt (λ n, guint16 (n - 1)))
  end.

(** [stats_register_and_increment_dynamic_counter]. *)
Definition stats_register_and_increment_dynamic_counter (stats_level source_mask : Z)
  (id instance : option string) (timestamp : Z) : M unit :=
  assert_locked ;;;
  r <- stats_register_dynamic_counter stats_level source_mask id instance SC_TYPE_PROCESSED ;;
  let '(handle, counter, _) := r in
  stats_counter_inc counter ;;;
  (if 0 <=? timestamp then
     stamp <- stats_register_associated_counter handle SC_TYPE_STAMP ;;
     stats_counter_set stamp timestamp ;;;
     stats_unregister_dynamic_counter handle SC_TYPE_STAMP stamp
   else ret tt) ;;;
  stats_unregister_dynamic_counter handle SC_TYPE_PROCESSED counter.

(** [stats_init]: an empty table; the level and the lock flag start as the
    zero-initialised globals they are. *)
Definition stats_init : Stats := mkStats ∅ ∅ 0 false.

(** ** The pruning sweep *)

(** [stats_counter_is_too_old]: the verdict on one record, threading
    [*oldest_counter] and [*dropped_counters]. [now] is [now->tv_sec]. *)
Definition stats_counter_is_too_old (now lifetime : Z) (sc : StatsCounter)
  (acc : Z * Z) : bool * (Z * Z) :=
  let '(oldest_counter, dropped_counters) := acc in
  if negb (dynamic sc) then (false, acc)
  else if 0 <? ref_cnt sc then (false, acc)
  else if Z.land (live_mask sc) (Z.shiftl 1 (type_num SC_TYPE_STAMP)) =? 0
  then (false, acc)
  else
    let tstamp := counter_value sc SC_TYPE_STAMP in
    if tstamp <=? now - lifetime then
      (true,
       (if (oldest_counter =? 0) || (tstamp <? oldest_counter)
        then tstamp else oldest_counter,
        dropped_counters + 1))
    else (false, acc).

(** [stats_counter_free], the value-destroy function of the table. *)
Definition stats_counter_free (a : addr) : M unit :=
  modify (set_heap (delete a)).

(** [g_hash_table_foreach_remove] over the entries [l] of the table: the
    callback sees each record once; an entry it accepts leaves the table
    and its record is freed. *)
Fixpoint foreach_remove {U} (f : StatsCounter → U → bool * U)
  (l : list (Key * addr)) (u : U) : M U :=
  match l with
  | [] => ret u
  | (k, a) :: l =>
      sc <- deref a ;;
      let '(b, u') := f sc u in
      (if b then modify (set_counter_hash (delete k)) ;;; stats_counter_free a
       else ret tt) ;;;
      foreach_remove f l u'
  end.

(** The entries are visited in the order the table enumerates them. *)
Definition g_hash_table_foreach_remove {U} (f : StatsCounter → U → bool * U)
  (u : U) : M U :=
  s <- get ;; foreach_remove f (map_to_list (counter_hash s)) u.

(** [stats_prune_old_counters]; [now] is what [cached_g_current_time]
    delivers, and the result is the pair (oldest-timestamp, dropped) that
    the closing notice reports. *)
Definition stats_prune_old_counters (now lifetime : Z) : M (Z * Z) :=
  stats_lock ;;;
  r <- g_hash_table_foreach_remove (stats_counter_is_too_old now lifetime) (0, 0) ;;
  stats_unlock ;;;
  ret r.

(** ** The CSV exporter *)

(** The exporter reads the records and touches no global: its steps only
    return or fail. *)
Definition obind {A B} (o : outcome A) (k : A → outcome B) : outcome B :=
  match o with
  | Ok a => k a
  | AssertFail => AssertFail
  | MemFault => MemFault
  end.

Notation "x <~ c1 ;; c2" := (obind c1 (λ x, c2))
  (at level 100, c1 at next level, right associativity).

Definition lift {A} (o : outcome A) : M A :=
  λ s, match o with
       | Ok a => Ok (a, s)
       | AssertFail => AssertFail
       | MemFault => MemFault
       end.

(** A [guint32] variable keeps the low 32 bits of what is stored in it. *)
Definition guint32 (z : Z) : Z := z mod 4294967296.

Definition char_semicolon : ascii := ";"%char.
Definition char_newline : ascii := "010"%char.
Definition char_quote : ascii := "034"%char.
Definition char_backslash : ascii := "092"%char.
Definition char_nul : ascii := "000"%char.

(** [strchr(var, c) != NULL]. *)
Fixpoint strchr (var : string) (c : ascii) : bool :=
  match var with
  | EmptyString => false
  | String x rest => if Ascii.eqb x c then true else strchr rest c
  end.

(** [has_csv_special_character]: a [;] or a newline anywhere, or a double
    quote in front. *)
Definition has_csv_special_character (var : string) : bool :=
  if strchr var char_semicolon then true
  else if strchr var char_newline then true
  else match var with
       | String c _ => Ascii.eqb c char_quote
       | EmptyString => false
       end.

(** [result[i] = c] on a block of [length result] bytes. *)
Definition poke (result : list ascii) (i : Z) (c : ascii) : outcome (list ascii) :=
  if (0 <=? i) && (i <? Z.of_nat (length result))
  then Ok (<[Z.to_nat i := c]> result)
  else MemFault.

(** The body of the copying loop of [stats_format_csv_escapevar], over the
    characters [var[0..varlen)]. *)
Fixpoint escape_loop (var : list ascii) (result : list ascii) (e_index : Z)
  : outcome (list ascii * Z) :=
  match var with
  | [] => Ok (result, e_index)
  | c :: var =>
      r <~ (if Ascii.eqb c char_quote
            then result <~ poke result e_index char_backslash ;;
                 Ok (result, guint32 (e_index + 1))
            else Ok (result, e_index)) ;;
      let '(result, e_index) := r in
      result <~ poke result e_index c ;;
      escape_loop var result (guint32 (e_index + 1))
  end.

(** The C string that starts at [result]: the bytes before the first NUL. *)
Fixpoint c_str (result : list ascii) : string :=
  match result with
  | [] => EmptyString
  | c :: rest => if Ascii.eqb c char_nul then EmptyString else String c (c_str rest)
  end.

(** The [dropped], [processed], ... of [tag_names]. *)
Definition tag_names (t : StatsCounterType) : string :=
  match t with
  | SC_TYPE_DROPPED => "dropped"
  | SC_TYPE_PROCESSED => "processed"
  | SC_TYPE_STORED => "stored"
  | SC_TYPE_SUPPRESSED => "suppressed"
  | SC_TYPE_STAMP => "stamp"
  end.

(** The [source_names] table. *)
Definition source_names : list string :=
  ["none"; "file"; "pipe"; "tcp"; "udp"; "tcp6"; "udp6"; "unix-stream";
   "unix-dgram"; "syslog"; "network"; "internal"; "logstore"; "program";
   "sql"; "sun-streams"; "usertty"; "group"; "center"; "host"; "global";
   "mongodb"; "class"; "rule_id"; "tag"; "severity"; "facility"; "sender";
   "smtp"; "amqp"; "stomp"; "redis"; "snmp"]%string.

(** The arguments of one [g_string_append_printf] of a data row. *)
Record CsvRow : Type := mkCsvRow {
  SourceName : string;
  SourceId : string;
  SourceInstance : string;
  State : ascii;
  Type_ : string;
  Number : Z
}.

(** The format ["%s;%s;%s;%c;%s;%u\n"]. *)
Definition print_row (r : CsvRow) : string :=
  SourceName r +:+ ";" +:+ SourceId r +:+ ";" +:+ SourceInstance r +:+ ";"
  +:+ String (State r) EmptyString +:+ ";" +:+ Type_ r +:+ ";"
  +:+ pretty (Z.to_N (guint32 (Number r))) +:+ String char_newline EmptyString.

(** The header row that [stats_generate_csv] prints first. *)
Definition csv_header : string :=
  "SourceName;SourceId;SourceInstance;State;Type;Number"
  +:+ String char_newline EmptyString.

Section CsvExport.

(** [utf8_escape_string] of misc.c, which is not in stats.c, applied to a
    C string and a length. *)
Variable utf8_escape_string : string → Z → string.

(** The source-category constants of stats.h, which is not in stats.c. *)
Variables SCS_SOURCE SCS_DESTINATION SCS_SOURCE_MASK SCS_GROUP : Z.

(** [stats_format_csv_escapevar]; [var] is a C string, so it holds no NUL.
    [result] is the block of [varlen*2] bytes that [g_malloc] returns. *)
Definition stats_format_csv_escapevar (var : string) : outcome string :=
  let varlen := guint32 (Z.of_nat (String.length var)) in
  if negb (varlen =? 0) && has_csv_special_character var then
    let result := replicate (Z.to_nat (guint32 (varlen * 2))) char_nul in
    result <~ poke result 0 char_quote ;;
    r <~ escape_loop (take (Z.to_nat varlen) (list_ascii_of_string var)) result 1 ;;
    let '(result, e_index) := r in
    result <~ poke result e_index char_quote ;;
    result <~ poke result (guint32 (e_index + 1)) char_nul ;;
    Ok (utf8_escape_string (c_str result) (guint32 (e_index + 2)))
  else
    Ok (utf8_escape_string var (Z.of_nat (String.length var))).

(** The state letter of a record. *)
Definition csv_state (sc : StatsCounter) : ascii :=
  if dynamic sc then "d"%char
  else if ref_cnt sc =? 0 then "o"%char
  else "a"%char.

(** The source name of a record; [g_snprintf] into [buf[32]] keeps at
    most 31 characters. *)
Definition csv_source_name (sc : StatsCounter) : outcome string :=
  if Z.land (source sc) SCS_SOURCE_MASK =? SCS_GROUP then
    if negb (Z.land (source sc) SCS_SOURCE =? 0) then Ok "source"%string
    else if negb (Z.land (source sc) SCS_DESTINATION =? 0) then Ok "destination"%string
    else AssertFail
  else
    match source_names !! Z.to_nat (Z.land (source sc) SCS_SOURCE_MASK) with
    | Some name =>
        let prefix :=
          if negb (Z.land (source sc) SCS_SOURCE =? 0) then "src."%string
          else if negb (Z.land (source sc) SCS_DESTINATION =? 0) then "dst."%string
          else EmptyString in
        Ok (String.substring 0 31 (prefix +:+ name))
    | None => MemFault
    end.

(** The body of the loop of [stats_format_csv] for one live type. *)
Definition stats_format_csv_row (sc : StatsCounter) (s_id s_instance : string)
  (type : StatsCounterType) : outcome CsvRow :=
  let state := csv_state sc in
  source_name <~ csv_source_name sc ;;
  tag_name <~ stats_format_csv_escapevar (tag_names type) ;;
  Ok (mkCsvRow source_name s_id s_instance state tag_name (counter_value sc type)).

(** The loop of [stats_format_csv] over the counter types. *)
Fixpoint stats_format_csv_loop (sc : StatsCounter) (s_id s_instance : string)
  (types : list StatsCounterType) (csv : string) : outcome string :=
  match types with
  | [] => Ok csv
  | type :: types =>
      if is_live sc type then
        row <~ stats_format_csv_row sc s_id s_instance type ;;
        stats_format_csv_loop sc s_id s_instance types (csv +:+ print_row row)
      else stats_format_csv_loop sc s_id s_instance types csv
  end.

(** [stats_format_csv]: the rows of one record appended to [csv]. *)
Definition stats_format_csv (sc : StatsCounter) (csv : string) : outcome string :=
  s_id <~ stats_format_csv_escapevar (id sc) ;;
  s_instance <~ stats_format_csv_escapevar (instance sc) ;;
  stats_format_csv_loop sc s_id s_instance all_types csv.

(** [g_hash_table_foreach (counter_hash, stats_format_csv, csv)]. *)
Fixpoint foreach_format_csv (l : list (Key * addr)) (csv : string) : M string :=
  match l with
  | [] => ret csv
  | (_, a) :: l =>
      sc <- deref a ;;
      csv <- lift (stats_format_csv sc csv) ;;
      foreach_format_csv l csv
  end.

(** [stats_generate_csv]; the result is the document. *)
Definition stats_generate_csv : M string :=
  stats_lock ;;;
  s <- get ;;
  csv <- foreach_format_csv (map_to_list (counter_hash s)) csv_header ;;
  stats_unlock ;;;
  ret csv.

End CsvExport.

(** ** The comparison and hash functions of the table *)

(** [strcmp], as the sign of its result. *)
Definition strcmp (s1 s2 : string) : Z :=
  match String.compare s1 s2 with
  | Eq => 0
  | Lt => -1
  | Gt => 1
  end.

(** [stats_counter_equal]. *)
Definition stats_counter_equal (sc1 sc2 : StatsCounter) : bool :=
  (source sc1 =? source sc2) && (strcmp (id sc1) (id sc2) =? 0)
  && (strcmp (instance sc1) (instance sc2) =? 0).

Section Hash.

(** [g_str_hash] of GLib, a function of the characters of a C string with
    a [guint] result. *)
Variable g_str_hash : string → Z.

(** [stats_counter_hash]; the sum is taken in [guint]. *)
Definition stats_counter_hash (sc : StatsCounter) : Z :=
  guint32 (g_str_hash (id sc) + g_str_hash (instance sc) + source sc).

End Hash.

(** ** The log exporter *)

(** An [EVTTAG] as [evt_tag_printf] builds it: the tag name and the
    formatted value. *)
Abbreviation EVTTAG := (string * string)%type.

(** An [EVTREC]: the description given to [msg_event_create] and the tags
    added with [evt_rec_add_tag], in the order they were added. *)
Record EVTREC : Type := mkEVTREC {
  evt_description : string;
  evt_tags : list EVTTAG
}.

Definition evt_rec_add_tag (e : EVTREC) (tag : EVTTAG) : EVTREC :=
  mkEVTREC (evt_description e) (evt_tags e ++ [tag]).

(** The conversion [%u] of a counter value. *)
Definition print_u (n : Z) : string := pretty (Z.to_N (guint32 n)).

(** [(sc->id[0] && sc->instance[0]) ? "," : ""]. *)
Definition log_separator (sc : StatsCounter) : string :=
  match id sc, instance sc with
  | String _ _, String _ _ => ","
  | _, _ => EmptyString
  end.

Section LogExport.

(** The source-category constants of stats.h, which is not in stats.c. *)
Variables SCS_SOURCE SCS_DESTINATION SCS_SOURCE_MASK SCS_GROUP : Z.

(** The body of the loop of [stats_format_log_counter] for one live type:
    the tag that [evt_tag_printf] builds. *)
Definition stats_format_log_tag (sc : StatsCounter) (type : StatsCounterType)
  : outcome EVTTAG :=
  if Z.land (source sc) SCS_SOURCE_MASK =? SCS_GROUP then
    source_name <~ (if negb (Z.land (source sc) SCS_SOURCE =? 0)
                    then Ok "source"%string
                    else if negb (Z.land (source sc) SCS_DESTINATION =? 0)
                    then Ok "destination"%string
                    else AssertFail) ;;
    Ok (tag_names type,
        source_name +:+ "(" +:+ id sc +:+ log_separator sc +:+ instance sc
        +:+ ")=" +:+ print_u (counter_value sc type))
  else
    match source_names !! Z.to_nat (Z.land (source sc) SCS_SOURCE_MASK) with
    | Some name =>
        let prefix :=
          if negb (Z.land (source sc) SCS_SOURCE =? 0) then "src."%string
          else if negb (Z.land (source sc) SCS_DESTINATION =? 0) then "dst."%string
          else EmptyString in
        Ok (tag_names type,
            prefix +:+ name +:+ "(" +:+ id sc +:+ log_separator sc
            +:+ instance sc +:+ ")=" +:+ print_u (counter_value sc type))
    | None => MemFault
    end.

(** The loop of [stats_format_log_counter] over the counter types. *)
Fixpoint stats_format_log_loop (sc : StatsCounter) (types : list StatsCounterType)
  (e : EVTREC) : outcome EVTREC :=
  match types with
  | [] => Ok e
  | type :: types =>
      if is_live sc type then
        tag <~ stats_format_log_tag sc type ;;
        stats_format_log_loop sc types (evt_rec_add_tag e tag)
      else stats_format_log_loop sc types e
  end.

(** [stats_format_log_counter]: the tags of one record added to [e]. *)
Definition stats_format_log_counter (sc : StatsCounter) (e : EVTREC)
  : outcome EVTREC :=
  stats_format_log_loop sc all_types e.

(** [g_hash_table_foreach (counter_hash, stats_format_log_counter, e)]. *)
Fixpoint foreach_format_log (l : list (Key * addr)) (e : EVTREC) : M EVTREC :=
  match l with
  | [] => ret e
  | (_, a) :: l =>
      sc <- deref a ;;
      e <- lift (stats_format_log_counter sc e) ;;
      foreach_format_log l e
  end.

(** [stats_generate_log]; the result is the event handed to
    [msg_event_send]. *)
Definition stats_generate_log : M EVTREC :=
  let e := mkEVTREC "Log statistics" [] in
  stats_lock ;;;
  s <- get ;;
  e <- foreach_format_log (map_to_list (counter_hash s)) e ;;
  stats_unlock ;;;
  ret e.

End LogExport.

(** ** The severity and facility counters *)

(** [SEVERITY_MAX] is [0x7 + 1] and [FACILITY_MAX] is [23 + 1 + 1]. *)
Definition SEVERITY_MAX : nat := 8.

Definition FACILITY_MAX : nat := 25.

(** The registry together with the two static arrays of handles. *)
Record Globals : Type := mkGlobals {
  registry : Stats;
  severity_counters : list StatsCounterItem_ptr;
  facility_counters : list StatsCounterItem_ptr
}.

(** The globals when the program starts: the arrays are zero-initialised
    statics. *)
Definition globals_at_start : Globals :=
  mkGlobals stats_init (replicate SEVERITY_MAX None) (replicate FACILITY_MAX None).

Definition set_current_stats_level (level : Z) (s : Stats) : Stats :=
  mkStats (counter_hash s) (heap s) level (stats_locked s).

(** Reading [array[i]] and writing through [&array[i]]; an index outside
    the array is an access outside the object. *)
Definition array_get (array : list StatsCounterItem_ptr) (i : Z)
  : M StatsCounterItem_ptr :=
  λ s, if 0 <=? i
       then match array !! Z.to_nat i with
            | Some c => Ok (c, s)
            | None => MemFault
            end
       else MemFault.

Definition array_set (array : list StatsCounterItem_ptr) (i : Z)
  (c : StatsCounterItem_ptr) : M (list StatsCounterItem_ptr) :=
  λ s, if (0 <=? i) && (i <? Z.of_nat (length array))
       then Ok (<[Z.to_nat i := c]> array, s)
       else MemFault.

(** [g_snprintf (name, sizeof (name), "%d", i)] into [name[11]]: at most
    ten characters of the decimal numeral. *)
Definition snprintf_d (i : Z) : string := String.substring 0 10 (pretty i).

(** A loop [for (i = ...; i < ...; i++)] of [stats_reinit] that registers
    the counter named by [i] into [array[i]], over the values [indices]
    that [i] takes. *)
Fixpoint reinit_register (source : Z) (indices : list nat)
  (array : list StatsCounterItem_ptr) : M (list StatsCounterItem_ptr) :=
  match indices with
  | [] => ret array
  | i :: indices =>
      let name := snprintf_d (Z.of_nat i) in
      c <- stats_register_counter 3 source None (Some name) SC_TYPE_PROCESSED ;;
      array <- array_set array (Z.of_nat i) c ;;
      reinit_register source indices array
  end.

(** The same for the loops that unregister. *)
Fixpoint reinit_unregister (source : Z) (indices : list nat)
  (array : list StatsCounterItem_ptr) : M (list StatsCounterItem_ptr) :=
  match indices with
  | [] => ret array
  | i :: indices =>
      let name := snprintf_d (Z.of_nat i) in
      c <- array_get array (Z.of_nat i) ;;
      c <- stats_unregister_counter source None (Some name) SC_TYPE_PROCESSED c ;;
      array <- array_set array (Z.of_nat i) c ;;
      reinit_unregister source indices array
  end.

Section Reinit.

(** The source-category constants of stats.h, which is not in stats.c. *)
Variables SCS_SEVERITY SCS_FACILITY SCS_SOURCE : Z.

(** The body of [stats_reinit] between [stats_lock] and [stats_unlock]:
    the new contents of the two arrays. *)
Definition stats_reinit_counters
  (severity facility : list StatsCounterItem_ptr)
  : M (list StatsCounterItem_ptr * list StatsCounterItem_ptr) :=
  ok <- stats_check_level 3 ;;
  if ok then
    severity <- reinit_register (Z.lor SCS_SEVERITY SCS_SOURCE)
                  (seq 0 SEVERITY_MAX) severity ;;
    facility <- reinit_register (Z.lor SCS_FACILITY SCS_SOURCE)
                  (seq 0 (FACILITY_MAX - 1)) facility ;;
    c <- stats_register_counter 3 (Z.lor SCS_FACILITY SCS_SOURCE) None
           (Some "other"%string) SC_TYPE_PROCESSED ;;
    facility <- array_set facility (Z.of_nat (FACILITY_MAX - 1)) c ;;
    ret (severity, facility)
  else
    severity <- reinit_unregister (Z.lor SCS_SEVERITY SCS_SOURCE)
                  (seq 0 SEVERITY_MAX) severity ;;
    facility <- reinit_unregister (Z.lor SCS_FACILITY SCS_SOURCE)
                  (seq 0 (FACILITY_MAX - 1)) facility ;;
    c <- array_get facility (Z.of_nat (FACILITY_MAX - 1)) ;;
    c <- stats_unregister_counter (Z.lor SCS_FACILITY SCS_SOURCE) None
           (Some "other"%string) SC_TYPE_PROCESSED c ;;
    facility <- array_set facility (Z.of_nat (FACILITY_MAX - 1)) c ;;
    ret (severity, facility).

(** [stats_reinit]; [stats_level] is [cfg->stats_level]. *)
Definition stats_reinit (stats_level : Z) (g : Globals) : outcome Globals :=
  r <~ (modify (set_current_stats_level stats_level) ;;;
        stats_lock ;;;
        arrays <- stats_reinit_counters (severity_counters g) (facility_counters g) ;;
        stats_unlock ;;;
        ret arrays) (registry g) ;;
  let '(severity, facility, s) := r in
  Ok (mkGlobals s severity facility).

End Reinit.

Section IncPri.

(** [LOG_PRI] and [LOG_FAC] of the syslog headers, which are not in
    stats.c. *)
Variables LOG_PRI LOG_FAC : Z → Z.

(** [stats_counter_inc_pri]; the parameter is a [guint16]. *)
Definition stats_counter_inc_pri (pri : Z) (g : Globals) : outcome Globals :=
  let pri := guint16 pri in
  let lpri := LOG_FAC pri in
  r <~ (c <- array_get (severity_counters g) (LOG_PRI pri) ;;
        stats_counter_inc c ;;;
        let lpri := if Z.of_nat (FACILITY_MAX - 1) <? lpri
                    then Z.of_nat (FACILITY_MAX - 1) else lpri in
        c <- array_get (facility_counters g) lpri ;;
        stats_counter_inc c) (registry g) ;;
  Ok (mkGlobals r.2 (severity_counters g) (facility_counters g)).

End IncPri.

(** * Notions used by the statements *)

(** Every table entry points to a live record that carries the entry's key,
    and the 16-bit reference counts are in range. *)
Record wf (s : Stats) : Prop := mk_wf {
  wf_live : ∀ k a, counter_hash s !! k = Some a →
            ∃ sc, heap s !! a = Some sc ∧ key_of sc = k;
  wf_ref : ∀ a sc, heap s !! a = Some sc → 0 ≤ ref_cnt sc < 65536
}.

(** A call keeps the registry well-formed when it returns. *)
Definition preserves_wf {A} (m : M A) : Prop :=
  ∀ s r s', wf s → m s = Ok (r, s') → wf s'.

(** The key a registration call looks up. *)
Definition key_for (source : Z) (id instance : option string) : Key :=
  (guint16 source, default EmptyString id, default EmptyString instance).

(** The record a fresh [g_new0] would give a key, before its first
    reference is counted. *)
Definition blank (k : Key) : StatsCounter :=
  mkStatsCounter (vreplicate SC_TYPE_MAX 0) 0 k.1.1 k.1.2 k.2 0 false.

(** The record of a key as a registration call finds it: the stored one, or
    the blank one it is about to create. *)
Definition record_at (s : Stats) (k : Key) : StatsCounter :=
  match counter_hash s !! k with
  | Some a => default (blank k) (heap s !! a)
  | None => blank k
  end.

(** The address at which a registration call finds or creates the record. *)
Definition addr_at (s : Stats) (k : Key) : addr :=
  default (fresh (dom (heap s))) (counter_hash s !! k).

(** The key is free, or bound to a live record. *)
Definition sound_at (s : Stats) (k : Key) : Prop :=
  ∀ a, counter_hash s !! k = Some a → is_Some (heap s !! a).

(** [sc->ref_cnt++] and [sc->ref_cnt--] on the 16-bit field. *)
Definition incr : Z → Z := λ n, guint16 (n + 1).

Definition decr : Z → Z := λ n, guint16 (n - 1).

(** The registry after the record of [k] was found or created at [a] and
    its content replaced by [sc]. *)
Definition with_record (s : Stats) (k : Key) (a : addr) (sc : StatsCounter) : Stats :=
  mkStats (<[k := a]> (counter_hash s)) (<[a := sc]> (heap s))
    (current_stats_level s) (stats_locked s).

(** What a registration that revives the orphaned record [sc] at [a]
    leaves behind: the table and the set of allocated records as they were,
    and at [a] a record [sc'] with the counter values and live bits of
    [sc] and one reference. *)
Definition revived (s s' : Stats) (a : addr) (sc sc' : StatsCounter) : Prop :=
  counter_hash s' = counter_hash s ∧
  heap s' = <[a := sc']> (heap s) ∧
  dom (heap s') = dom (heap s) ∧
  counters sc' = counters sc ∧
  ref_cnt sc' = 1 ∧
  (∀ n, 0 ≤ n < 16 → Z.testbit (live_mask sc) n = true →
        Z.testbit (live_mask sc') n = true).

(** The calls one key and counter type receives from its users: a static
    or dynamic registration by key, a registration through the record
    pointer, and an unregistration by key or through the record pointer,
    each with the copy of the handle that the caller holds. *)
Inductive lifecycle_op : Type :=
| Register
| RegisterDynamic
| RegisterAssociated (sc : addr)
| Unregister (counter : addr * StatsCounterType)
| UnregisterDynamic (sc : addr) (counter : StatsCounterItem_ptr).

(** The call that an entry of the life cycle stands for. *)
Definition lifecycle_call (lvl src : Z) (i ins : option string)
  (t : StatsCounterType) (op : lifecycle_op) : M unit :=
  match op with
  | Register => stats_register_counter lvl src i ins t ;;; ret tt
  | RegisterDynamic => stats_register_dynamic_counter lvl src i ins t ;;; ret tt
  | RegisterAssociated sc => stats_register_associated_counter (Some sc) t ;;; ret tt
  | Unregister h => stats_unregister_counter src i ins t (Some h) ;;; ret tt
  | UnregisterDynamic sc h => stats_unregister_dynamic_counter (Some sc) t h
  end.

(** The calls of a life cycle, one after the other. *)
Fixpoint run_lifecycle (lvl src : Z) (i ins : option string) (t : StatsCounterType)
  (ops : list lifecycle_op) : M unit :=
  match ops with
  | [] => ret tt
  | op :: ops =>
      lifecycle_call lvl src i ins t op ;;;
      run_lifecycle lvl src i ins t ops
  end.

(** What a call adds to the number of references. *)
Definition delta (op : lifecycle_op) : Z :=
  match op with
  | Register | RegisterDynamic | RegisterAssociated _ => 1
  | Unregister _ | UnregisterDynamic _ _ => -1
  end.

(** The number of registrations and of unregistrations in a life cycle. *)
Fixpoint count_register (ops : list lifecycle_op) : Z :=
  match ops with
  | [] => 0
  | op :: ops => (if delta op =? 1 then 1 else 0) + count_register ops
  end.

Fixpoint count_unregister (ops : list lifecycle_op) : Z :=
  match ops with
  | [] => 0
  | op :: ops => (if delta op =? 1 then 0 else 1) + count_unregister ops
  end.

(** A call through a record pointer uses the pointer [a]. *)
Definition targets (a : addr) (op : lifecycle_op) : Prop :=
  match op with
  | RegisterAssociated sc | UnregisterDynamic sc _ => sc = a
  | _ => True
  end.

(** The key has a record in the registry. *)
Definition present (s : Stats) (k : Key) : Prop :=
  ∃ a sc, counter_hash s !! k = Some a ∧ heap s !! a = Some sc.

(** The verdict of [stats_counter_is_too_old], which does not depend on the
    two accumulators it updates. *)
Definition too_old (now lifetime : Z) (sc : StatsCounter) : bool :=
  (stats_counter_is_too_old now lifetime sc (0, 0)).1.

(** The entries of [l] that a callback with verdict [p] removes. *)
Fixpoint doomed (p : StatsCounter → bool) (hp : gmap addr StatsCounter)
  (l : list (Key * addr)) : list (Key * addr) :=
  match l with
  | [] => []
  | (k, a) :: l =>
      if from_option p false (hp !! a) then (k, a) :: doomed p hp l
      else doomed p hp l
  end.

(** The characters of a field with a backslash put before every double
    quote. *)
Definition quote_chars (var : list ascii) : list ascii :=
  flat_map (λ c, if Ascii.eqb c char_quote then [char_backslash; c] else [c]) var.

(** The field in double quotes, its own double quotes escaped. *)
Definition quoted_field (var : string) : string :=
  string_of_list_ascii
    (char_quote :: quote_chars (list_ascii_of_string var) ++ [char_quote]).

(** The text of a sequence of data rows. *)
Definition print_rows (rows : list CsvRow) : string :=
  foldr (λ r acc, print_row r +:+ acc) EmptyString rows.

(** The counter types of a record that are exported, in loop order. *)
Definition live_types (sc : StatsCounter) (types : list StatsCounterType)
  : list StatsCounterType :=
  List.filter (is_live sc) types.

(** ** Sample registries *)

(** The state a call leaves behind when it returns. *)
Definition final_state {A} (m : M A) (s : Stats) : Stats :=
  match m s with
  | Ok (_, s') => s'
  | _ => s
  end.

(** The document an export returns. *)
Definition final_doc (m : M string) (s : Stats) : string :=
  match m s with
  | Ok (doc, _) => doc
  | _ => EmptyString
  end.

(** An empty registry at level 3 with the lock held. *)
Definition demo_level3 : Stats := mkStats ∅ ∅ 3 true.

(** A dynamic record left behind by a register-and-increment call at time
    1000. *)
Definition demo_stale : StatsCounter :=
  mkStatsCounter [# 0; 1; 0; 0; 1000] 0 259 EmptyString "10.0.0.1" 18 true.

(** A static record with one user and three messages counted. *)
Definition demo_static : StatsCounter :=
  mkStatsCounter [# 0; 3; 0; 0; 0] 1 257 "s1" EmptyString 2 false.

(** A registry that holds the two, at level 3, lock not held. *)
Definition demo_registry : Stats :=
  mkStats (<[(259, EmptyString, "10.0.0.1"%string) := 1%positive]>
             {[(257, "s1"%string, EmptyString) := 2%positive]})
          (<[1%positive := demo_stale]> {[2%positive := demo_static]})
          3 false.

(** Three registrations and two unregistrations of one key. *)
Definition demo_lifecycle : list lifecycle_op :=
  [RegisterDynamic; RegisterAssociated 1%positive; RegisterDynamic;
   UnregisterDynamic 1%positive (Some (1%positive, SC_TYPE_PROCESSED));
   Unregister (1%positive, SC_TYPE_PROCESSED)].

(** An escaping pass that changes nothing, and the source-category
    constants with [SCS_SOURCE = 0x100], [SCS_DESTINATION = 0x200],
    [SCS_SOURCE_MASK = 0xff] and [SCS_GROUP] the index of ["group"] in
    [source_names]. *)
Definition demo_escape : string → Z → string := λ s _, s.

Definition demo_SCS_SOURCE : Z := 256.

Definition demo_SCS_DESTINATION : Z := 512.

Definition demo_SCS_SOURCE_MASK : Z := 255.

Definition demo_SCS_GROUP : Z := 17.

(** ** The calls of the interface *)

(** A call of the registry interface with its arguments; the handles and
    record pointers are whatever the caller holds. *)
Inductive api_call : Type :=
| CallLock
| CallUnlock
| CallRegister (lvl src : Z) (i ins : option string) (t : StatsCounterType)
| CallRegisterDynamic (lvl src : Z) (i ins : option string) (t : StatsCounterType)
| CallRegisterAssociated (sc : StatsCounter_ptr) (t : StatsCounterType)
| CallUnregister (src : Z) (i ins : option string) (t : StatsCounterType)
    (counter : StatsCounterItem_ptr)
| CallUnregisterDynamic (sc : StatsCounter_ptr) (t : StatsCounterType)
    (counter : StatsCounterItem_ptr)
| CallRegisterAndIncrement (lvl src : Z) (i ins : option string) (timestamp : Z)
| CallPrune (now lifetime : Z)
| CallInc (counter : StatsCounterItem_ptr)
| CallSet (counter : StatsCounterItem_ptr) (value : Z).

Definition run_call (c : api_call) : M unit :=
  match c with
  | CallLock => stats_lock
  | CallUnlock => stats_unlock
  | CallRegister lvl src i ins t => stats_register_counter lvl src i ins t ;;; ret tt
  | CallRegisterDynamic lvl src i ins t =>
      stats_register_dynamic_counter lvl src i ins t ;;; ret tt
  | CallRegisterAssociated sc t => stats_register_associated_counter sc t ;;; ret tt
  | CallUnregister src i ins t counter =>
      stats_unregister_counter src i ins t counter ;;; ret tt
  | CallUnregisterDynamic sc t counter => stats_unregister_dynamic_counter sc t counter
  | CallRegisterAndIncrement lvl src i ins timestamp =>
      stats_register_and_increment_dynamic_counter lvl src i ins timestamp
  | CallPrune now lifetime => stats_prune_old_counters now lifetime ;;; ret tt
  | CallInc counter => stats_counter_inc counter
  | CallSet counter value => stats_counter_set counter value
  end.

Fixpoint run_calls (cs : list api_call) : M unit :=
  match cs with
  | [] => ret tt
  | c :: cs => run_call c ;;; run_calls cs
  end.

Definition is_prune (c : api_call) : bool :=
  match c with
  | CallPrune _ _ => true
  | _ => false
  end.

(** Nothing was taken away between [s] and [s']: every table entry is still
    there, and every record is still allocated, under the same key, with at
    least the live bits it had, and dynamic if it was. *)
Definition keeps_records (s s' : Stats) : Prop :=
  (∀ k a, counter_hash s !! k = Some a → counter_hash s' !! k = Some a) ∧
  (∀ a sc, heap s !! a = Some sc →
     ∃ sc', heap s' !! a = Some sc' ∧ key_of sc' = key_of sc ∧
            (dynamic sc = true → dynamic sc' = true) ∧
            (∀ t, is_live sc t = true → is_live sc' t = true)).

(** A call takes nothing away when it returns. *)
Definition monotone {A} (m : M A) : Prop :=
  ∀ s r s', m s = Ok (r, s') → keeps_records s s'.

(** The entries that a sweep at [now] with [lifetime] removes. *)
Definition stale (now lifetime : Z) (s : Stats) : list (Key * addr) :=
  doomed (too_old now lifetime) (heap s) (map_to_list (counter_hash s)).

(** The stamp of the record at an address. *)
Definition stamp_at (s : Stats) (a : addr) : Z :=
  from_option (λ sc, counter_value sc SC_TYPE_STAMP) 0 (heap s !! a).

(** The two accumulators of the sweep after the callback has accepted
    records with the stamps [ts], in that order: [*oldest_counter] and
    [*dropped_counters]. *)
Definition sweep_acc (acc : Z * Z) (ts : list Z) : Z * Z :=
  foldl (λ acc T, (if (acc.1 =? 0) || (T <? acc.1) then T else acc.1, acc.2 + 1))
    acc ts.

(** The (record, counter type) pairs that an export visits: for every table
    entry, in table order, the live types of its record in loop order. *)
Definition exported_pairs (s : Stats) : list (StatsCounter * StatsCounterType) :=
  flat_map (λ ka : Key * addr,
              match heap s !! ka.2 with
              | Some sc => (λ t, (sc, t)) <$> live_types sc all_types
              | None => []
              end)
    (map_to_list (counter_hash s)).

(** The source of a record can be named: a group record says whether it
    groups sources or destinations, any other record has its category in
    the [source_names] table. *)
Definition valid_source (SCS_SOURCE SCS_DESTINATION SCS_SOURCE_MASK SCS_GROUP : Z)
  (sc : StatsCounter) : Prop :=
  if Z.land (source sc) SCS_SOURCE_MASK =? SCS_GROUP
  then Z.land (source sc) SCS_SOURCE ≠ 0 ∨ Z.land (source sc) SCS_DESTINATION ≠ 0
  else is_Some (source_names !! Z.to_nat (Z.land (source sc) SCS_SOURCE_MASK)).

(** ** The severity and facility counters *)

(** The registry after the record of [k], created blank if there was none,
    was replaced by [f] of it. *)
Definition touch (s : Stats) (k : Key) (f : StatsCounter → StatsCounter) : Stats :=
  with_record s k (addr_at s k) (f (record_at s k)).

(** Between [s] and [s'] the record of [k] went through [f] and no other
    key was touched. *)
Definition changes_only (s s' : Stats) (k : Key) (f : StatsCounter → StatsCounter)
  : Prop :=
  wf s' ∧ stats_locked s' = stats_locked s ∧
  current_stats_level s' = current_stats_level s ∧
  keeps_records s s' ∧
  record_at s' k = f (record_at s k) ∧
  ∀ k', k' ≠ k → record_at s' k' = record_at s k' ∧
                 counter_hash s' !! k' = counter_hash s !! k'.

(** What a registration of type [t] does to a record, and what an
    unregistration through the handle [c] does. *)
Definition registered (t : StatsCounterType) (sc : StatsCounter) : StatsCounter :=
  mark_live t (set_ref_cnt incr sc).

Definition unregistered_through (c : StatsCounterItem_ptr) (sc : StatsCounter)
  : StatsCounter :=
  match c with
  | Some _ => set_ref_cnt decr sc
  | None => sc
  end.

(** The key of the counter that [stats_reinit] names by the number [i]. *)
Definition numbered_key (source : Z) (i : nat) : Key :=
  key_for source None (Some (snprintf_d (Z.of_nat i))).

(** The keys behind [severity_counters[i]] and [facility_counters[i]]. *)
Definition severity_key (SCS_SEVERITY SCS_SOURCE : Z) (i : nat) : Key :=
  numbered_key (Z.lor SCS_SEVERITY SCS_SOURCE) i.

Definition facility_key (SCS_FACILITY SCS_SOURCE : Z) (i : nat) : Key :=
  if (i <? FACILITY_MAX - 1)%nat
  then numbered_key (Z.lor SCS_FACILITY SCS_SOURCE) i
  else key_for (Z.lor SCS_FACILITY SCS_SOURCE) None (Some "other"%string).

(** A slot of the two arrays is NULL or points to the "processed" counter
    of the record of its key, which is live. *)
Definition slot_ok (s : Stats) (k : Key) (c : StatsCounterItem_ptr) : Prop :=
  match c with
  | None => True
  | Some h =>
      ∃ a sc, h = (a, SC_TYPE_PROCESSED) ∧ counter_hash s !! k = Some a ∧
              heap s !! a = Some sc ∧ is_live sc SC_TYPE_PROCESSED = true
  end.

(** The globals are consistent: the registry is well-formed, the arrays
    have their declared sizes and every slot is as above. *)
Definition slots_ok (SCS_SEVERITY SCS_FACILITY SCS_SOURCE : Z) (g : Globals) : Prop :=
  wf (registry g) ∧
  length (severity_counters g) = SEVERITY_MAX ∧
  length (facility_counters g) = FACILITY_MAX ∧
  (∀ i c, severity_counters g !! i = Some c →
          slot_ok (registry g) (severity_key SCS_SEVERITY SCS_SOURCE i) c) ∧
  (∀ i c, facility_counters g !! i = Some c →
          slot_ok (registry g) (facility_key SCS_FACILITY SCS_SOURCE i) c).

(** [n] calls of [stats_reinit] with the same level. *)
Fixpoint reinit_times (SCS_SEVERITY SCS_FACILITY SCS_SOURCE : Z) (n : nat)
  (stats_level : Z) (g : Globals) : outcome Globals :=
  match n with
  | O => Ok g
  | S n =>
      g <~ stats_reinit SCS_SEVERITY SCS_FACILITY SCS_SOURCE stats_level g ;;
      reinit_times SCS_SEVERITY SCS_FACILITY SCS_SOURCE n stats_level g
  end.

(** What an increment through the handle [c] does to the record behind it. *)
Definition counted_through (c : StatsCounterItem_ptr) (sc : StatsCounter)
  : StatsCounter :=
  match c with
  | Some (_, t) => set_counter t (λ v, v + 1) sc
  | None => sc
  end.

(** ** Handles *)

(** A registration by key, static or dynamic, as the handle it returns. *)
Definition register_by_key (dyn : bool) (lvl src : Z) (i ins : option string)
  (t : StatsCounterType) : M StatsCounterItem_ptr :=
  if dyn then r <- stats_register_dynamic_counter lvl src i ins t ;; ret r.1.2
  else stats_register_counter lvl src i ins t.

(** The key [k] is in the table after every call of [cs] run from [s]: no
    sweep among them removes its record. *)
Fixpoint key_stays (k : Key) (cs : list api_call) (s : Stats) : Prop :=
  match cs with
  | [] => True
  | c :: cs =>
      match run_call c s with
      | Ok (_, s') => is_Some (counter_hash s' !! k) ∧ key_stays k cs s'
      | _ => True
      end
  end.

(** ** Further sample data *)

(** The event an export returns. *)
Definition final_event (m : M EVTREC) (s : Stats) : EVTREC :=
  match m s with
  | Ok (e, _) => e
  | _ => mkEVTREC EmptyString []
  end.

(** The sample registry with the lock held. *)
Definition demo_registry_locked : Stats := set_stats_locked true demo_registry.

(** A batch of calls under the lock, and the same followed by a sweep. *)
Definition demo_calls_no_sweep : list api_call :=
  [CallLock;
   CallRegister 1 257 (Some "s1"%string) None SC_TYPE_DROPPED;
   CallUnregister 257 (Some "s1"%string) None SC_TYPE_PROCESSED
     (Some (2%positive, SC_TYPE_PROCESSED));
   CallRegisterAndIncrement 3 259 None (Some "10.0.0.2"%string) 1500;
   CallUnlock].

Definition demo_calls : list api_call :=
  demo_calls_no_sweep ++ [CallPrune 2000 100].

(** [SCS_SEVERITY] and [SCS_FACILITY] as the indices of ["severity"] and
    ["facility"] in [source_names], and the macros [LOG_PRI] and [LOG_FAC]
    with the masks 0x07 and 0x03f8. *)
Definition demo_SCS_SEVERITY : Z := 25.

Definition demo_SCS_FACILITY : Z := 26.

Definition demo_LOG_PRI (p : Z) : Z := Z.land p 7.

Definition demo_LOG_FAC (p : Z) : Z := Z.shiftr (Z.land p 1016) 3.

(** * Properties *)

(** ** Well-formed registries *)










Lemma wf_sound s k : wf s → sound_at s k.
Proof. intros [Hl _] a Ha. destruct (Hl _ _ Ha) as (sc & -> & _). eauto. Qed.

Lemma wf_init : wf stats_init.
Proof. split; simpl; intros ? ?; rewrite lookup_empty; discriminate. Qed.

Lemma with_record_lookup s k a sc :
  counter_hash (with_record s k a sc) !! k = Some a ∧
  heap (with_record s k a sc) !! a = Some sc.
Proof. simpl. by rewrite !lookup_insert_eq. Qed.

Lemma with_record_again s k a sc sc' :
  with_record (with_record s k a sc) k a sc' = with_record s k a sc'.
Proof. unfold with_record; simpl. by rewrite !insert_insert_eq. Qed.

Lemma record_at_with_record s k a sc : record_at (with_record s k a sc) k = sc.
Proof. unfold record_at. simpl. by rewrite !lookup_insert_eq. Qed.

Lemma addr_at_with_record s k a sc : addr_at (with_record s k a sc) k = a.
Proof. unfold addr_at. simpl. by rewrite lookup_insert_eq. Qed.

Lemma update_ok a f s sc :
  heap s !! a = Some sc → update a f s = Ok (tt, set_heap (insert a (f sc)) s).
Proof. intros H. unfold update, bind, deref, modify. by rewrite H. Qed.

Lemma update_with_record s k a sc f :
  update a f (with_record s k a sc) = Ok (tt, with_record s k a (f sc)).
Proof.
  erewrite update_ok by apply with_record_lookup.
  unfold set_heap, with_record; simpl. by rewrite insert_insert_eq.
Qed.

Lemma deref_with_record s k a sc :
  deref a (with_record s k a sc) = Ok (sc, with_record s k a sc).
Proof. unfold deref. by rewrite (proj2 (with_record_lookup s k a sc)). Qed.

Lemma assert_locked_ok s : stats_locked s = true → assert_locked s = Ok (tt, s).
Proof. intros H. unfold assert_locked, bind, get, g_assert. by rewrite H. Qed.

(** [stats_add_counter] on an admitted call: the record is found or
    created, and one more reference is counted on it. *)
Lemma stats_add_counter_ok lvl src i ins s :
  let k := key_for src i ins in
  lvl ≤ current_stats_level s → sound_at s k →
  stats_add_counter lvl src i ins s =
    Ok (Some (addr_at s k, ref_cnt (record_at s k) =? 0),
        with_record s k (addr_at s k) (set_ref_cnt incr (record_at s k))).
Proof.
  intros k Hl Hs. unfold stats_add_counter, bind, stats_check_level.
  replace (lvl <=? current_stats_level s) with true by (symmetry; lia).
  simpl. unfold g_hash_table_lookup. fold (key_for src i ins). fold k.
  unfold addr_at, record_at.
  destruct (counter_hash s !! k) as [a|] eqn:Hk; simpl.
  - destruct (Hs a Hk) as [sc Hsc]. unfold deref. rewrite Hsc. simpl.
    erewrite update_ok by done. unfold ret. do 2 f_equal.
    unfold with_record, set_heap. simpl. rewrite (insert_id (counter_hash s)) by done.
    by destruct s.
  - unfold g_new0, g_hash_table_insert, modify, ret. simpl. done.
Qed.

Lemma stats_add_counter_rejected lvl src i ins s :
  current_stats_level s < lvl → stats_add_counter lvl src i ins s = Ok (None, s).
Proof.
  intros Hl. unfold stats_add_counter, bind, stats_check_level.
  replace (lvl <=? current_stats_level s) with false by (symmetry; lia).
  done.
Qed.


(** ** Bits of the live mask *)

Lemma land_bit_eq0 m n :
  0 ≤ n → (Z.land m (Z.shiftl 1 n) =? 0) = negb (Z.testbit m n).
Proof.
  intros Hn. rewrite Z.shiftl_1_l.
  destruct (Z.testbit m n) eqn:Hb; simpl.
  - apply Z.eqb_neq. intros H0.
    assert (Hc : Z.testbit (Z.land m (2 ^ n)) n = true).
    { rewrite Z.land_spec, Hb, Z.pow2_bits_true; done. }
    rewrite H0, Z.bits_0 in Hc. discriminate.
  - apply Z.eqb_eq. apply Z.bits_inj'. intros i Hi.
    rewrite Z.land_spec, Z.bits_0, Z.pow2_bits_eqb by done.
    destruct (Z.eqb_spec n i) as [->|]; [by rewrite Hb | apply andb_false_r].
Qed.

Lemma type_num_range t : 0 ≤ type_num t < 16.
Proof. destruct t; simpl; lia. Qed.

Lemma type_num_inj t t' : type_num t = type_num t' → t = t'.
Proof. destruct t, t'; simpl; intros; congruence. Qed.

Lemma is_live_testbit sc t : is_live sc t = Z.testbit (live_mask sc) (type_num t).
Proof.
  unfold is_live. rewrite land_bit_eq0 by apply type_num_range.
  apply negb_involutive.
Qed.

Lemma guint16_testbit z n : 0 ≤ n < 16 → Z.testbit (guint16 z) n = Z.testbit z n.
Proof.
  intros Hn. unfold guint16. change 65536 with (2 ^ 16).
  apply Z.mod_pow2_bits_low. lia.
Qed.

Lemma is_live_mark_live sc t t' :
  is_live (mark_live t sc) t' = is_live sc t' || (type_num t =? type_num t').
Proof.
  rewrite !is_live_testbit. unfold mark_live, set_live_mask; simpl.
  rewrite guint16_testbit by apply type_num_range.
  rewrite Z.lor_spec, Z.shiftl_1_l.
  by rewrite Z.pow2_bits_eqb by apply type_num_range.
Qed.

Lemma is_live_mark_live_same sc t : is_live (mark_live t sc) t = true.
Proof. rewrite is_live_mark_live, Z.eqb_refl. apply orb_true_r. Qed.

Lemma is_live_eq sc sc' t : live_mask sc = live_mask sc' → is_live sc t = is_live sc' t.
Proof. unfold is_live. by intros ->. Qed.

Lemma item_ptr_eqb_refl p : item_ptr_eqb p p = true.
Proof.
  destruct p as [[a t]|]; simpl; [|done].
  by rewrite Pos.eqb_refl, Z.eqb_refl.
Qed.

Lemma item_ptr_eqb_eq p q : item_ptr_eqb p q = true ↔ p = q.
Proof.
  split; [|intros ->; apply item_ptr_eqb_refl].
  destruct p as [[a t]|], q as [[b u]|]; simpl; try done.
  intros [Ha Ht]%andb_true_iff.
  apply Pos.eqb_eq in Ha. apply Z.eqb_eq, type_num_inj in Ht. by subst.
Qed.

Lemma guint16_range z : 0 ≤ guint16 z < 65536.
Proof. unfold guint16. apply Z.mod_pos_bound. lia. Qed.

Lemma guint16_small z : 0 ≤ z < 65536 → guint16 z = z.
Proof. intros. unfold guint16. by apply Z.mod_small. Qed.

Lemma guint16_add z n : guint16 (guint16 z + n) = guint16 (z + n).
Proof. unfold guint16. by rewrite Zplus_mod_idemp_l. Qed.

Lemma decr_incr n : 0 ≤ n < 65536 → decr (incr n) = n.
Proof.
  intros Hn. unfold decr, incr.
  replace (guint16 (n + 1) - 1) with (guint16 (n + 1) + (-1)) by lia.
  rewrite guint16_add. replace (n + 1 + -1) with n by lia.
  by apply guint16_small.
Qed.

Lemma gint_small z : 0 ≤ z < 2147483648 → gint z = z.
Proof. intros Hz. unfold gint. rewrite Z.mod_small; lia. Qed.

(** ** The calls, run on a given registry *)

Lemma stats_register_counter_ok lvl src i ins t s :
  let k := key_for src i ins in
  stats_locked s = true → lvl ≤ current_stats_level s → sound_at s k →
  stats_register_counter lvl src i ins t s =
    Ok (Some (addr_at s k, t),
        with_record s k (addr_at s k)
          (mark_live t (set_ref_cnt incr (record_at s k)))).
Proof.
  intros k Hlk Hl Hs. unfold stats_register_counter.
  unfold bind at 1. rewrite assert_locked_ok by done.
  unfold bind at 1. unfold g_assert at 1.
  replace (type_num t <? Z.of_nat SC_TYPE_MAX) with true
    by (destruct t; reflexivity).
  unfold bind at 1. rewrite stats_add_counter_ok by done. fold k.
  unfold bind. by rewrite update_with_record.
Qed.

Lemma stats_register_dynamic_counter_run lvl src i ins t s :
  let k := key_for src i ins in
  let pre := record_at s k in
  stats_locked s = true → lvl ≤ current_stats_level s → sound_at s k →
  stats_register_dynamic_counter lvl src i ins t s =
    if negb (ref_cnt pre =? 0) && negb (dynamic pre) then AssertFail
    else Ok (Some (addr_at s k), Some (addr_at s k, t), Some (ref_cnt pre =? 0),
             with_record s k (addr_at s k)
               (mark_live t (set_dynamic true (set_ref_cnt incr pre)))).
Proof.
  intros k pre Hlk Hl Hs. unfold stats_register_dynamic_counter.
  unfold bind at 1. rewrite assert_locked_ok by done.
  unfold bind at 1. unfold g_assert at 1.
  replace (type_num t <? Z.of_nat SC_TYPE_MAX) with true
    by (destruct t; reflexivity).
  unfold bind at 1. rewrite stats_add_counter_ok by done. fold k. fold pre.
  unfold bind at 1. rewrite deref_with_record. simpl.
  destruct (negb (ref_cnt pre =? 0) && negb (dynamic pre)); [done|].
  unfold bind, ret. by rewrite !update_with_record.
Qed.

Lemma stats_register_associated_counter_run a t s sc :
  stats_locked s = true → heap s !! a = Some sc →
  stats_register_associated_counter (Some a) t s =
    if dynamic sc
    then Ok (Some (a, t), set_heap (insert a (set_ref_cnt incr (mark_live t sc))) s)
    else AssertFail.
Proof.
  intros Hlk Ha. unfold stats_register_associated_counter.
  unfold bind at 1. rewrite assert_locked_ok by done.
  unfold bind at 1. unfold deref. rewrite Ha.
  unfold bind at 1. unfold g_assert. destruct (dynamic sc); [|done].
  unfold bind. erewrite update_ok by done.
  erewrite update_ok by (simpl; apply lookup_insert_eq).
  unfold ret, set_heap; simpl. by rewrite insert_insert_eq.
Qed.

Lemma stats_unregister_counter_run src i ins t h s :
  stats_locked s = true →
  stats_unregister_counter src i ins t (Some h) s =
    match counter_hash s !! key_for src i ins with
    | None => AssertFail
    | Some a =>
        match heap s !! a with
        | None => MemFault
        | Some sc =>
            if is_live sc t && item_ptr_eqb (Some (a, t)) (Some h)
            then Ok (None, set_heap (insert a (set_ref_cnt decr sc)) s)
            else AssertFail
        end
    end.
Proof.
  intros Hlk. unfold stats_unregister_counter.
  unfold bind at 1. rewrite assert_locked_ok by done.
  unfold bind at 1. unfold g_hash_table_lookup. fold (key_for src i ins).
  destruct (counter_hash s !! key_for src i ins) as [a|]; [|done].
  unfold bind at 1. unfold deref.
  destruct (heap s !! a) as [sc|] eqn:Ha; [|done].
  unfold bind at 1. unfold g_assert.
  destruct (is_live sc t && item_ptr_eqb (Some (a, t)) (Some h)); [|done].
  unfold bind. by erewrite update_ok by done.
Qed.

Lemma stats_unregister_dynamic_counter_run a t counter s :
  stats_locked s = true →
  stats_unregister_dynamic_counter (Some a) t counter s =
    match heap s !! a with
    | None => MemFault
    | Some sc =>
        if is_live sc t && item_ptr_eqb (Some (a, t)) counter
        then Ok (tt, set_heap (insert a (set_ref_cnt decr sc)) s)
        else AssertFail
    end.
Proof.
  intros Hlk. unfold stats_unregister_dynamic_counter.
  unfold bind at 1. rewrite assert_locked_ok by done.
  unfold bind at 1. unfold deref.
  destruct (heap s !! a) as [sc|] eqn:Ha; [|done].
  unfold bind at 1. unfold g_assert.
  destruct (is_live sc t && item_ptr_eqb (Some (a, t)) counter); [|done].
  by erewrite update_ok by done.
Qed.


Lemma set_heap_with_record s k a sc x :
  set_heap (insert a x) (with_record s k a sc) = with_record s k a x.
Proof. unfold set_heap, with_record; simpl. by rewrite insert_insert_eq. Qed.

Lemma with_record_present s k a x :
  counter_hash s !! k = Some a →
  counter_hash (with_record s k a x) = counter_hash s.
Proof. intros H. simpl. by apply insert_id. Qed.

Lemma addr_at_present s k a : counter_hash s !! k = Some a → addr_at s k = a.
Proof. intros H. unfold addr_at. by rewrite H. Qed.

Lemma record_at_present s k a sc :
  counter_hash s !! k = Some a → heap s !! a = Some sc → record_at s k = sc.
Proof. intros H1 H2. unfold record_at. by rewrite H1, H2. Qed.

Lemma record_at_absent s k : counter_hash s !! k = None → record_at s k = blank k.
Proof. intros H. unfold record_at. by rewrite H. Qed.

(** A registration that returned a handle was called with the lock held,
    was admitted, and did not meet a dangling table entry. *)
Lemma stats_add_counter_inv lvl src i ins s r s' :
  stats_add_counter lvl src i ins s = Ok (Some r, s') →
  lvl ≤ current_stats_level s ∧ sound_at s (key_for src i ins).
Proof.
  unfold stats_add_counter, bind, stats_check_level.
  destruct (Z.leb_spec lvl (current_stats_level s)) as [Hl|Hl]; simpl; [|done].
  unfold g_hash_table_lookup. fold (key_for src i ins). intros H.
  split; [done|]. intros a Ha. rewrite Ha in H. unfold deref in H.
  destruct (heap s !! a); [eauto | done].
Qed.

Lemma stats_register_counter_inv lvl src i ins t s h s' :
  stats_register_counter lvl src i ins t s = Ok (Some h, s') →
  stats_locked s = true ∧ lvl ≤ current_stats_level s ∧
  sound_at s (key_for src i ins).
Proof.
  unfold stats_register_counter. unfold bind at 1.
  unfold assert_locked, bind at 1, get, g_assert at 1.
  destruct (stats_locked s) eqn:Hlk; [|done].
  unfold bind at 1. unfold g_assert at 1.
  destruct (type_num t <? Z.of_nat SC_TYPE_MAX); [|done].
  unfold bind at 1.
  destruct (stats_add_counter lvl src i ins s) as [[[[a n]|] s1]| |] eqn:Ha;
    try done.
  intros _. apply stats_add_counter_inv in Ha. tauto.
Qed.

Lemma stats_register_dynamic_counter_inv lvl src i ins t s sc h n s' :
  stats_register_dynamic_counter lvl src i ins t s = Ok (sc, Some h, n, s') →
  stats_locked s = true ∧ lvl ≤ current_stats_level s ∧
  sound_at s (key_for src i ins).
Proof.
  unfold stats_register_dynamic_counter. unfold bind at 1.
  unfold assert_locked, bind at 1, get, g_assert at 1.
  destruct (stats_locked s) eqn:Hlk; [|done].
  unfold bind at 1. unfold g_assert at 1.
  destruct (type_num t <? Z.of_nat SC_TYPE_MAX); [|done].
  unfold bind at 1.
  destruct (stats_add_counter lvl src i ins s) as [[[[a b]|] s1]| |] eqn:Ha;
    try done.
  intros _. apply stats_add_counter_inv in Ha. tauto.
Qed.

(** ** Admission *)

(** C3: a registration, static or dynamic, whose required level is above
    the configured one returns a null handle and the registry it was called
    on, unchanged: no record, reference count, live mask or table entry is
    touched. *)
Theorem register_level_not_met lvl src i ins t s :
  stats_locked s = true → current_stats_level s < lvl →
  stats_register_counter lvl src i ins t s = Ok (None, s) ∧
  stats_register_dynamic_counter lvl src i ins t s = Ok (None, None, None, s).
Proof.
  intros Hlk Hl.
  split; unfold stats_register_counter, stats_register_dynamic_counter;
    unfold bind at 1; rewrite assert_locked_ok by done;
    unfold bind, g_assert;
    replace (type_num t <? Z.of_nat SC_TYPE_MAX) with true
      by (destruct t; reflexivity);
    by rewrite stats_add_counter_rejected by done.
Qed.

(** ** Unregistration through a null handle *)

(** C9, as the code has it. With the lock held, [stats_unregister_counter]
    with a null counter handle returns and leaves the registry as it was,
    and so does [stats_unregister_dynamic_counter] with a null record
    pointer; a static unregistration that returned has cleared the handle,
    so repeating it through the same handle variable changes nothing. The
    dynamic unregistration is not protected in this way: with a record
    pointer that is not null and a null handle it fails its assertion, and
    as it clears neither the pointer nor the handle, repeating it takes a
    second reference off the record. *)
Theorem unregister_null_noop src i ins t counter s :
  stats_locked s = true →
  stats_unregister_counter src i ins t None s = Ok (None, s) ∧
  stats_unregister_dynamic_counter None t counter s = Ok (tt, s) ∧
  (∀ h r s1, stats_unregister_counter src i ins t h s = Ok (r, s1) →
     r = None ∧ stats_unregister_counter src i ins t r s1 = Ok (None, s1)) ∧
  (∀ a sc, heap s !! a = Some sc →
     stats_unregister_dynamic_counter (Some a) t None s = AssertFail) ∧
  (∀ a sc, heap s !! a = Some sc → is_live sc t = true →
     (stats_unregister_dynamic_counter (Some a) t (Some (a, t)) ;;;
      stats_unregister_dynamic_counter (Some a) t (Some (a, t))) s =
       Ok (tt, set_heap (insert a (set_ref_cnt (λ n, decr (decr n)) sc)) s)).
Proof.
  intros Hlk.
  assert (Hnull : ∀ s0, stats_locked s0 = true →
            stats_unregister_counter src i ins t None s0 = Ok (None, s0)).
  { intros s0 H0. unfold stats_unregister_counter, bind.
    by rewrite assert_locked_ok. }
  split; [by apply Hnull|]. split; [|split; [|split]].
  - unfold stats_unregister_dynamic_counter, bind. by rewrite assert_locked_ok.
  - intros [h|] r s1 H.
    + rewrite stats_unregister_counter_run in H by done.
      destruct (counter_hash s !! key_for src i ins) as [a|]; [|done].
      destruct (heap s !! a) as [sc|]; [|done].
      destruct (is_live sc t && item_ptr_eqb (Some (a, t)) (Some h)); [|done].
      injection H as <- <-. split; [done|]. by apply Hnull.
    + rewrite Hnull in H by done. injection H as <- <-. split; [done|].
      by apply Hnull.
  - intros a sc Ha. rewrite stats_unregister_dynamic_counter_run by done.
    rewrite Ha. simpl. by rewrite andb_false_r.
  - intros a sc Ha Hlive. unfold bind.
    rewrite stats_unregister_dynamic_counter_run by done.
    rewrite Ha, Hlive, item_ptr_eqb_refl. simpl.
    rewrite stats_unregister_dynamic_counter_run by done.
    simpl. rewrite lookup_insert_eq.
    rewrite (is_live_eq _ sc) by reflexivity.
    rewrite Hlive, Pos.eqb_refl, Z.eqb_refl. simpl.
    unfold set_heap. simpl. by rewrite insert_insert_eq.
Qed.

(** C9 as stated fails for the dynamic unregistration. A dynamic
    registration unregistered twice through the handle and record pointer
    it returned: both calls return, and the one reference that was counted
    is taken off twice, which leaves the 16-bit count at 65535. With the
    record pointer of the sample registry and a null handle the call
    aborts. *)
Lemma unregister_dynamic_twice_counts_twice :
  (∃ s',
     (r <- stats_register_dynamic_counter 3 259 None (Some "10.0.0.1"%string)
             SC_TYPE_PROCESSED ;;
      stats_unregister_dynamic_counter r.1.1 SC_TYPE_PROCESSED r.1.2 ;;;
      stats_unregister_dynamic_counter r.1.1 SC_TYPE_PROCESSED r.1.2)
       demo_level3 = Ok (tt, s') ∧
     ref_cnt (record_at s' (key_for 259 None (Some "10.0.0.1"%string))) = 65535) ∧
  stats_unregister_dynamic_counter (Some 1%positive) SC_TYPE_PROCESSED None
    (set_stats_locked true demo_registry) = AssertFail.
Proof.
  split; [|vm_compute; reflexivity].
  eexists. split; vm_compute; reflexivity.
Qed.

(** X20: [stats_unregister_dynamic_counter] clears neither the record
    pointer, which it gets by value, nor the handle: repeated with the same
    arguments it takes a second reference off the record. *)
Lemma unregister_dynamic_repeated a t s sc :
  stats_locked s = true → heap s !! a = Some sc → is_live sc t = true →
  (stats_unregister_dynamic_counter (Some a) t (Some (a, t)) ;;;
   stats_unregister_dynamic_counter (Some a) t (Some (a, t))) s =
    Ok (tt, set_heap (insert a (set_ref_cnt (λ n, decr (decr n)) sc)) s).
Proof.
  intros Hlk Ha Hlive. unfold bind.
  rewrite stats_unregister_dynamic_counter_run by done.
  rewrite Ha, Hlive, item_ptr_eqb_refl. simpl.
  rewrite stats_unregister_dynamic_counter_run by done.
  simpl. rewrite lookup_insert_eq.
  rewrite (is_live_eq _ sc) by reflexivity.
  rewrite Hlive, Pos.eqb_refl, Z.eqb_refl. simpl.
  unfold set_heap. simpl. by rewrite insert_insert_eq.
Qed.

Lemma sound_at_with_record s k a sc : sound_at (with_record s k a sc) k.
Proof.
  intros a' Ha. simpl in Ha. rewrite lookup_insert_eq in Ha.
  injection Ha as <-. simpl. rewrite lookup_insert_eq. eauto.
Qed.

(** ** Orphaned records come back into use *)

(** C10: when a registration finds a record whose reference count is 0,
    [stats_add_counter] reports [new = TRUE] although it allocates nothing,
    and the dynamic registration passes that on to its caller; for the
    static and the dynamic registration alike the table and the set of
    allocated records stay as they were, the record keeps its counter
    values and the bits of its live mask, and its reference count
    becomes 1. *)
Theorem register_orphaned_reports_new lvl src i ins t s a sc :
  stats_locked s = true → lvl ≤ current_stats_level s →
  counter_hash s !! key_for src i ins = Some a → heap s !! a = Some sc →
  ref_cnt sc = 0 →
  (∃ s' sc', stats_add_counter lvl src i ins s = Ok (Some (a, true), s') ∧
     revived s s' a sc sc') ∧
  (∃ s' sc', stats_register_counter lvl src i ins t s = Ok (Some (a, t), s') ∧
     revived s s' a sc sc') ∧
  (∃ s' sc', stats_register_dynamic_counter lvl src i ins t s =
               Ok (Some a, Some (a, t), Some true, s') ∧
     revived s s' a sc sc').
Proof.
  intros Hlk Hl Hk Ha Hr.
  assert (Hs : sound_at s (key_for src i ins)).
  { intros a' Ha'. rewrite Hk in Ha'. injection Ha' as <-. eauto. }
  assert (Hdom : ∀ x, dom (<[a := x]> (heap s)) = dom (heap s)).
  { intros x. apply dom_insert_lookup_L. eauto. }
  assert (Hrev : ∀ sc', counters sc' = counters sc → ref_cnt sc' = 1 →
     (∀ n, 0 ≤ n < 16 → Z.testbit (live_mask sc) n = true →
           Z.testbit (live_mask sc') n = true) →
     revived s (with_record s (key_for src i ins) a sc') a sc sc').
  { intros sc' Hc Hr' Hm. unfold revived. simpl.
    rewrite insert_id by done. rewrite Hdom. done. }
  assert (Hbits : ∀ x n, 0 ≤ n < 16 → Z.testbit (live_mask sc) n = true →
     Z.testbit (guint16 (Z.lor (live_mask sc) x)) n = true).
  { intros x n Hn Hb. rewrite guint16_testbit by done.
    by rewrite Z.lor_spec, Hb. }
  split; [|split].
  - rewrite stats_add_counter_ok by done.
    rewrite (addr_at_present _ _ _ Hk), (record_at_present _ _ _ _ Hk Ha), Hr.
    eexists _, _. split; [reflexivity|]. apply Hrev; simpl; try done.
    by rewrite Hr.
  - rewrite stats_register_counter_ok by done.
    rewrite (addr_at_present _ _ _ Hk), (record_at_present _ _ _ _ Hk Ha).
    eexists _, _. split; [reflexivity|]. apply Hrev; simpl; try done.
    + by rewrite Hr.
    + intros n. apply Hbits.
  - rewrite stats_register_dynamic_counter_run by done.
    rewrite (addr_at_present _ _ _ Hk), (record_at_present _ _ _ _ Hk Ha), Hr.
    simpl. eexists _, _. split; [reflexivity|]. apply Hrev; simpl; try done.
    + by rewrite Hr.
    + intros n. apply Hbits.
Qed.

(** ** Mixing static and dynamic registration *)

(** A dynamic registration that meets a record in use that is not dynamic
    fails its assertion. *)
Lemma dynamic_on_static_asserts lvl src i ins t s a sc :
  stats_locked s = true → lvl ≤ current_stats_level s →
  counter_hash s !! key_for src i ins = Some a → heap s !! a = Some sc →
  dynamic sc = false → ref_cnt sc ≠ 0 →
  stats_register_dynamic_counter lvl src i ins t s = AssertFail.
Proof.
  intros Hlk Hl Hk Ha Hd Hr.
  rewrite stats_register_dynamic_counter_run; [|done|done|].
  - rewrite (record_at_present _ _ _ _ Hk Ha), Hd.
    apply Z.eqb_neq in Hr. by rewrite Hr.
  - intros a' Ha'. rewrite Hk in Ha'. injection Ha' as <-. eauto.
Qed.

(** A static registration of a fresh key followed by a dynamic one of the
    same key: the second call fails its assertion. *)
Lemma dynamic_after_static_asserts lvl1 lvl2 src i ins t1 t2 s h s1 :
  counter_hash s !! key_for src i ins = None →
  stats_register_counter lvl1 src i ins t1 s = Ok (Some h, s1) →
  lvl2 ≤ current_stats_level s →
  stats_register_dynamic_counter lvl2 src i ins t2 s1 = AssertFail.
Proof.
  intros Hk H1 Hl2.
  destruct (stats_register_counter_inv _ _ _ _ _ _ _ _ H1) as (L1 & A1 & S1).
  rewrite stats_register_counter_ok in H1 by done.
  injection H1 as _ <-.
  rewrite record_at_absent by done.
  eapply (dynamic_on_static_asserts _ _ _ _ _ _ (addr_at s (key_for src i ins))).
  - exact L1.
  - exact Hl2.
  - apply with_record_lookup.
  - apply with_record_lookup.
  - reflexivity.
  - discriminate.
Qed.

(** Attaching a counter type to a record that is not dynamic fails the
    assertion of [stats_register_associated_counter]. *)
Lemma associated_on_static_asserts a t s sc :
  stats_locked s = true → heap s !! a = Some sc → dynamic sc = false →
  stats_register_associated_counter (Some a) t s = AssertFail.
Proof.
  intros Hlk Ha Hd.
  erewrite stats_register_associated_counter_run by done. by rewrite Hd.
Qed.

(** X21: the static registration has no assertion on the dynamic flag.
    After a dynamic registration of a key, a static registration of the
    same key that is admitted returns a handle into the same record, which
    stays dynamic and counts one more reference; no assertion fails. *)
Lemma static_after_dynamic_returns lvl1 lvl2 src i ins t1 t2 s a h n s1 :
  stats_register_dynamic_counter lvl1 src i ins t1 s = Ok (Some a, h, n, s1) →
  lvl2 ≤ current_stats_level s →
  ∃ s2 r1 r2,
    stats_register_counter lvl2 src i ins t2 s1 = Ok (Some (a, t2), s2) ∧
    heap s1 !! a = Some r1 ∧ heap s2 !! a = Some r2 ∧
    dynamic r1 = true ∧ dynamic r2 = true ∧
    ref_cnt r2 = guint16 (ref_cnt r1 + 1).
Proof.
  intros H1 Hl2.
  assert (∃ h', h = Some h') as [h' ->].
  { unfold stats_register_dynamic_counter, bind in H1.
    repeat case_match; simplify_eq; try done.
    unfold ret in H1. simplify_eq. eauto. }
  destruct (stats_register_dynamic_counter_inv _ _ _ _ _ _ _ _ _ _ H1)
    as (L1 & A1 & S1).
  rewrite stats_register_dynamic_counter_run in H1 by done.
  destruct (negb _ && negb _) in H1; [done|].
  injection H1 as <- _ _ <-.
  rewrite stats_register_counter_ok; try done.
  - rewrite addr_at_with_record, record_at_with_record, with_record_again.
    eexists _, _, _. split; [reflexivity|].
    split; [apply with_record_lookup|]. split; [apply with_record_lookup|].
    done.
  - apply sound_at_with_record.
Qed.

(** C4, as the code has it: the assertion on mixing sits in the dynamic
    registration alone and spares records that are new or orphaned. An
    admitted dynamic registration that finds the record of its key not
    dynamic and in use, as a static registration leaves it until it is
    unregistered, is a fatal assertion failure. One that finds no record
    or a record without references returns, reports the record as new, and
    leaves it dynamic with one reference and the counter type live.
    Registering an associated counter type on a record that is not dynamic
    is a fatal assertion failure. *)
Theorem mixing_asserts lvl src i ins t t' s :
  let k := key_for src i ins in
  let pre := record_at s k in
  stats_locked s = true → lvl ≤ current_stats_level s → sound_at s k →
  (dynamic pre = false → ref_cnt pre ≠ 0 →
   stats_register_dynamic_counter lvl src i ins t s = AssertFail) ∧
  (ref_cnt pre = 0 →
   ∃ a s' sc',
     stats_register_dynamic_counter lvl src i ins t s =
       Ok (Some a, Some (a, t), Some true, s') ∧
     (∀ a0, counter_hash s !! k = Some a0 → a = a0) ∧
     counter_hash s' !! k = Some a ∧ heap s' !! a = Some sc' ∧
     dynamic sc' = true ∧ ref_cnt sc' = 1 ∧ is_live sc' t = true ∧
     counters sc' = counters pre) ∧
  (∀ a sc, heap s !! a = Some sc → dynamic sc = false →
     stats_register_associated_counter (Some a) t' s = AssertFail).
Proof.
  intros k pre Hlk Hl Hs. split; [|split].
  - intros Hd Hr. rewrite stats_register_dynamic_counter_run by done.
    fold k. fold pre. apply Z.eqb_neq in Hr. by rewrite Hd, Hr.
  - intros Hr. rewrite stats_register_dynamic_counter_run by done.
    fold k. fold pre. rewrite Hr. simpl.
    eexists _, _, _. split; [reflexivity|].
    split; [intros a0 Ha0; by rewrite (addr_at_present _ _ _ Ha0)|].
    split; [apply with_record_lookup|]. split; [apply with_record_lookup|].
    split; [done|]. split; [by simpl; rewrite Hr|].
    split; [apply is_live_mark_live_same|done].
  - intros a sc Ha Hd. by eapply associated_on_static_asserts.
Qed.

(** C4 as stated fails in both orders. A dynamic registration followed by a
    static one of the same key: the static call returns a handle, and the
    one record of the key is dynamic and holds both references. A static
    registration that has been unregistered, followed by a dynamic one of
    the same key: the dynamic call takes the orphaned record over, reports
    it as new and makes it dynamic. No assertion fails in either run. *)
Lemma mixed_registrations_return :
  (∃ s',
     (stats_register_dynamic_counter 3 259 None (Some "10.0.0.1"%string)
        SC_TYPE_PROCESSED ;;;
      stats_register_counter 3 259 None (Some "10.0.0.1"%string) SC_TYPE_DROPPED)
       demo_level3 = Ok (Some (1%positive, SC_TYPE_DROPPED), s') ∧
     dynamic (record_at s' (key_for 259 None (Some "10.0.0.1"%string))) = true ∧
     ref_cnt (record_at s' (key_for 259 None (Some "10.0.0.1"%string))) = 2) ∧
  (∃ s',
     (c <- stats_register_counter 3 257 (Some "s1"%string) None SC_TYPE_PROCESSED ;;
      stats_unregister_counter 257 (Some "s1"%string) None SC_TYPE_PROCESSED c ;;;
      stats_register_dynamic_counter 3 257 (Some "s1"%string) None SC_TYPE_PROCESSED)
       demo_level3
     = Ok (Some 1%positive, Some (1%positive, SC_TYPE_PROCESSED), Some true, s') ∧
     dynamic (record_at s' (key_for 257 (Some "s1"%string) None)) = true).
Proof.
  split; eexists.
  - split; [vm_compute; reflexivity|]. split; vm_compute; reflexivity.
  - split; vm_compute; reflexivity.
Qed.

(** ** The register-and-increment composite *)

(** [live_as r]: the record whose liveness the goal asks about has the
    live mask of [r]. *)
Ltac live_as r := rewrite (is_live_eq _ r) by reflexivity.

Lemma counter_value_eq sc sc' t :
  counters sc = counters sc' → counter_value sc t = counter_value sc' t.
Proof. unfold counter_value. by intros ->. Qed.

Lemma counter_value_set_counter sc t f t' :
  counter_value (set_counter t f sc) t' =
    if type_num t =? type_num t' then f (counter_value sc t)
    else counter_value sc t'.
Proof.
  unfold counter_value, set_counter; simpl.
  destruct (Z.eqb_spec (type_num t) (type_num t')) as [Ht|Ht].
  - apply type_num_inj in Ht. subst. apply vlookup_insert.
  - apply vlookup_insert_ne. intros Hi. apply Ht.
    destruct t, t'; simpl in Hi; congruence.
Qed.

(** [value_as r]: the record whose counter the goal reads has the counters
    of [r]. *)
Ltac value_as r :=
  rewrite (counter_value_eq _ r) by reflexivity;
  rewrite ?counter_value_set_counter; simpl.

(** C5: an admitted call on a well-formed registry with the lock held.
    When the record of the key is absent, dynamic or orphaned the call
    returns; the record of the key is then in the table, its PROCESSED
    counter is one higher than before (1 on a new record), its STAMP
    counter holds the timestamp when that is not negative, as the 32-bit
    signed value the counter keeps of it, which is the timestamp itself
    below 2^31, its reference count is what it was before the call (0 on a
    new record), and the record is dynamic with the counter types it was
    given marked live. When the record of the key is static and in use the
    call aborts on the assertion of the dynamic registration. *)
Theorem register_and_increment_spec lvl src i ins T s :
  let k := key_for src i ins in
  let pre := record_at s k in
  wf s → stats_locked s = true → lvl ≤ current_stats_level s →
  ((dynamic pre = true ∨ ref_cnt pre = 0) →
   ∃ s' a sc,
     stats_register_and_increment_dynamic_counter lvl src i ins T s = Ok (tt, s') ∧
     counter_hash s' !! k = Some a ∧ heap s' !! a = Some sc ∧
     counter_value sc SC_TYPE_PROCESSED = counter_value pre SC_TYPE_PROCESSED + 1 ∧
     (0 ≤ T → counter_value sc SC_TYPE_STAMP = gint T ∧
              is_live sc SC_TYPE_STAMP = true) ∧
     (0 ≤ T < 2147483648 → counter_value sc SC_TYPE_STAMP = T) ∧
     (T < 0 → counter_value sc SC_TYPE_STAMP = counter_value pre SC_TYPE_STAMP) ∧
     ref_cnt sc = ref_cnt pre ∧
     dynamic sc = true ∧ is_live sc SC_TYPE_PROCESSED = true ∧
     (counter_hash s !! k = None →
        ref_cnt sc = 0 ∧ counter_value sc SC_TYPE_PROCESSED = 1)) ∧
  (dynamic pre = false → ref_cnt pre ≠ 0 →
   stats_register_and_increment_dynamic_counter lvl src i ins T s = AssertFail).
Proof.
  intros k pre Hwf Hlk Hl.
  assert (Hs : sound_at s k) by by apply wf_sound.
  assert (Hrange : 0 ≤ ref_cnt pre < 65536).
  { unfold pre, record_at. destruct (counter_hash s !! k) as [a|] eqn:Hk.
    - destruct (wf_live _ Hwf _ _ Hk) as (sc & Hsc & _). rewrite Hsc. simpl.
      by eapply wf_ref.
    - simpl. lia. }
  split.
  2:{ intros Hd Hr. apply Z.eqb_neq in Hr.
      unfold stats_register_and_increment_dynamic_counter.
      unfold bind at 1. rewrite assert_locked_ok by done.
      unfold bind at 1. rewrite stats_register_dynamic_counter_run by done.
      fold k. fold pre. by rewrite Hd, Hr. }
  intros Hpre.
  unfold stats_register_and_increment_dynamic_counter.
  unfold bind at 1. rewrite assert_locked_ok by done.
  unfold bind at 1. rewrite stats_register_dynamic_counter_run by done.
  fold k. fold pre.
  replace (negb (ref_cnt pre =? 0) && negb (dynamic pre)) with false.
  2:{ destruct Hpre as [-> | ->]; [by rewrite andb_false_r | done]. }
  set (a := addr_at s k).
  unfold bind at 1. unfold stats_counter_inc. rewrite update_with_record.
  assert (Hfinal : ∀ r, is_live r SC_TYPE_PROCESSED = true →
    stats_unregister_dynamic_counter (Some a) SC_TYPE_PROCESSED
      (Some (a, SC_TYPE_PROCESSED)) (with_record s k a r)
    = Ok (tt, with_record s k a (set_ref_cnt decr r))).
  { intros r Hr. rewrite stats_unregister_dynamic_counter_run by done.
    rewrite (proj2 (with_record_lookup _ _ _ _)), Hr.
    rewrite item_ptr_eqb_refl. simpl.
    by rewrite set_heap_with_record. }
  destruct (Z.leb_spec 0 T) as [HT|HT].
  - unfold bind at 1. unfold bind at 1.
    erewrite stats_register_associated_counter_run
      by (try done; apply with_record_lookup).
    simpl dynamic. cbv iota. rewrite set_heap_with_record.
    unfold bind at 1. unfold stats_counter_set. rewrite update_with_record.
    rewrite stats_unregister_dynamic_counter_run by done.
    rewrite (proj2 (with_record_lookup _ _ _ _)).
    replace (is_live _ SC_TYPE_STAMP) with true.
    2:{ symmetry. live_as (mark_live SC_TYPE_STAMP (mark_live SC_TYPE_PROCESSED pre)).
        apply is_live_mark_live_same. }
    rewrite item_ptr_eqb_refl. cbv iota beta. simpl andb. cbv iota.
    rewrite set_heap_with_record. rewrite Hfinal.
    2:{ live_as (mark_live SC_TYPE_STAMP (mark_live SC_TYPE_PROCESSED pre)).
        rewrite is_live_mark_live, is_live_mark_live_same. done. }
    eexists _, a, _. split; [reflexivity|].
    split; [apply with_record_lookup|]. split; [apply with_record_lookup|].
    assert (Hrc : decr (decr (incr (incr (ref_cnt pre)))) = ref_cnt pre).
    { rewrite decr_incr by apply guint16_range. by apply decr_incr. }
    split.
    { value_as (set_counter SC_TYPE_STAMP (λ _, gint T)
                  (set_counter SC_TYPE_PROCESSED (λ v, v + 1) pre)). done. }
    split.
    { intros _. split.
      { value_as (set_counter SC_TYPE_STAMP (λ _, gint T)
                    (set_counter SC_TYPE_PROCESSED (λ v, v + 1) pre)). done. }
      live_as (mark_live SC_TYPE_STAMP (mark_live SC_TYPE_PROCESSED pre)).
      apply is_live_mark_live_same. }
    split.
    { intros HT'.
      value_as (set_counter SC_TYPE_STAMP (λ _, gint T)
                  (set_counter SC_TYPE_PROCESSED (λ v, v + 1) pre)).
      by apply gint_small. }
    split; [lia|]. split; [exact Hrc|]. split; [done|]. split.
    { live_as (mark_live SC_TYPE_STAMP (mark_live SC_TYPE_PROCESSED pre)).
      rewrite is_live_mark_live, is_live_mark_live_same. done. }
    intros Hk. split.
    + simpl ref_cnt. rewrite Hrc. unfold pre. by rewrite record_at_absent.
    + value_as (set_counter SC_TYPE_STAMP (λ _, gint T)
                  (set_counter SC_TYPE_PROCESSED (λ v, v + 1) pre)).
      unfold pre. by rewrite record_at_absent.
  - unfold bind at 1. unfold ret at 1. rewrite Hfinal.
    2:{ live_as (mark_live SC_TYPE_PROCESSED pre).
        apply is_live_mark_live_same. }
    eexists _, a, _. split; [reflexivity|].
    split; [apply with_record_lookup|]. split; [apply with_record_lookup|].
    assert (Hrc : decr (incr (ref_cnt pre)) = ref_cnt pre) by by apply decr_incr.
    split.
    { value_as (set_counter SC_TYPE_PROCESSED (λ v, v + 1) pre). done. }
    split; [lia|]. split; [lia|]. split.
    { intros _. value_as (set_counter SC_TYPE_PROCESSED (λ v, v + 1) pre). done. }
    split; [exact Hrc|].
    split; [done|]. split.
    { live_as (mark_live SC_TYPE_PROCESSED pre).
      apply is_live_mark_live_same. }
    intros Hk. split.
    + simpl ref_cnt. rewrite Hrc. unfold pre. by rewrite record_at_absent.
    + value_as (set_counter SC_TYPE_PROCESSED (λ v, v + 1) pre).
      unfold pre. by rewrite record_at_absent.
Qed.


(** C5 as stated fails on two counts. An admitted call on the static
    record of the sample registry, which is in use, aborts. And a call with
    the timestamp 2^31 + 50 on an empty registry returns with a STAMP
    counter that holds -2147483598, what a 32-bit signed counter keeps of
    that timestamp. *)
Lemma register_and_increment_not_every_call :
  stats_register_and_increment_dynamic_counter 1 257 (Some "s1"%string) None
    1000 (set_stats_locked true demo_registry) = AssertFail ∧
  stats_register_and_increment_dynamic_counter 3 259 None
    (Some "10.0.0.9"%string) 2147483698 demo_level3 =
    Ok (tt, final_state
              (stats_register_and_increment_dynamic_counter 3 259 None
                 (Some "10.0.0.9"%string) 2147483698) demo_level3) ∧
  counter_value
    (record_at
       (final_state
          (stats_register_and_increment_dynamic_counter 3 259 None
             (Some "10.0.0.9"%string) 2147483698) demo_level3)
       (key_for 259 None (Some "10.0.0.9"%string))) SC_TYPE_STAMP
    = -2147483598.
Proof. split; [|split]; vm_compute; reflexivity. Qed.

(** X22: the composite below the required level: every step is a no-op on
    the null pointers that the registration returns. *)
Lemma register_and_increment_rejected lvl src i ins T s :
  stats_locked s = true → current_stats_level s < lvl →
  stats_register_and_increment_dynamic_counter lvl src i ins T s = Ok (tt, s).
Proof.
  intros Hlk Hl. unfold stats_register_and_increment_dynamic_counter.
  unfold bind at 1. rewrite assert_locked_ok by done.
  unfold bind at 1.
  assert (Hreg : stats_register_dynamic_counter lvl src i ins SC_TYPE_PROCESSED s
                 = Ok (None, None, None, s)).
  { unfold stats_register_dynamic_counter. unfold bind at 1.
    rewrite assert_locked_ok by done. unfold bind, g_assert. simpl.
    by rewrite stats_add_counter_rejected by done. }
  rewrite Hreg. unfold bind, stats_counter_inc, ret.
  destruct (0 <=? T);
    unfold stats_register_associated_counter, stats_unregister_dynamic_counter,
      stats_counter_set, bind, ret;
    by rewrite ?assert_locked_ok by done.
Qed.

(** X23: the composite on a key whose record is not dynamic and in use:
    the dynamic registration inside it fails its assertion. *)
Lemma register_and_increment_on_static_asserts lvl src i ins T s a sc :
  stats_locked s = true → lvl ≤ current_stats_level s →
  counter_hash s !! key_for src i ins = Some a → heap s !! a = Some sc →
  dynamic sc = false → ref_cnt sc ≠ 0 →
  stats_register_and_increment_dynamic_counter lvl src i ins T s = AssertFail.
Proof.
  intros Hlk Hl Hk Ha Hd Hr.
  unfold stats_register_and_increment_dynamic_counter.
  unfold bind at 1. rewrite assert_locked_ok by done.
  unfold bind at 1. by erewrite dynamic_on_static_asserts.
Qed.

(** ** Reference counting over a life cycle *)






Lemma present_with_record s k a sc : present (with_record s k a sc) k.
Proof. exists a, sc. apply with_record_lookup. Qed.

Lemma present_sound s k : present s k → sound_at s k.
Proof. intros (a & sc & Ha & Hsc) a' Ha'. rewrite Ha in Ha'. simplify_eq. eauto. Qed.

Lemma addr_at_absent_fresh s k :
  counter_hash s !! k = None → heap s !! addr_at s k = None.
Proof.
  intros Hk. unfold addr_at. rewrite Hk. simpl.
  apply not_elem_of_dom. apply is_fresh.
Qed.

(** One call of the life cycle that returns: the record of the key is in
    the table afterwards, at the address it had or was to get, with its
    16-bit reference count moved by one; no other key is touched. *)
Lemma lifecycle_call_ref_cnt lvl src i ins t op s s' :
  let k := key_for src i ins in
  stats_locked s = true → lvl ≤ current_stats_level s → sound_at s k →
  targets (addr_at s k) op →
  lifecycle_call lvl src i ins t op s = Ok (tt, s') →
  stats_locked s' = true ∧ current_stats_level s' = current_stats_level s ∧
  present s' k ∧ addr_at s' k = addr_at s k ∧
  ref_cnt (record_at s' k) = guint16 (ref_cnt (record_at s k) + delta op) ∧
  (∀ k', k' ≠ k → counter_hash s' !! k' = counter_hash s !! k').
Proof.
  intros k Hlk Hl Hs Ht Hrun.
  assert (Hnew : ∀ x, with_record s k (addr_at s k) x = s' →
            ref_cnt x = guint16 (ref_cnt (record_at s k) + 1) →
            stats_locked s' = true ∧
            current_stats_level s' = current_stats_level s ∧
            present s' k ∧ addr_at s' k = addr_at s k ∧
            ref_cnt (record_at s' k) = guint16 (ref_cnt (record_at s k) + 1) ∧
            (∀ k', k' ≠ k → counter_hash s' !! k' = counter_hash s !! k')).
  { intros x <- Hx. split; [done|]. split; [done|].
    split; [apply present_with_record|].
    split; [apply addr_at_with_record|].
    split; [by rewrite record_at_with_record|].
    intros k' Hk'. simpl. by rewrite lookup_insert_ne. }
  assert (Hupd : ∀ a r x, counter_hash s !! k = Some a → heap s !! a = Some r →
            set_heap (insert a x) s = s' →
            ref_cnt x = guint16 (ref_cnt r + delta op) →
            stats_locked s' = true ∧
            current_stats_level s' = current_stats_level s ∧
            present s' k ∧ addr_at s' k = addr_at s k ∧
            ref_cnt (record_at s' k) = guint16 (ref_cnt (record_at s k) + delta op) ∧
            (∀ k', k' ≠ k → counter_hash s' !! k' = counter_hash s !! k')).
  { intros a r x Hk Ha <- Hx. split; [done|]. split; [done|].
    split; [exists a, x; simpl; by rewrite lookup_insert_eq|].
    split; [unfold addr_at; simpl; by rewrite Hk|]. split; [|done].
    rewrite (record_at_present _ _ _ _ Hk Ha).
    unfold record_at. simpl. by rewrite Hk, lookup_insert_eq. }
  destruct op as [| |sc|h|sc h]; simpl in Hrun, Ht; unfold bind in Hrun.
  - rewrite stats_register_counter_ok in Hrun by done. fold k in Hrun.
    injection Hrun as Hrun. by eapply Hnew.
  - rewrite stats_register_dynamic_counter_run in Hrun by done. fold k in Hrun.
    destruct (negb _ && negb _) in Hrun; [done|].
    injection Hrun as Hrun. by eapply Hnew.
  - subst sc. destruct (counter_hash s !! k) as [a|] eqn:Hk.
    2:{ unfold stats_register_associated_counter, bind in Hrun.
        rewrite assert_locked_ok in Hrun by done. unfold deref in Hrun.
        by rewrite addr_at_absent_fresh in Hrun. }
    rewrite (addr_at_present _ _ _ Hk) in Hrun.
    destruct (Hs a Hk) as [r Ha].
    erewrite stats_register_associated_counter_run in Hrun by done.
    destruct (dynamic r); [|done]. injection Hrun as Hrun.
    by eapply Hupd.
  - rewrite stats_unregister_counter_run in Hrun by done. fold k in Hrun.
    destruct (counter_hash s !! k) as [a|] eqn:Hk; [|done].
    destruct (heap s !! a) as [r|] eqn:Ha; [|done].
    destruct (is_live r t && item_ptr_eqb (Some (a, t)) (Some h)); [|done].
    injection Hrun as Hrun. by eapply Hupd.
  - subst sc. destruct (counter_hash s !! k) as [a|] eqn:Hk.
    2:{ rewrite stats_unregister_dynamic_counter_run in Hrun by done.
        by rewrite addr_at_absent_fresh in Hrun. }
    rewrite (addr_at_present _ _ _ Hk) in Hrun.
    rewrite stats_unregister_dynamic_counter_run in Hrun by done.
    destruct (heap s !! a) as [r|] eqn:Ha; [|done].
    destruct (is_live r t && item_ptr_eqb (Some (a, t)) h); [|done].
    injection Hrun as Hrun. by eapply Hupd.
Qed.

(** A run of registrations and unregistrations of one key that returns
    leaves the record in the table, deletes no table entry, and moves the
    16-bit reference count by the number of registrations minus the number
    of unregistrations. *)
Lemma run_lifecycle_ref_cnt lvl src i ins t ops :
  let k := key_for src i ins in
  ∀ s s',
    stats_locked s = true → lvl ≤ current_stats_level s → sound_at s k →
    0 ≤ ref_cnt (record_at s k) < 65536 →
    Forall (targets (addr_at s k)) ops →
    run_lifecycle lvl src i ins t ops s = Ok (tt, s') →
    ref_cnt (record_at s' k) =
      guint16 (ref_cnt (record_at s k) + count_register ops - count_unregister ops) ∧
    (present s k ∨ ops ≠ [] → present s' k) ∧
    (∀ k', is_Some (counter_hash s !! k') → is_Some (counter_hash s' !! k')) ∧
    (∀ k', k' ≠ k → counter_hash s' !! k' = counter_hash s !! k').
Proof.
  intros k. induction ops as [|op ops IH]; intros s s' Hlk Hl Hs Hrg Ht Hrun.
  - injection Hrun as <-. simpl. split.
    + rewrite Z.add_0_r, Z.sub_0_r. symmetry. by apply guint16_small.
    + split; [|done]. intros [H|H]; done.
  - apply Forall_cons in Ht as [Hop Ht].
    simpl in Hrun. unfold bind in Hrun.
    destruct (lifecycle_call lvl src i ins t op s) as [[[] s1]| |] eqn:Hcall;
      try done.
    apply lifecycle_call_ref_cnt in Hcall
      as (Hlk1 & Hl1 & Hp1 & Ha1 & Hr1 & Ho1); try done.
    fold k in Hp1, Ha1, Hr1, Ho1.
    apply IH in Hrun as (Hr & Hp & Hm & Ho).
    + split; [|split; [|split]].
      * rewrite Hr, Hr1, <- Z.add_sub_assoc, guint16_add. f_equal. simpl.
        destruct op; simpl; lia.
      * intros _. apply Hp. by left.
      * intros k' Hk'. apply Hm. destruct (decide (k' = k)) as [->|Hne].
        -- destruct Hp1 as (a & sc & -> & _). eauto.
        -- by rewrite Ho1.
      * intros k' Hk'. rewrite Ho by done. by apply Ho1.
    + done.
    + lia.
    + by apply present_sound.
    + rewrite Hr1. apply guint16_range.
    + by rewrite Ha1.
Qed.

(** C2, as the code has it: the reference count is a 16-bit field. Take a
    key that has no record and a run of N registrations (static, dynamic or
    through the record pointer) and M unregistrations (by key or through
    the record pointer) of it, in any order, that returns; the calls
    through the record pointer use the pointer that the registrations of
    the key return. Then the record is in the table whatever the count has
    become, no table entry has been removed, and the count is N - M modulo
    65536; it is N - M itself when that lies between 0 and 65535. *)
Theorem ref_cnt_after_lifecycle lvl src i ins t ops s s' :
  let k := key_for src i ins in
  let N := count_register ops in
  let M := count_unregister ops in
  stats_locked s = true → lvl ≤ current_stats_level s →
  counter_hash s !! k = None →
  Forall (targets (addr_at s k)) ops →
  run_lifecycle lvl src i ins t ops s = Ok (tt, s') → ops ≠ [] →
  ∃ a sc,
    counter_hash s' !! k = Some a ∧ heap s' !! a = Some sc ∧
    ref_cnt sc = (N - M) mod 65536 ∧
    (0 ≤ N - M < 65536 → ref_cnt sc = N - M) ∧
    (∀ k', is_Some (counter_hash s !! k') → is_Some (counter_hash s' !! k')).
Proof.
  intros k N M Hlk Hl Hk Ht Hrun Hne.
  destruct (run_lifecycle_ref_cnt lvl src i ins t ops s s') as (Hr & Hp & Hm & _);
    try done.
  { intros a Ha. fold k in Ha. congruence. }
  { fold k. rewrite record_at_absent by done. simpl. lia. }
  fold k in Hr, Hp. rewrite (record_at_absent s) in Hr by done. simpl in Hr.
  destruct Hp as (a & sc & Ha & Hsc); [by right|].
  rewrite (record_at_present _ _ _ _ Ha Hsc) in Hr.
  exists a, sc. repeat split; try done.
  intros Hrange. rewrite Hr. by apply guint16_small.
Qed.

Lemma run_lifecycle_registers_ok lvl src i ins t n :
  ∀ s, stats_locked s = true → lvl ≤ current_stats_level s →
       sound_at s (key_for src i ins) →
       ∃ s', run_lifecycle lvl src i ins t (replicate n Register) s = Ok (tt, s').
Proof.
  induction n as [|n IH]; intros s Hlk Hl Hs; simpl.
  - by eexists.
  - unfold bind. rewrite stats_register_counter_ok by done.
    unfold ret. apply IH; try done. apply sound_at_with_record.
Qed.

Lemma count_replicate_register n :
  count_register (replicate n Register) = Z.of_nat n ∧
  count_unregister (replicate n Register) = 0.
Proof. induction n as [|n [IH1 IH2]]; simpl; [done|]. split; lia. Qed.

(** C2 as stated fails when the count passes 65535: 65536 registrations of
    one key, none unregistered, leave the reference count at 0. *)
Lemma ref_cnt_wraps_at_65536 :
  let ops := replicate (Z.to_nat 65536) Register in
  ∃ s' a sc,
    run_lifecycle 0 0 None None SC_TYPE_PROCESSED ops
      (set_stats_locked true stats_init) = Ok (tt, s') ∧
    counter_hash s' !! key_for 0 None None = Some a ∧
    heap s' !! a = Some sc ∧
    count_register ops - count_unregister ops = 65536 ∧
    ref_cnt sc = 0.
Proof.
  intros ops. unfold ops. clear ops.
  assert (Hn : Z.of_nat (Z.to_nat 65536) = 65536) by lia.
  revert Hn. generalize (Z.to_nat 65536). intros n Hn.
  set (s0 := set_stats_locked true stats_init).
  assert (Hk : counter_hash s0 !! key_for 0 None None = None)
    by apply lookup_empty.
  assert (Hs : sound_at s0 (key_for 0 None None)).
  { intros a Ha. congruence. }
  assert (Hl : 0 ≤ current_stats_level s0) by (simpl; lia).
  destruct (run_lifecycle_registers_ok 0 0 None None SC_TYPE_PROCESSED n s0
              eq_refl Hl Hs) as [s' Hrun].
  destruct (count_replicate_register n) as [HN HM].
  assert (Hrg : 0 ≤ ref_cnt (record_at s0 (key_for 0 None None)) < 65536).
  { rewrite record_at_absent by done. simpl. lia. }
  assert (Ht : Forall (targets (addr_at s0 (key_for 0 None None)))
                 (replicate n Register)).
  { apply Forall_replicate. exact I. }
  destruct (run_lifecycle_ref_cnt 0 0 None None SC_TYPE_PROCESSED _ s0 s'
              eq_refl Hl Hs Hrg Ht Hrun) as (Hr & Hp & _).
  rewrite (record_at_absent s0) in Hr by done.
  destruct Hp as (a & sc & Ha & Hsc).
  { right. destruct n; [simpl in Hn; lia | done]. }
  rewrite (record_at_present _ _ _ _ Ha Hsc), HN, HM, Hn in Hr.
  exists s', a, sc.
  split; [exact Hrun|]. split; [exact Ha|]. split; [exact Hsc|].
  split; [rewrite HN, HM, Hn; reflexivity | rewrite Hr; reflexivity].
Qed.


(** ** The pruning sweep *)



Lemma too_old_verdict now lifetime sc acc :
  (stats_counter_is_too_old now lifetime sc acc).1 = too_old now lifetime sc.
Proof.
  unfold too_old, stats_counter_is_too_old. destruct acc as [o d].
  repeat case_match; done.
Qed.

Lemma too_old_spec now lifetime sc :
  0 ≤ ref_cnt sc →
  too_old now lifetime sc = true ↔
    dynamic sc = true ∧ ref_cnt sc = 0 ∧
    Z.testbit (live_mask sc) (type_num SC_TYPE_STAMP) = true ∧
    counter_value sc SC_TYPE_STAMP ≤ now - lifetime.
Proof.
  intros Hr. unfold too_old, stats_counter_is_too_old.
  rewrite land_bit_eq0 by apply type_num_range.
  destruct (Z.testbit (live_mask sc) (type_num SC_TYPE_STAMP)) eqn:Hb.
  - destruct (dynamic sc); simpl.
    2:{ split; [discriminate | intros (? & _); discriminate]. }
    destruct (Z.ltb_spec 0 (ref_cnt sc)); simpl.
    { split; [discriminate | intros (_ & ? & _); lia]. }
    destruct (Z.leb_spec (counter_value sc SC_TYPE_STAMP) (now - lifetime)); simpl.
    + split; [|done]. intros _. repeat split; [lia|done].
    + split; [discriminate|]. intros (_ & _ & _ & ?). lia.
  - split; [|intros (_ & _ & ? & _); discriminate].
    destruct (dynamic sc), (0 <? ref_cnt sc); simpl; discriminate.
Qed.

Lemma elem_of_doomed p hp l k a :
  (k, a) ∈ doomed p hp l ↔
  (k, a) ∈ l ∧ ∃ sc, hp !! a = Some sc ∧ p sc = true.
Proof.
  induction l as [|[k' a'] l IH]; simpl.
  - rewrite elem_of_nil. tauto.
  - assert (Hhead : from_option p false (hp !! a') = true ↔
                    ∃ sc, hp !! a' = Some sc ∧ p sc = true).
    { destruct (hp !! a') as [sc'|]; simpl; split.
      - eauto.
      - intros (sc & [= <-] & Hp). done.
      - discriminate.
      - intros (sc & [=] & _). }
    destruct (from_option p false (hp !! a')) eqn:Hp.
    + rewrite !elem_of_cons, IH. split.
      * intros [[= -> ->]|[Hin Hsc]]; [|tauto].
        split; [by left|]. by apply Hhead.
      * intros [[Heq|Hin] Hsc]; [by left | right; tauto].
    + rewrite elem_of_cons, IH. split; [tauto|].
      intros [[[= -> ->]|Hin] Hsc]; [|tauto].
      apply Hhead in Hsc. discriminate.
Qed.

Lemma doomed_delete p hp l a :
  a ∉ l.*2 → doomed p (delete a hp) l = doomed p hp l.
Proof.
  induction l as [|[k' a'] l IH]; simpl; [done|].
  rewrite not_elem_of_cons. intros [Hne Hl].
  rewrite lookup_delete_ne by done. rewrite IH by done. done.
Qed.

Lemma foldr_delete_delete {K A} `{Countable K} (m : gmap K A) js j :
  foldr delete (delete j m) js = delete j (foldr delete m js).
Proof.
  induction js as [|j' js IH]; simpl; [done|].
  by rewrite IH, delete_delete.
Qed.

(** The sweep returns, and removes from the table and from the store
    exactly the entries that the callback accepts. *)
Lemma foreach_remove_run {U} (f : StatsCounter → U → bool * U)
  (p : StatsCounter → bool) :
  (∀ sc u, (f sc u).1 = p sc) →
  ∀ l s u,
    NoDup l.*2 → (∀ k a, (k, a) ∈ l → is_Some (heap s !! a)) →
    ∃ u', foreach_remove f l u s =
      Ok (u', mkStats (foldr delete (counter_hash s) (doomed p (heap s) l).*1)
                      (foldr delete (heap s) (doomed p (heap s) l).*2)
                      (current_stats_level s) (stats_locked s)).
Proof.
  intros Hf. induction l as [|[k a] l IH]; intros s u Hnd Hlive.
  - exists u. simpl. unfold ret. by destruct s.
  - simpl in Hnd. apply NoDup_cons in Hnd as [Ha Hnd].
    destruct (Hlive k a) as [sc Hsc]; [by left|].
    simpl. unfold bind at 1. unfold deref. rewrite Hsc. simpl.
    specialize (Hf sc u). destruct (f sc u) as [b u1]. simpl in Hf. subst b.
    destruct (p sc) eqn:Hp.
    + unfold bind, modify, stats_counter_free. simpl.
      edestruct (IH (set_heap (delete a) (set_counter_hash (delete k) s)) u1)
        as [u' Hrun]; [done| |].
      { intros k' a' Hin. simpl. rewrite lookup_delete_ne; [by eapply Hlive; right|].
        intros ->. apply Ha. apply list_elem_of_fmap. by exists (k', a'). }
      exists u'. unfold modify in Hrun. rewrite Hrun. simpl.
      rewrite doomed_delete by done. by rewrite !foldr_delete_delete.
    + unfold bind, ret. simpl.
      edestruct (IH s u1) as [u' Hrun]; [done| |].
      { intros k' a' Hin. eapply Hlive. by right. }
      exists u'. by rewrite Hrun.
Qed.

(** In a well-formed registry distinct table entries point to distinct
    records. *)
Lemma wf_NoDup_addrs s : wf s → NoDup (map_to_list (counter_hash s)).*2.
Proof.
  intros Hwf. apply NoDup_fmap_2_strong; [|apply NoDup_map_to_list].
  intros [k1 a1] [k2 a2] H1%elem_of_map_to_list H2%elem_of_map_to_list Ha.
  simpl in Ha. subst a2.
  destruct (wf_live _ Hwf _ _ H1) as (sc1 & Hsc1 & Hk1).
  destruct (wf_live _ Hwf _ _ H2) as (sc2 & Hsc2 & Hk2).
  congruence.
Qed.

(** C1: on a well-formed registry the sweep returns, and it removes the
    record of a key if and only if the record is dynamic, its reference
    count is 0, the STAMP bit of its live mask is set and its STAMP value is
    at most [now - lifetime]. A record it does not remove stays in the table
    at the same address with the same content; in particular a record that
    is not dynamic stays, and so does a record with a positive reference
    count. Keys without a record get none. *)
Theorem prune_removes_iff now lifetime s :
  wf s →
  ∃ r s',
    stats_prune_old_counters now lifetime s = Ok (r, s') ∧
    (∀ k, counter_hash s !! k = None → counter_hash s' !! k = None) ∧
    ∀ k a sc,
      counter_hash s !! k = Some a → heap s !! a = Some sc →
      (counter_hash s' !! k = None ↔
         dynamic sc = true ∧ ref_cnt sc = 0 ∧
         Z.testbit (live_mask sc) (type_num SC_TYPE_STAMP) = true ∧
         counter_value sc SC_TYPE_STAMP ≤ now - lifetime) ∧
      (counter_hash s' !! k = None ∨
         counter_hash s' !! k = Some a ∧ heap s' !! a = Some sc) ∧
      (dynamic sc = false → counter_hash s' !! k = Some a) ∧
      (0 < ref_cnt sc → counter_hash s' !! k = Some a).
Proof.
  intros Hwf.
  set (l := map_to_list (counter_hash s)).
  destruct (foreach_remove_run (stats_counter_is_too_old now lifetime)
              (too_old now lifetime) (too_old_verdict now lifetime)
              l (set_stats_locked true s) (0, 0)) as [r Hrun].
  { by apply wf_NoDup_addrs. }
  { intros k a Hin%elem_of_map_to_list.
    destruct (wf_live _ Hwf _ _ Hin) as (sc & Hsc & _). simpl. eauto. }
  simpl in Hrun. set (d := doomed (too_old now lifetime) (heap s) l) in Hrun.
  exists r. eexists. split.
  { unfold stats_prune_old_counters, bind, stats_lock, modify,
      g_hash_table_foreach_remove, bind, get. simpl. fold l.
    rewrite Hrun. unfold stats_unlock, modify, ret. simpl. reflexivity. }
  simpl. split.
  { intros k Hk. destruct (decide (k ∈ d.*1)).
    - by apply lookup_foldr_delete.
    - by rewrite lookup_foldr_delete_not_elem_of. }
  intros k a sc Hk Ha.
  assert (Hr : 0 ≤ ref_cnt sc) by (by apply (wf_ref _ Hwf) in Ha; lia).
  assert (Hd : k ∈ d.*1 ↔ too_old now lifetime sc = true).
  { rewrite list_elem_of_fmap. split.
    - intros ([k' a'] & -> & Hin). apply elem_of_doomed in Hin as [Hin Hsc].
      apply elem_of_map_to_list in Hin. simpl in *.
      destruct Hsc as (sc' & Hsc' & Hp). congruence.
    - intros Hp. exists (k, a). split; [done|]. apply elem_of_doomed.
      split; [by apply elem_of_map_to_list|]. eauto. }
  assert (Hkeep : too_old now lifetime sc = false →
      foldr delete (counter_hash s) d.*1 !! k = Some a ∧
      foldr delete (heap s) d.*2 !! a = Some sc).
  { intros Hp. split.
    - rewrite lookup_foldr_delete_not_elem_of; [done|].
      rewrite Hd. congruence.
    - rewrite lookup_foldr_delete_not_elem_of; [done|].
      rewrite list_elem_of_fmap. intros ([k' a'] & -> & Hin).
      apply elem_of_doomed in Hin as [Hin (sc' & Hsc' & Hp')].
      simpl in *. congruence. }
  rewrite <- too_old_spec by done.
  destruct (too_old now lifetime sc) eqn:Hp.
  - assert (Hgone : foldr delete (counter_hash s) d.*1 !! k = None).
    { apply lookup_foldr_delete. by apply Hd. }
    apply (too_old_spec now lifetime sc Hr) in Hp as (Hdy & Hrc & _).
    rewrite Hgone. repeat split; try done; [by left|congruence|lia].
  - destruct (Hkeep eq_refl) as [Hk' Ha']. rewrite Hk'.
    repeat split; try done. by right.
Qed.


(** ** The CSV exporter *)



Lemma append_assoc (s1 s2 s3 : string) : (s1 +:+ s2) +:+ s3 = s1 +:+ s2 +:+ s3.
Proof.
  induction s1 as [|c s1 IH]; [reflexivity|].
  change (String c ((s1 +:+ s2) +:+ s3) = String c (s1 +:+ s2 +:+ s3)).
  by rewrite IH.
Qed.

Lemma append_empty_r (s : string) : s +:+ EmptyString = s.
Proof.
  induction s as [|c s IH]; [reflexivity|].
  change (String c (s +:+ EmptyString) = String c s). by rewrite IH.
Qed.

Lemma print_rows_app rows1 rows2 :
  print_rows (rows1 ++ rows2) = print_rows rows1 +:+ print_rows rows2.
Proof.
  induction rows1 as [|r rows1 IH]; simpl; [reflexivity|].
  by rewrite IH, append_assoc.
Qed.

Section CsvExportFacts.

Variable utf8_escape_string : string → Z → string.
Variables SCS_SOURCE SCS_DESTINATION SCS_SOURCE_MASK SCS_GROUP : Z.

Local Abbreviation format_row :=
  (stats_format_csv_row utf8_escape_string SCS_SOURCE SCS_DESTINATION
     SCS_SOURCE_MASK SCS_GROUP).
Local Abbreviation format_loop :=
  (stats_format_csv_loop utf8_escape_string SCS_SOURCE SCS_DESTINATION
     SCS_SOURCE_MASK SCS_GROUP).
Local Abbreviation format_csv :=
  (stats_format_csv utf8_escape_string SCS_SOURCE SCS_DESTINATION
     SCS_SOURCE_MASK SCS_GROUP).

Lemma stats_format_csv_row_state sc s_id s_instance type row :
  format_row sc s_id s_instance type = Ok row →
  State row = csv_state sc ∧ SourceId row = s_id ∧
  SourceInstance row = s_instance ∧ Number row = counter_value sc type.
Proof.
  unfold stats_format_csv_row, obind.
  destruct (csv_source_name _ _ _ _ sc); try done.
  destruct (stats_format_csv_escapevar _ _); try done.
  by intros [= <-].
Qed.

(** The loop over the counter types appends one row per live type. *)
Lemma stats_format_csv_loop_rows sc s_id s_instance types :
  ∀ csv csv',
    format_loop sc s_id s_instance types csv = Ok csv' →
    ∃ rows,
      csv' = csv +:+ print_rows rows ∧
      Forall2 (λ type row, format_row sc s_id s_instance type = Ok row)
        (live_types sc types) rows.
Proof.
  induction types as [|type types IH]; intros csv csv' Hrun; simpl in Hrun.
  - injection Hrun as <-. exists []. split; [|constructor].
    simpl. by rewrite append_empty_r.
  - unfold live_types. simpl. fold (live_types sc types).
    destruct (is_live sc type).
    + unfold obind in Hrun. fold format_row in Hrun.
      destruct (format_row sc s_id s_instance type) as [row| |] eqn:Hrow;
        try done.
      apply IH in Hrun as (rows & -> & Hrows).
      exists (row :: rows). split; [|by constructor].
      simpl. apply append_assoc.
    + by apply IH.
Qed.

(** C7: on the field [;] the escaper asks [g_malloc] for [varlen*2 = 2]
    bytes and then stores four: the opening quote, the character, the
    closing quote and the terminating NUL. The last two stores are outside
    the block, which is where the model stops with a memory fault instead
    of the quoted field; the export of a registry that holds a counter
    with this id meets the same stores. *)
Theorem escapevar_short_field_overflows :
  stats_format_csv_escapevar utf8_escape_string ";" = MemFault ∧
  (stats_lock ;;;
   stats_register_counter 0 1 (Some ";"%string) None SC_TYPE_PROCESSED ;;;
   stats_unlock ;;;
   stats_generate_csv utf8_escape_string SCS_SOURCE SCS_DESTINATION
     SCS_SOURCE_MASK SCS_GROUP) stats_init = MemFault.
Proof. split; vm_compute; reflexivity. Qed.

End CsvExportFacts.

(** ** The field escaper and its block *)

Lemma guint32_small z : 0 ≤ z < 4294967296 → guint32 z = z.
Proof. intros. unfold guint32. by apply Z.mod_small. Qed.

Lemma poke_middle pre x blk c :
  poke (pre ++ x :: blk) (Z.of_nat (length pre)) c = Ok (pre ++ c :: blk).
Proof.
  unfold poke. rewrite length_app. simpl.
  replace (0 <=? Z.of_nat (length pre)) with true
    by (symmetry; apply Z.leb_le; lia).
  replace (Z.of_nat (length pre) <? Z.of_nat (length pre + S (length blk)))
    with true by (symmetry; apply Z.ltb_lt; lia).
  simpl. rewrite Nat2Z.id, insert_app_r_alt by lia.
  by rewrite Nat.sub_diag.
Qed.

Lemma poke_outside blk i c :
  Z.of_nat (length blk) ≤ i → poke blk i c = MemFault.
Proof.
  intros Hi. unfold poke.
  replace (i <? Z.of_nat (length blk)) with false
    by (symmetry; apply Z.ltb_ge; lia).
  by rewrite andb_false_r.
Qed.

Lemma length_quote_chars_ge var : (length var ≤ length (quote_chars var))%nat.
Proof.
  induction var as [|c var IH]; simpl; [done|].
  rewrite length_app. destruct (Ascii.eqb c char_quote); simpl; lia.
Qed.

(** The copying loop when the block has room for all it stores: the
    characters go in, each double quote after a backslash. *)
Lemma escape_loop_fits var :
  ∀ pre blk,
    (length (quote_chars var) ≤ length blk)%nat →
    Z.of_nat (length pre + length (quote_chars var)) < 4294967296 →
    escape_loop var (pre ++ blk) (Z.of_nat (length pre)) =
      Ok (pre ++ quote_chars var ++ drop (length (quote_chars var)) blk,
          Z.of_nat (length pre + length (quote_chars var))).
Proof.
  induction var as [|c var IH]; intros pre blk Hfit Hsmall.
  - simpl. by rewrite drop_0, Nat.add_0_r.
  - simpl in Hfit, Hsmall. rewrite length_app in Hfit, Hsmall.
    simpl escape_loop. simpl quote_chars.
    destruct (Ascii.eqb c char_quote) eqn:Hc; simpl in Hfit, Hsmall.
    + destruct blk as [|x [|y blk]]; simpl in Hfit; try lia.
      rewrite poke_middle. unfold obind.
      rewrite guint32_small by lia.
      replace (Z.of_nat (length pre) + 1)
        with (Z.of_nat (length (pre ++ [char_backslash])))
        by (rewrite length_app; simpl; lia).
      replace (pre ++ char_backslash :: y :: blk)
        with ((pre ++ [char_backslash]) ++ y :: blk)
        by (by rewrite <- app_assoc).
      rewrite poke_middle.
      rewrite guint32_small by (rewrite length_app; simpl; lia).
      replace (Z.of_nat (length (pre ++ [char_backslash])) + 1)
        with (Z.of_nat (length (pre ++ [char_backslash; c])))
        by (rewrite !length_app; simpl; lia).
      replace ((pre ++ [char_backslash]) ++ c :: blk)
        with ((pre ++ [char_backslash; c]) ++ blk)
        by (by rewrite <- !app_assoc).
      rewrite IH.
      * rewrite length_app. simpl. rewrite <- !app_assoc. simpl.
        do 2 f_equal. lia.
      * lia.
      * rewrite length_app. simpl. lia.
    + destruct blk as [|x blk]; simpl in Hfit; try lia.
      unfold obind. rewrite poke_middle.
      rewrite guint32_small by lia.
      replace (Z.of_nat (length pre) + 1)
        with (Z.of_nat (length (pre ++ [c])))
        by (rewrite length_app; simpl; lia).
      replace (pre ++ c :: blk) with ((pre ++ [c]) ++ blk)
        by (by rewrite <- app_assoc).
      rewrite IH.
      * rewrite length_app. simpl. rewrite <- !app_assoc. simpl.
        do 2 f_equal. lia.
      * lia.
      * rewrite length_app. simpl. lia.
Qed.

(** The copying loop when the block is too short for what it stores: one
    of the stores is outside the block. *)
Lemma escape_loop_overflows var :
  ∀ pre blk,
    (length blk < length (quote_chars var))%nat →
    Z.of_nat (length pre + length (quote_chars var)) < 4294967296 →
    escape_loop var (pre ++ blk) (Z.of_nat (length pre)) = MemFault.
Proof.
  induction var as [|c var IH]; intros pre blk Hfit Hsmall.
  - simpl in Hfit. lia.
  - simpl in Hfit, Hsmall. rewrite length_app in Hfit, Hsmall.
    simpl escape_loop.
    assert (Hend : ∀ l ch, poke l (Z.of_nat (length l)) ch = MemFault)
      by (intros; by apply poke_outside).
    destruct (Ascii.eqb c char_quote) eqn:Hc; simpl in Hfit, Hsmall.
    + destruct blk as [|x blk].
      { rewrite app_nil_r, Hend. done. }
      rewrite poke_middle. unfold obind.
      rewrite guint32_small by lia.
      replace (Z.of_nat (length pre) + 1)
        with (Z.of_nat (length (pre ++ [char_backslash])))
        by (rewrite length_app; simpl; lia).
      replace (pre ++ char_backslash :: blk)
        with ((pre ++ [char_backslash]) ++ blk)
        by (by rewrite <- app_assoc).
      destruct blk as [|y blk].
      { rewrite app_nil_r, Hend. done. }
      rewrite poke_middle.
      rewrite guint32_small by (rewrite length_app; simpl; lia).
      replace (Z.of_nat (length (pre ++ [char_backslash])) + 1)
        with (Z.of_nat (length (pre ++ [char_backslash; c])))
        by (rewrite !length_app; simpl; lia).
      replace ((pre ++ [char_backslash]) ++ c :: blk)
        with ((pre ++ [char_backslash; c]) ++ blk)
        by (by rewrite <- !app_assoc).
      apply IH; [simpl in Hfit; lia|]. rewrite length_app. simpl. lia.
    + destruct blk as [|x blk].
      { unfold obind. rewrite app_nil_r, Hend. done. }
      unfold obind. rewrite poke_middle.
      rewrite guint32_small by lia.
      replace (Z.of_nat (length pre) + 1)
        with (Z.of_nat (length (pre ++ [c])))
        by (rewrite length_app; simpl; lia).
      replace (pre ++ c :: blk) with ((pre ++ [c]) ++ blk)
        by (by rewrite <- app_assoc).
      apply IH; [simpl in Hfit; lia|]. rewrite length_app. simpl. lia.
Qed.

Lemma c_str_app l rest :
  Forall (λ c, c ≠ char_nul) l →
  c_str (l ++ char_nul :: rest) = string_of_list_ascii l.
Proof.
  induction 1 as [|c l Hc _ IH]; simpl; [done|].
  apply Ascii.eqb_neq in Hc. rewrite Hc. by rewrite IH.
Qed.

Lemma quote_chars_no_nul var :
  Forall (λ c, c ≠ char_nul) var → Forall (λ c, c ≠ char_nul) (quote_chars var).
Proof.
  induction 1 as [|c var Hc _ IH]; simpl; [constructor|].
  apply Forall_app. split; [|done].
  destruct (Ascii.eqb c char_quote); repeat constructor; done.
Qed.

Lemma length_list_ascii_of_string s :
  length (list_ascii_of_string s) = String.length s.
Proof. induction s as [|c s IH]; simpl; [done|]. by rewrite IH. Qed.

Lemma length_quote_chars_le var : (length (quote_chars var) ≤ 2 * length var)%nat.
Proof.
  induction var as [|c var IH]; simpl; [done|].
  rewrite length_app. destruct (Ascii.eqb c char_quote); simpl; lia.
Qed.

Section EscapevarFacts.

Variable utf8_escape_string : string → Z → string.

(** A field that is empty or holds no special character goes to the
    generic escaping pass as it is. *)
Lemma stats_format_csv_escapevar_plain var :
  Z.of_nat (String.length var) < 4294967296 →
  var = EmptyString ∨ has_csv_special_character var = false →
  stats_format_csv_escapevar utf8_escape_string var =
    Ok (utf8_escape_string var (Z.of_nat (String.length var))).
Proof.
  intros Hlen Hplain. unfold stats_format_csv_escapevar.
  rewrite guint32_small by lia.
  destruct Hplain as [-> | ->]; [done|]. by rewrite andb_false_r.
Qed.

(** X19: a non-empty field with a special character is wrapped in double
    quotes, with a backslash before each of its double quotes, when the
    block of [varlen*2] bytes has room for the [q + 3] bytes stored in it,
    where [q] counts the characters and once more the double quotes;
    otherwise a store falls outside the block. *)
Lemma stats_format_csv_escapevar_special var :
  let n := String.length var in
  let q := length (quote_chars (list_ascii_of_string var)) in
  Z.of_nat n < 2147483648 →
  var ≠ EmptyString →
  has_csv_special_character var = true →
  Forall (λ c, c ≠ char_nul) (list_ascii_of_string var) →
  stats_format_csv_escapevar utf8_escape_string var =
    if decide (q + 3 ≤ 2 * n)%nat
    then Ok (utf8_escape_string (quoted_field var) (Z.of_nat (q + 3)))
    else MemFault.
Proof.
  intros n q Hlen Hne Hspecial Hnul.
  assert (Hn : (1 ≤ n)%nat).
  { unfold n. destruct var; [done|simpl; lia]. }
  assert (Hq : (q ≤ 2 * n)%nat).
  { unfold q, n. rewrite <- length_list_ascii_of_string.
    apply length_quote_chars_le. }
  assert (Hqn : (n ≤ q)%nat).
  { unfold q, n. rewrite <- length_list_ascii_of_string.
    apply length_quote_chars_ge. }
  unfold stats_format_csv_escapevar. fold n.
  rewrite (guint32_small (Z.of_nat n)) by lia.
  replace (Z.of_nat n =? 0) with false by (symmetry; apply Z.eqb_neq; lia).
  rewrite Hspecial. simpl andb. cbv iota.
  rewrite guint32_small by lia.
  replace (Z.to_nat (Z.of_nat n * 2)) with (S (2 * n - 1)) by lia.
  rewrite Nat2Z.id.
  rewrite firstn_all2 by (rewrite length_list_ascii_of_string; fold n; lia).
  set (m := (2 * n - 1)%nat).
  change (replicate (S m) char_nul) with ([] ++ char_nul :: replicate m char_nul).
  change 0 with (Z.of_nat (length (@nil ascii))) at 1.
  rewrite poke_middle. unfold obind at 1. simpl app.
  change (escape_loop ?l (char_quote :: ?b) 1)
    with (escape_loop l ([char_quote] ++ b) (Z.of_nat (length [char_quote]))).
  destruct (decide (q ≤ m)%nat) as [Hfit|Hfit].
  - rewrite escape_loop_fits; fold q.
    2:{ by rewrite length_replicate. }
    2:{ simpl. lia. }
    unfold obind at 1. rewrite drop_replicate.
    destruct (m - q)%nat as [|[|rest]] eqn:Hrest.
    + simpl replicate. rewrite app_nil_r.
      rewrite poke_outside by (rewrite !length_app; fold q; simpl; lia).
      simpl. rewrite decide_False by lia. done.
    + simpl replicate.
      replace ([char_quote] ++ quote_chars (list_ascii_of_string var) ++ [char_nul])
        with (([char_quote] ++ quote_chars (list_ascii_of_string var)) ++ [char_nul])
        by (by rewrite <- app_assoc).
      replace (Z.of_nat (length [char_quote] + q))
        with (Z.of_nat (length ([char_quote] ++ quote_chars (list_ascii_of_string var))))
        by (rewrite length_app; done).
      rewrite poke_middle. unfold obind at 1.
      rewrite poke_outside.
      2:{ rewrite guint32_small; rewrite !length_app; fold q; simpl; lia. }
      simpl. rewrite decide_False by lia. done.
    + simpl replicate.
      replace ([char_quote] ++ quote_chars (list_ascii_of_string var) ++
                 char_nul :: char_nul :: replicate rest char_nul)
        with (([char_quote] ++ quote_chars (list_ascii_of_string var)) ++
                 char_nul :: char_nul :: replicate rest char_nul)
        by (by rewrite <- app_assoc).
      replace (Z.of_nat (length [char_quote] + q))
        with (Z.of_nat (length ([char_quote] ++ quote_chars (list_ascii_of_string var))))
        by (rewrite length_app; done).
      rewrite poke_middle. unfold obind at 1.
      rewrite guint32_small by (rewrite !length_app; fold q; simpl; lia).
      replace (Z.of_nat (length ([char_quote] ++ quote_chars (list_ascii_of_string var))) + 1)
        with (Z.of_nat (length (([char_quote] ++ quote_chars (list_ascii_of_string var))
                                  ++ [char_quote])))
        by (rewrite !length_app; simpl; lia).
      replace (([char_quote] ++ quote_chars (list_ascii_of_string var)) ++
                 char_quote :: char_nul :: replicate rest char_nul)
        with ((([char_quote] ++ quote_chars (list_ascii_of_string var)) ++ [char_quote]) ++
                 char_nul :: replicate rest char_nul)
        by (by rewrite <- !app_assoc).
      rewrite poke_middle. unfold obind.
      rewrite decide_True by lia.
      rewrite c_str_app.
      2:{ apply Forall_app. split; [apply Forall_app; split|].
          - by repeat constructor.
          - by apply quote_chars_no_nul.
          - by repeat constructor. }
      rewrite guint32_small by (rewrite !length_app; fold q; simpl; lia).
      do 2 f_equal; try reflexivity.
      rewrite !length_app. fold q. simpl. lia.
  - rewrite escape_loop_overflows; fold q.
    + simpl. rewrite decide_False by lia. done.
    + rewrite length_replicate. lia.
    + simpl. lia.
Qed.

End EscapevarFacts.

(** ** Well-formedness is an invariant of the interface *)

Lemma preserves_ret {A} (a : A) : preserves_wf (ret a).
Proof. intros s r s' Hwf [= <- <-]. done. Qed.

Lemma preserves_bind {A B} (m : M A) (k : A → M B) :
  preserves_wf m → (∀ a, preserves_wf (k a)) → preserves_wf (bind m k).
Proof.
  intros Hm Hk s r s' Hwf Hrun. unfold bind in Hrun.
  destruct (m s) as [[a s1]| |] eqn:Hms; try done.
  eapply Hk; [|exact Hrun]. by eapply Hm.
Qed.

Lemma preserves_g_assert b : preserves_wf (g_assert b).
Proof. intros s r s' Hwf. unfold g_assert. destruct b; [|done]. by intros [= <- <-]. Qed.

Lemma preserves_assert_locked : preserves_wf assert_locked.
Proof.
  intros s r s' Hwf. unfold assert_locked, bind, get, g_assert.
  destruct (stats_locked s); [|done]. by intros [= <- <-].
Qed.

Lemma preserves_deref a : preserves_wf (deref a).
Proof.
  intros s r s' Hwf. unfold deref. destruct (heap s !! a); [|done].
  by intros [= <- <-].
Qed.

Lemma preserves_set_stats_locked b : preserves_wf (modify (set_stats_locked b)).
Proof. intros s r s' [Hl Hr] [= <- <-]. by split. Qed.

Lemma wf_set_heap s a sc sc' :
  wf s → heap s !! a = Some sc → key_of sc' = key_of sc →
  0 ≤ ref_cnt sc' < 65536 → wf (set_heap (insert a sc') s).
Proof.
  intros Hwf Ha Hkey Hrange. split; simpl.
  - intros k a' Hk. destruct (wf_live _ Hwf _ _ Hk) as (x & Hx & Hkx).
    destruct (decide (a = a')) as [<-|Hne].
    + rewrite lookup_insert_eq. exists sc'. split; [done|]. congruence.
    + rewrite lookup_insert_ne by done. eauto.
  - intros a' x [[<- <-]|[_ Hx]]%lookup_insert_Some; [done|].
    by eapply wf_ref.
Qed.

(** An assignment that leaves the key fields alone and keeps the reference
    count in range keeps the registry well-formed. *)
Lemma preserves_update a f :
  (∀ sc, key_of (f sc) = key_of sc) →
  (∀ sc, 0 ≤ ref_cnt sc < 65536 → 0 ≤ ref_cnt (f sc) < 65536) →
  preserves_wf (update a f).
Proof.
  intros Hkey Hrange s r s' Hwf. unfold update, bind, deref, modify.
  destruct (heap s !! a) as [sc|] eqn:Ha; [|done]. intros [= <- <-].
  eapply wf_set_heap; [done|exact Ha|apply Hkey|].
  apply Hrange. by eapply wf_ref.
Qed.

Lemma key_of_record_at s k : wf s → key_of (record_at s k) = k.
Proof.
  intros Hwf. unfold record_at.
  destruct (counter_hash s !! k) as [a|] eqn:Hk.
  - destruct (wf_live _ Hwf _ _ Hk) as (sc & -> & Hkey). done.
  - by destruct k as [[src i] ins].
Qed.

Lemma ref_cnt_record_at s k : wf s → 0 ≤ ref_cnt (record_at s k) < 65536.
Proof.
  intros Hwf. unfold record_at.
  destruct (counter_hash s !! k) as [a|] eqn:Hk.
  - destruct (wf_live _ Hwf _ _ Hk) as (sc & Hsc & _). rewrite Hsc.
    by eapply wf_ref.
  - simpl. lia.
Qed.

Lemma wf_with_record s k sc :
  wf s → key_of sc = k → 0 ≤ ref_cnt sc < 65536 →
  wf (with_record s k (addr_at s k) sc).
Proof.
  intros Hwf Hkey Hrange. split; simpl.
  - intros k' a' [[<- <-]|[Hne Hk']]%lookup_insert_Some.
    + rewrite lookup_insert_eq. eauto.
    + destruct (wf_live _ Hwf _ _ Hk') as (x & Hx & Hkx).
      rewrite lookup_insert_ne; [eauto|].
      unfold addr_at. destruct (counter_hash s !! k) as [a|] eqn:Hk; simpl.
      * intros <-. destruct (wf_live _ Hwf _ _ Hk) as (y & Hy & Hky).
        congruence.
      * intros <-. apply (is_fresh (dom (heap s))). by eapply elem_of_dom_2.
  - intros a' x [[<- <-]|[_ Hx]]%lookup_insert_Some; [done|].
    by eapply wf_ref.
Qed.

Lemma preserves_stats_add_counter lvl src i ins :
  preserves_wf (stats_add_counter lvl src i ins).
Proof.
  intros s r s' Hwf Hrun.
  destruct (Z.le_gt_cases lvl (current_stats_level s)) as [Hl|Hl].
  - rewrite stats_add_counter_ok in Hrun by (done || by apply wf_sound).
    injection Hrun as _ <-. apply wf_with_record; [done| |].
    + by apply key_of_record_at.
    + apply guint16_range.
  - rewrite stats_add_counter_rejected in Hrun by lia. by injection Hrun as _ <-.
Qed.

Lemma preserves_mark_live a t : preserves_wf (update a (mark_live t)).
Proof. by apply preserves_update. Qed.

Lemma preserves_incr a : preserves_wf (update a (set_ref_cnt (λ n, guint16 (n + 1)))).
Proof. apply preserves_update; [done|]. intros sc _. apply guint16_range. Qed.

Lemma preserves_decr a : preserves_wf (update a (set_ref_cnt (λ n, guint16 (n - 1)))).
Proof. apply preserves_update; [done|]. intros sc _. apply guint16_range. Qed.

Lemma preserves_set_dynamic a b : preserves_wf (update a (set_dynamic b)).
Proof. by apply preserves_update. Qed.

Lemma preserves_stats_counter_inc counter : preserves_wf (stats_counter_inc counter).
Proof.
  destruct counter as [[a t]|]; [by apply preserves_update|apply preserves_ret].
Qed.

Lemma preserves_stats_counter_set counter v :
  preserves_wf (stats_counter_set counter v).
Proof.
  destruct counter as [[a t]|]; [by apply preserves_update|apply preserves_ret].
Qed.

(** [wf_step]: a call built from the steps above keeps the registry
    well-formed. *)
Ltac wf_step :=
  repeat first
    [ apply preserves_ret
    | apply preserves_assert_locked
    | apply preserves_g_assert
    | apply preserves_deref
    | apply preserves_stats_add_counter
    | apply preserves_mark_live
    | apply preserves_incr
    | apply preserves_decr
    | apply preserves_set_dynamic
    | apply preserves_stats_counter_inc
    | apply preserves_stats_counter_set
    | apply preserves_bind; [|intros ?]
    | progress (repeat case_match) ].

Lemma preserves_stats_register_counter lvl src i ins t :
  preserves_wf (stats_register_counter lvl src i ins t).
Proof. unfold stats_register_counter. wf_step. Qed.

Lemma preserves_stats_register_dynamic_counter lvl src i ins t :
  preserves_wf (stats_register_dynamic_counter lvl src i ins t).
Proof.
  unfold stats_register_dynamic_counter. wf_step.
  intros s r s'. done.
Qed.

Lemma preserves_stats_register_associated_counter sc t :
  preserves_wf (stats_register_associated_counter sc t).
Proof. unfold stats_register_associated_counter. wf_step. Qed.

Lemma preserves_stats_unregister_counter src i ins t counter :
  preserves_wf (stats_unregister_counter src i ins t counter).
Proof.
  unfold stats_unregister_counter. wf_step.
  intros s r s' Hwf [= <- <-]. done.
Qed.

Lemma preserves_stats_unregister_dynamic_counter sc t counter :
  preserves_wf (stats_unregister_dynamic_counter sc t counter).
Proof. unfold stats_unregister_dynamic_counter. wf_step. Qed.

Lemma preserves_stats_register_and_increment lvl src i ins T :
  preserves_wf (stats_register_and_increment_dynamic_counter lvl src i ins T).
Proof.
  unfold stats_register_and_increment_dynamic_counter.
  apply preserves_bind; [apply preserves_assert_locked|intros _].
  apply preserves_bind; [apply preserves_stats_register_dynamic_counter|].
  intros [[handle counter] new].
  apply preserves_bind; [apply preserves_stats_counter_inc|intros _].
  apply preserves_bind; [|intros _;
    apply preserves_stats_unregister_dynamic_counter].
  destruct (0 <=? T); [|apply preserves_ret].
  apply preserves_bind; [apply preserves_stats_register_associated_counter|].
  intros stamp.
  apply preserves_bind; [apply preserves_stats_counter_set|intros _].
  apply preserves_stats_unregister_dynamic_counter.
Qed.

Lemma preserves_stats_prune_old_counters now lifetime :
  preserves_wf (stats_prune_old_counters now lifetime).
Proof.
  intros s r s' Hwf Hrun.
  set (l := map_to_list (counter_hash s)).
  destruct (foreach_remove_run (stats_counter_is_too_old now lifetime)
              (too_old now lifetime) (too_old_verdict now lifetime)
              l (set_stats_locked true s) (0, 0)) as [r' Hsweep].
  { by apply wf_NoDup_addrs. }
  { intros k a Hin%elem_of_map_to_list.
    destruct (wf_live _ Hwf _ _ Hin) as (sc & Hsc & _). simpl. eauto. }
  simpl in Hsweep. set (d := doomed (too_old now lifetime) (heap s) l) in Hsweep.
  unfold stats_prune_old_counters, bind, stats_lock, modify,
    g_hash_table_foreach_remove, bind, get in Hrun. simpl in Hrun.
  fold l in Hrun. rewrite Hsweep in Hrun.
  unfold stats_unlock, modify, ret in Hrun. simpl in Hrun.
  injection Hrun as _ <-. split; simpl.
  - intros k a [Hk Ha]%lookup_foldr_delete_Some.
    destruct (wf_live _ Hwf _ _ Ha) as (sc & Hsc & Hkey).
    exists sc. split; [|done].
    rewrite lookup_foldr_delete_not_elem_of; [done|].
    rewrite list_elem_of_fmap. intros ([k' a'] & Heq & Hin). simpl in Heq.
    subst a'. apply Hk. rewrite list_elem_of_fmap. exists (k', a).
    split; [|done]. simpl.
    apply elem_of_doomed in Hin as [Hin%elem_of_map_to_list _].
    destruct (wf_live _ Hwf _ _ Hin) as (sc' & Hsc' & Hkey'). congruence.
  - intros a sc [_ Ha]%lookup_foldr_delete_Some. by eapply wf_ref.
Qed.

(** ** The interface as a whole *)

Lemma preserves_stats_lock : preserves_wf stats_lock.
Proof. apply preserves_set_stats_locked. Qed.

Lemma preserves_stats_unlock : preserves_wf stats_unlock.
Proof. apply preserves_set_stats_locked. Qed.

Lemma preserves_run_call c : preserves_wf (run_call c).
Proof.
  destruct c; simpl.
  - apply preserves_stats_lock.
  - apply preserves_stats_unlock.
  - apply preserves_bind; [apply preserves_stats_register_counter|].
    intros; apply preserves_ret.
  - apply preserves_bind; [apply preserves_stats_register_dynamic_counter|].
    intros; apply preserves_ret.
  - apply preserves_bind; [apply preserves_stats_register_associated_counter|].
    intros; apply preserves_ret.
  - apply preserves_bind; [apply preserves_stats_unregister_counter|].
    intros; apply preserves_ret.
  - apply preserves_stats_unregister_dynamic_counter.
  - apply preserves_stats_register_and_increment.
  - apply preserves_bind; [apply preserves_stats_prune_old_counters|].
    intros; apply preserves_ret.
  - apply preserves_stats_counter_inc.
  - apply preserves_stats_counter_set.
Qed.

(** X1: every sequence of interface calls, with whatever arguments and
    handles, that runs to its end from a well-formed registry leaves a
    well-formed registry: each table entry points to an allocated record
    that carries the entry's key, and each reference count is a 16-bit
    value. *)
Theorem interface_keeps_wf cs s s' :
  wf s → run_calls cs s = Ok (tt, s') → wf s'.
Proof.
  revert s. induction cs as [|c cs IH]; intros s Hwf Hrun.
  - by inversion Hrun; subst.
  - simpl in Hrun. unfold bind in Hrun.
    destruct (run_call c s) as [[[] s1]| |] eqn:Hc; try discriminate.
    eapply IH; [|exact Hrun]. by eapply preserves_run_call.
Qed.

(** *** Nothing but the sweep takes anything away *)

Lemma keeps_records_refl s : keeps_records s s.
Proof. split; [done|]. intros a sc Hsc. exists sc. done. Qed.

Lemma keeps_records_trans s1 s2 s3 :
  keeps_records s1 s2 → keeps_records s2 s3 → keeps_records s1 s3.
Proof.
  intros [Ht1 Hh1] [Ht2 Hh2]. split; [by eauto|].
  intros a sc Hsc.
  destruct (Hh1 _ _ Hsc) as (sc2 & Hsc2 & Hk2 & Hd2 & Hl2).
  destruct (Hh2 _ _ Hsc2) as (sc3 & Hsc3 & Hk3 & Hd3 & Hl3).
  exists sc3. split; [done|]. split; [congruence|]. split; [by auto|].
  intros t Ht. by auto.
Qed.

Lemma monotone_ret {A} (a : A) : monotone (ret a).
Proof. intros s r s' [= _ <-]. apply keeps_records_refl. Qed.

Lemma monotone_bind {A B} (m : M A) (k : A → M B) :
  monotone m → (∀ a, monotone (k a)) → monotone (bind m k).
Proof.
  intros Hm Hk s r s' Hrun. unfold bind in Hrun.
  destruct (m s) as [[a s1]| |] eqn:Hms; try discriminate.
  eapply keeps_records_trans; [by eapply Hm|by eapply Hk].
Qed.

Lemma monotone_g_assert b : monotone (g_assert b).
Proof.
  intros s r s'. unfold g_assert. destruct b; [|discriminate].
  intros [= _ <-]. apply keeps_records_refl.
Qed.

Lemma monotone_assert_locked : monotone assert_locked.
Proof.
  apply monotone_bind; [|intros; apply monotone_g_assert].
  intros s r s' [= _ <-]. apply keeps_records_refl.
Qed.

Lemma monotone_deref a : monotone (deref a).
Proof.
  intros s r s'. unfold deref. destruct (heap s !! a); [|discriminate].
  intros [= _ <-]. apply keeps_records_refl.
Qed.

Lemma monotone_set_stats_locked b : monotone (modify (set_stats_locked b)).
Proof. intros s r s' [= _ <-]. split; [done|]. intros a sc Hsc. by exists sc. Qed.

Lemma monotone_update a f :
  (∀ sc, key_of (f sc) = key_of sc) →
  (∀ sc, dynamic sc = true → dynamic (f sc) = true) →
  (∀ sc t, is_live sc t = true → is_live (f sc) t = true) →
  monotone (update a f).
Proof.
  intros Hkey Hdyn Hlive s r s'. unfold update, bind, deref.
  destruct (heap s !! a) as [sc|] eqn:Hsc; [|discriminate].
  intros [= _ <-]. split; [done|]. intros a' sc' Hsc'. simpl.
  destruct (decide (a' = a)) as [->|Hne].
  - rewrite lookup_insert_eq. exists (f sc). rewrite Hsc in Hsc'.
    injection Hsc' as <-. split; [done|]. split; [done|]. split; [by auto|by auto].
  - rewrite lookup_insert_ne by done. by exists sc'.
Qed.

Lemma monotone_stats_add_counter lvl src i ins :
  monotone (stats_add_counter lvl src i ins).
Proof.
  intros s r s' Hrun. unfold stats_add_counter, bind, stats_check_level in Hrun.
  destruct (lvl <=? current_stats_level s); simpl in Hrun;
    [|injection Hrun as _ <-; apply keeps_records_refl].
  unfold g_hash_table_lookup in Hrun.
  set (k := (guint16 src, default EmptyString i, default EmptyString ins)) in *.
  destruct (counter_hash s !! k) as [a|] eqn:Hk.
  - unfold deref in Hrun. destruct (heap s !! a) as [sc|] eqn:Hsc; [|discriminate].
    unfold update, bind, deref in Hrun. rewrite Hsc in Hrun.
    injection Hrun as _ <-. split; [done|]. intros a' sc' Hsc'. simpl.
    destruct (decide (a' = a)) as [->|Hne].
    + rewrite lookup_insert_eq. eexists. split; [done|].
      rewrite Hsc in Hsc'. injection Hsc' as <-. done.
    + rewrite lookup_insert_ne by done. by exists sc'.
  - unfold g_new0, g_hash_table_insert, modify, ret in Hrun. simpl in Hrun.
    injection Hrun as _ <-. split; simpl.
    + intros k' a' Hk'. rewrite lookup_insert_ne; [done|]. intros <-. congruence.
    + intros a' sc' Hsc'. exists sc'. split; [|done].
      rewrite lookup_insert_ne; [done|]. intros <-.
      assert (Hin : fresh (dom (heap s)) ∈ dom (heap s)) by (apply elem_of_dom; eauto).
      by apply is_fresh in Hin.
Qed.

Lemma monotone_mark_live a t : monotone (update a (mark_live t)).
Proof.
  apply monotone_update; [done|done|].
  intros sc t' Ht'. rewrite is_live_mark_live, Ht'. done.
Qed.

Lemma monotone_set_ref_cnt a f : monotone (update a (set_ref_cnt f)).
Proof. by apply monotone_update. Qed.

Lemma monotone_set_dynamic_true a : monotone (update a (set_dynamic true)).
Proof. by apply monotone_update. Qed.

Lemma monotone_set_counter a t f : monotone (update a (set_counter t f)).
Proof. by apply monotone_update. Qed.

Lemma monotone_stats_counter_inc counter : monotone (stats_counter_inc counter).
Proof.
  destruct counter as [[a t]|]; simpl; [apply monotone_set_counter|apply monotone_ret].
Qed.

Lemma monotone_stats_counter_set counter v : monotone (stats_counter_set counter v).
Proof.
  destruct counter as [[a t]|]; simpl; [apply monotone_set_counter|apply monotone_ret].
Qed.

Ltac mono_step :=
  repeat first
    [ apply monotone_ret
    | apply monotone_assert_locked
    | apply monotone_g_assert
    | apply monotone_deref
    | apply monotone_stats_add_counter
    | apply monotone_mark_live
    | apply monotone_set_ref_cnt
    | apply monotone_set_dynamic_true
    | apply monotone_stats_counter_inc
    | apply monotone_stats_counter_set
    | apply monotone_set_stats_locked
    | apply monotone_bind; [|intros ?]
    | progress (repeat case_match) ].

Lemma monotone_stats_register_counter lvl src i ins t :
  monotone (stats_register_counter lvl src i ins t).
Proof. unfold stats_register_counter. mono_step. Qed.

Lemma monotone_stats_register_dynamic_counter lvl src i ins t :
  monotone (stats_register_dynamic_counter lvl src i ins t).
Proof.
  unfold stats_register_dynamic_counter. mono_step.
  intros s r s' Hrun. discriminate.
Qed.

Lemma monotone_stats_register_associated_counter sc t :
  monotone (stats_register_associated_counter sc t).
Proof. unfold stats_register_associated_counter. mono_step. Qed.

Lemma monotone_stats_unregister_counter src i ins t counter :
  monotone (stats_unregister_counter src i ins t counter).
Proof.
  unfold stats_unregister_counter. mono_step.
  all: intros s r s' [= _ <-]; apply keeps_records_refl.
Qed.

Lemma monotone_stats_unregister_dynamic_counter sc t counter :
  monotone (stats_unregister_dynamic_counter sc t counter).
Proof. unfold stats_unregister_dynamic_counter. mono_step. Qed.

Lemma monotone_stats_register_and_increment lvl src i ins T :
  monotone (stats_register_and_increment_dynamic_counter lvl src i ins T).
Proof.
  unfold stats_register_and_increment_dynamic_counter.
  apply monotone_bind; [apply monotone_assert_locked|intros _].
  apply monotone_bind; [apply monotone_stats_register_dynamic_counter|intros [[h c] n]].
  apply monotone_bind; [apply monotone_stats_counter_inc|intros _].
  apply monotone_bind; [|intros _; apply monotone_stats_unregister_dynamic_counter].
  destruct (0 <=? T); [|apply monotone_ret].
  apply monotone_bind; [apply monotone_stats_register_associated_counter|intros stamp].
  apply monotone_bind; [apply monotone_stats_counter_set|intros _].
  apply monotone_stats_unregister_dynamic_counter.
Qed.

Lemma monotone_run_call c : is_prune c = false → monotone (run_call c).
Proof.
  destruct c; simpl; try discriminate; intros _.
  - apply monotone_set_stats_locked.
  - apply monotone_set_stats_locked.
  - apply monotone_bind; [apply monotone_stats_register_counter|].
    intros; apply monotone_ret.
  - apply monotone_bind; [apply monotone_stats_register_dynamic_counter|].
    intros; apply monotone_ret.
  - apply monotone_bind; [apply monotone_stats_register_associated_counter|].
    intros; apply monotone_ret.
  - apply monotone_bind; [apply monotone_stats_unregister_counter|].
    intros; apply monotone_ret.
  - apply monotone_stats_unregister_dynamic_counter.
  - apply monotone_stats_register_and_increment.
  - apply monotone_stats_counter_inc.
  - apply monotone_stats_counter_set.
Qed.

(** X2: no sequence of interface calls without a sweep takes anything
    away. When it returns, every table entry still points to the same
    address, every record is still allocated under the same source, id and
    instance, a record that was dynamic is dynamic, and every live bit that
    was set is set: unregistration drops a reference and nothing else. *)
Theorem only_the_sweep_removes cs s s' :
  forallb (λ c, negb (is_prune c)) cs = true →
  run_calls cs s = Ok (tt, s') →
  keeps_records s s'.
Proof.
  revert s. induction cs as [|c cs IH]; intros s Hcs Hrun.
  - inversion Hrun; subst. apply keeps_records_refl.
  - simpl in Hcs. apply andb_true_iff in Hcs as [Hc Hcs].
    apply negb_true_iff in Hc.
    simpl in Hrun. unfold bind in Hrun.
    destruct (run_call c s) as [[[] s1]| |] eqn:Hc1; try discriminate.
    eapply keeps_records_trans; [by eapply monotone_run_call|by eapply IH].
Qed.

(** *** The lock *)

Lemma assert_locked_fails s : stats_locked s = false → assert_locked s = AssertFail.
Proof. intros H. unfold assert_locked, bind, get, g_assert. by rewrite H. Qed.

(** X3: without the lock every life-cycle function aborts on its first
    assertion, whatever its arguments: also a registration whose level is
    not met and an unregistration of a NULL handle. *)
Theorem unlocked_call_aborts s :
  stats_locked s = false →
  (∀ lvl src i ins t, stats_register_counter lvl src i ins t s = AssertFail) ∧
  (∀ lvl src i ins t,
     stats_register_dynamic_counter lvl src i ins t s = AssertFail) ∧
  (∀ sc t, stats_register_associated_counter sc t s = AssertFail) ∧
  (∀ src i ins t counter,
     stats_unregister_counter src i ins t counter s = AssertFail) ∧
  (∀ sc t counter,
     stats_unregister_dynamic_counter sc t counter s = AssertFail) ∧
  (∀ lvl src i ins T,
     stats_register_and_increment_dynamic_counter lvl src i ins T s = AssertFail).
Proof.
  intros H. repeat split; intros;
    [ unfold stats_register_counter | unfold stats_register_dynamic_counter
    | unfold stats_register_associated_counter | unfold stats_unregister_counter
    | unfold stats_unregister_dynamic_counter
    | unfold stats_register_and_increment_dynamic_counter ];
    unfold bind at 1; by rewrite assert_locked_fails.
Qed.

(** *** Unregistration by key *)

(** X4: the contract of [stats_unregister_counter] on a non-NULL handle, in
    a well-formed registry with the lock held. It returns exactly when the
    key has a record, the type is live in it, and the handle is the address
    of that record's counter of that type; then the record loses one
    reference (modulo 65536), the handle is cleared, and nothing else
    changes. In every other case the call aborts on an assertion. *)
Theorem unregister_contract src i ins t h s :
  let k := key_for src i ins in
  wf s → stats_locked s = true →
  (∀ a sc, counter_hash s !! k = Some a → heap s !! a = Some sc →
     is_live sc t = true → h = (a, t) →
     stats_unregister_counter src i ins t (Some h) s =
       Ok (None, set_heap (insert a (set_ref_cnt decr sc)) s)) ∧
  ((∀ a sc, counter_hash s !! k = Some a → heap s !! a = Some sc →
      is_live sc t = true → h ≠ (a, t)) →
   stats_unregister_counter src i ins t (Some h) s = AssertFail).
Proof.
  intros k Hwf Hl. rewrite stats_unregister_counter_run by done. fold k. split.
  - intros a sc Hk Hsc Ht ->. rewrite Hk, Hsc, Ht, item_ptr_eqb_refl. done.
  - intros Hne. destruct (counter_hash s !! k) as [a|] eqn:Hk; [|done].
    destruct (wf_live _ Hwf _ _ Hk) as (sc & Hsc & _). rewrite Hsc.
    destruct (is_live sc t) eqn:Ht; [|done]. simpl.
    destruct (Pos.eqb a h.1 && (type_num t =? type_num h.2)) eqn:He;
      destruct h as [b u]; simpl in *; rewrite He; [|done].
    exfalso. apply (Hne a sc); try done.
    apply andb_true_iff in He as [->%Pos.eqb_eq ->%Z.eqb_eq%type_num_inj]. done.
Qed.

(** X5: a registration followed by the unregistration of the handle it
    returned always returns, in a well-formed registry with the lock held.
    When the level is met the record of the key, created if there was none,
    is left with the reference count and counter values it had before (0
    and blank for a new one) and with the type's live bit set; the entry
    stays in the table. When the level is not met nothing changes. *)
Theorem register_unregister_roundtrip lvl src i ins t s :
  let k := key_for src i ins in
  wf s → stats_locked s = true →
  (c <- stats_register_counter lvl src i ins t ;;
   stats_unregister_counter src i ins t c) s =
    Ok (None,
        if lvl <=? current_stats_level s
        then with_record s k (addr_at s k) (mark_live t (record_at s k))
        else s).
Proof.
  intros k Hwf Hl. unfold bind.
  destruct (lvl <=? current_stats_level s) eqn:Hlvl.
  - apply Z.leb_le in Hlvl.
    rewrite stats_register_counter_ok by (try done; by apply wf_sound).
    fold k. rewrite stats_unregister_counter_run by done. fold k.
    destruct (with_record_lookup s k (addr_at s k)
                (mark_live t (set_ref_cnt incr (record_at s k)))) as [-> ->].
    rewrite is_live_mark_live_same, item_ptr_eqb_refl. simpl.
    rewrite set_heap_with_record. do 3 f_equal.
    pose proof (ref_cnt_record_at s k Hwf) as Hr.
    unfold mark_live, set_live_mask, set_ref_cnt. simpl.
    rewrite decr_incr by done. done.
  - apply Z.leb_gt in Hlvl.
    unfold stats_register_counter, bind.
    rewrite assert_locked_ok by done. simpl.
    assert (Ht : (type_num t <? Z.of_nat SC_TYPE_MAX) = true) by (by destruct t).
    rewrite Ht. simpl. rewrite stats_add_counter_rejected by done. simpl.
    unfold stats_unregister_counter, bind. by rewrite assert_locked_ok.
Qed.

(** ** What the sweep reports *)

Lemma too_old_acc now lifetime sc o d :
  stats_counter_is_too_old now lifetime sc (o, d) =
    if too_old now lifetime sc
    then (true, sweep_acc (o, d) [counter_value sc SC_TYPE_STAMP])
    else (false, (o, d)).
Proof.
  unfold too_old, stats_counter_is_too_old, sweep_acc.
  destruct (dynamic sc); [|done].
  destruct (0 <? ref_cnt sc); [done|].
  destruct (Z.land (live_mask sc) (Z.shiftl 1 (type_num SC_TYPE_STAMP)) =? 0);
    [done|].
  destruct (counter_value sc SC_TYPE_STAMP <=? now - lifetime); done.
Qed.

Lemma sweep_acc_app acc ts1 ts2 :
  sweep_acc acc (ts1 ++ ts2) = sweep_acc (sweep_acc acc ts1) ts2.
Proof. unfold sweep_acc. by rewrite foldl_app. Qed.

Lemma sweep_acc_dropped ts : ∀ acc, (sweep_acc acc ts).2 = acc.2 + Z.of_nat (length ts).
Proof.
  induction ts as [|T ts IH]; intros acc; simpl; [lia|].
  unfold sweep_acc in *. simpl. rewrite IH. simpl. lia.
Qed.

Lemma sweep_acc_oldest_nonzero ts :
  ∀ o d, o ≠ 0 → Forall (λ T, T ≠ 0) ts →
    (sweep_acc (o, d) ts).1 ≠ 0 ∧ (sweep_acc (o, d) ts).1 ≤ o ∧
    Forall (λ T, (sweep_acc (o, d) ts).1 ≤ T) ts ∧
    ((sweep_acc (o, d) ts).1 = o ∨ (sweep_acc (o, d) ts).1 ∈ ts).
Proof.
  induction ts as [|T ts IH]; intros o d Ho Hts.
  - simpl. repeat split; [done|lia|constructor|by left].
  - apply Forall_cons in Hts as [HT Hts].
    change (sweep_acc (o, d) (T :: ts)) with
      (sweep_acc (if (o =? 0) || (T <? o) then T else o, d + 1) ts).
    destruct (o =? 0) eqn:Ho0; [apply Z.eqb_eq in Ho0; done|]. simpl.
    destruct (T <? o) eqn:HTo.
    + apply Z.ltb_lt in HTo.
      destruct (IH T (d + 1) HT Hts) as (H1 & H2 & H3 & H4).
      repeat split; [done|lia| |].
      * constructor; [done|done].
      * right. destruct H4 as [->|H4]; [by left|by right].
    + apply Z.ltb_ge in HTo.
      destruct (IH o (d + 1) Ho Hts) as (H1 & H2 & H3 & H4).
      repeat split; [done|done| |].
      * constructor; [lia|done].
      * destruct H4 as [H4|H4]; [by left|right; by right].
Qed.

Lemma sweep_acc_in ts : ∀ T d, (sweep_acc (T, d) ts).1 ∈ T :: ts.
Proof.
  induction ts as [|T' ts IH]; intros T d; [by left|].
  change (sweep_acc (T, d) (T' :: ts)) with
    (sweep_acc (if (T =? 0) || (T' <? T) then T' else T, d + 1) ts).
  destruct ((T =? 0) || (T' <? T)).
  - right. apply IH.
  - specialize (IH T (d + 1)). apply elem_of_cons in IH as [IH|IH].
    + rewrite IH. by left.
    + right. by right.
Qed.

Lemma sweep_acc_oldest ts d :
  (ts = [] → (sweep_acc (0, d) ts).1 = 0) ∧
  (ts ≠ [] → (sweep_acc (0, d) ts).1 ∈ ts) ∧
  (Forall (λ T, T ≠ 0) ts → Forall (λ T, (sweep_acc (0, d) ts).1 ≤ T) ts).
Proof.
  destruct ts as [|T ts]; [by repeat split|].
  change (sweep_acc (0, d) (T :: ts)) with (sweep_acc (T, d + 1) ts).
  split; [done|]. split.
  - intros _. apply sweep_acc_in.
  - intros [HT Hts]%Forall_cons.
    destruct (sweep_acc_oldest_nonzero ts T (d + 1) HT Hts) as (_ & H2 & H3 & _).
    by constructor.
Qed.

Lemma stamp_at_delete s a a' :
  a' ≠ a → stamp_at (set_heap (delete a) s) a' = stamp_at s a'.
Proof. intros Hne. unfold stamp_at. simpl. by rewrite lookup_delete_ne. Qed.

Lemma foreach_too_old_run now lifetime :
  ∀ l s acc,
    NoDup l.*2 → (∀ k a, (k, a) ∈ l → is_Some (heap s !! a)) →
    let d := doomed (too_old now lifetime) (heap s) l in
    foreach_remove (stats_counter_is_too_old now lifetime) l acc s =
      Ok (sweep_acc acc ((λ ka, stamp_at s ka.2) <$> d),
          mkStats (foldr delete (counter_hash s) d.*1)
                  (foldr delete (heap s) d.*2)
                  (current_stats_level s) (stats_locked s)).
Proof.
  induction l as [|[k a] l IH]; intros s [o d0] Hnd Hlive.
  - simpl. unfold ret. by destruct s.
  - simpl in Hnd. apply NoDup_cons in Hnd as [Ha Hnd].
    destruct (Hlive k a) as [sc Hsc]; [by left|].
    cbn [foreach_remove]. unfold bind at 1. unfold deref. rewrite Hsc.
    cbn beta iota. rewrite too_old_acc.
    destruct (too_old now lifetime sc) eqn:Hp.
    + unfold bind, modify, stats_counter_free. unfold modify. cbn beta iota.
      rewrite IH; [|done|].
      2:{ intros k' a' Hin. simpl. rewrite lookup_delete_ne; [by eapply Hlive; right|].
          intros ->. apply Ha. apply list_elem_of_fmap. by exists (k', a'). }
      cbn [doomed]. rewrite Hsc. cbn [from_option]. rewrite Hp.
      rewrite !fmap_cons. cbn [foldr fst snd heap counter_hash set_heap
        set_counter_hash current_stats_level stats_locked].
      rewrite doomed_delete by done. rewrite !foldr_delete_delete.
      do 2 f_equal.
      assert (Hst : stamp_at s a = counter_value sc SC_TYPE_STAMP).
      { unfold stamp_at. by rewrite Hsc. }
      rewrite Hst.
      change (sweep_acc (o, d0) (counter_value sc SC_TYPE_STAMP :: ?l)) with
        (sweep_acc (sweep_acc (o, d0) [counter_value sc SC_TYPE_STAMP]) l).
      f_equal. apply Forall_fmap_ext_1, Forall_forall.
      intros [k' a'] Hin. cbn [snd].
      apply (stamp_at_delete (set_counter_hash (delete k) s)).
      intros ->. apply elem_of_doomed in Hin as [Hin _].
      apply Ha. apply list_elem_of_fmap. by exists (k', a).
    + unfold bind, ret. cbn beta iota. rewrite IH; [|done|].
      2:{ intros k' a' Hin. eapply Hlive. by right. }
      cbn [doomed]. rewrite Hsc. cbn [from_option]. rewrite Hp. done.
Qed.

Lemma stats_prune_old_counters_run now lifetime s :
  wf s →
  let d := stale now lifetime s in
  stats_prune_old_counters now lifetime s =
    Ok (sweep_acc (0, 0) ((λ ka, stamp_at s ka.2) <$> d),
        mkStats (foldr delete (counter_hash s) d.*1)
                (foldr delete (heap s) d.*2)
                (current_stats_level s) false).
Proof.
  intros Hwf d.
  unfold stats_prune_old_counters, bind, stats_lock, modify,
    g_hash_table_foreach_remove, bind, get.
  cbn [counter_hash set_stats_locked].
  rewrite foreach_too_old_run.
  - unfold stats_unlock, modify, ret. done.
  - by apply wf_NoDup_addrs.
  - intros k a Hin%elem_of_map_to_list.
    destruct (wf_live _ Hwf _ _ Hin) as (sc & Hsc & _). simpl. eauto.
Qed.

Lemma elem_of_stale now lifetime s k a :
  (k, a) ∈ stale now lifetime s ↔
  counter_hash s !! k = Some a ∧
  ∃ sc, heap s !! a = Some sc ∧ too_old now lifetime sc = true.
Proof. unfold stale. by rewrite elem_of_doomed, elem_of_map_to_list. Qed.

Lemma NoDup_doomed_keys p hp l : NoDup l.*1 → NoDup (doomed p hp l).*1.
Proof.
  induction l as [|[k a] l IH]; intros Hnd; [constructor|].
  simpl in Hnd. apply NoDup_cons in Hnd as [Hk Hnd]. simpl.
  destruct (from_option p false (hp !! a)); [|by apply IH].
  simpl. apply NoDup_cons. split; [|by apply IH].
  intros ([k' a'] & -> & Hin)%list_elem_of_fmap.
  apply elem_of_doomed in Hin as [Hin _].
  apply Hk. apply list_elem_of_fmap. by exists (k', a').
Qed.

Lemma size_foldr_delete {K A} `{Countable K} (m : gmap K A) ks :
  NoDup ks → (∀ k, k ∈ ks → is_Some (m !! k)) →
  (size (foldr delete m ks) + length ks = size m)%nat.
Proof.
  induction ks as [|k ks IH]; intros Hnd Hin; [simpl; lia|].
  apply NoDup_cons in Hnd as [Hk Hnd]. simpl.
  assert (Hk' : is_Some (foldr delete m ks !! k)).
  { rewrite lookup_foldr_delete_not_elem_of by done. apply Hin. by left. }
  rewrite map_size_delete_Some by done.
  pose proof (map_size_ne_0_lookup_2 _ _ Hk').
  specialize (IH Hnd (λ k' Hk', Hin k' (list_elem_of_further _ _ _ Hk'))). lia.
Qed.

Lemma too_old_mono now lifetime now' lifetime' sc :
  now' - lifetime' ≤ now - lifetime →
  too_old now' lifetime' sc = true → too_old now lifetime sc = true.
Proof.
  intros Hle. unfold too_old, stats_counter_is_too_old.
  destruct (dynamic sc); [|done].
  destruct (0 <? ref_cnt sc); [done|].
  destruct (Z.land (live_mask sc) (Z.shiftl 1 (type_num SC_TYPE_STAMP)) =? 0);
    [done|].
  cbn [negb].
  destruct (counter_value sc SC_TYPE_STAMP <=? now' - lifetime') eqn:H1; [|done].
  apply Z.leb_le in H1.
  destruct (counter_value sc SC_TYPE_STAMP <=? now - lifetime) eqn:H2; [done|].
  apply Z.leb_gt in H2. lia.
Qed.

(** X6: what [stats_prune_old_counters] reports, in a well-formed registry.
    The sweep always returns, with the lock released and the level
    untouched. Its count of dropped counters is the number of table entries
    it removed. When it dropped nothing it reports 0 as the oldest
    timestamp and the registry is as before; when it dropped something the
    oldest timestamp is the stamp of a removed record, and it is the
    smallest such stamp provided no removed record has the stamp 0, which
    the callback takes for "not set yet". *)
Theorem sweep_report now lifetime s :
  wf s →
  ∃ oldest dropped s',
    stats_prune_old_counters now lifetime s = Ok ((oldest, dropped), s') ∧
    stats_locked s' = false ∧ current_stats_level s' = current_stats_level s ∧
    Z.of_nat (size (counter_hash s')) = Z.of_nat (size (counter_hash s)) - dropped ∧
    (dropped = 0 → oldest = 0 ∧ s' = set_stats_locked false s) ∧
    (0 < dropped →
       ∃ k a, counter_hash s !! k = Some a ∧ counter_hash s' !! k = None ∧
              oldest = stamp_at s a) ∧
    ((∀ k a, counter_hash s !! k = Some a → counter_hash s' !! k = None →
             stamp_at s a ≠ 0) →
     ∀ k a, counter_hash s !! k = Some a → counter_hash s' !! k = None →
            oldest ≤ stamp_at s a).
Proof.
  intros Hwf.
  pose proof (stats_prune_old_counters_run now lifetime s Hwf) as Hrun.
  cbv zeta in Hrun. set (d := stale now lifetime s) in *.
  set (ts := (λ ka : Key * addr, stamp_at s ka.2) <$> d) in *.
  assert (Hrem : ∀ k a, counter_hash s !! k = Some a →
            (foldr delete (counter_hash s) d.*1 !! k = None ↔ (k, a) ∈ d)).
  { intros k a Hk. split.
    - intros Hnone. destruct (decide (k ∈ d.*1)) as [Hin|Hout].
      + apply list_elem_of_fmap in Hin as ([k' a'] & -> & Hin).
        pose proof Hin as Hin'. apply elem_of_stale in Hin' as [Hk' _].
        simpl in *. congruence.
      + rewrite lookup_foldr_delete_not_elem_of in Hnone by done. congruence.
    - intros Hin. apply lookup_foldr_delete. apply list_elem_of_fmap.
      by exists (k, a). }
  exists (sweep_acc (0, 0) ts).1, (sweep_acc (0, 0) ts).2. eexists.
  split; [by rewrite <- surjective_pairing|].
  cbn [stats_locked current_stats_level counter_hash].
  assert (Hlen : (sweep_acc (0, 0) ts).2 = Z.of_nat (length d)).
  { rewrite sweep_acc_dropped. unfold ts. rewrite length_fmap. simpl. lia. }
  split; [done|]. split; [done|]. split; [|split; [|split]].
  - rewrite Hlen.
    pose proof (size_foldr_delete (counter_hash s) d.*1) as Hsz.
    rewrite length_fmap in Hsz.
    assert (Hnd : NoDup d.*1) by apply NoDup_doomed_keys, NoDup_fst_map_to_list.
    assert (Hall : ∀ k, k ∈ d.*1 → is_Some (counter_hash s !! k)).
    { intros k ([k' a'] & -> & Hin)%list_elem_of_fmap.
      apply elem_of_stale in Hin as [Hk _]. simpl. eauto. }
    specialize (Hsz Hnd Hall). lia.
  - rewrite Hlen. intros Hd.
    assert (d = []) as Hnil by (destruct d; [done|simpl in Hd; lia]).
    unfold ts. rewrite Hnil. simpl. split; [done|]. by destruct s.
  - rewrite Hlen. intros Hd.
    destruct (sweep_acc_oldest ts 0) as (_ & Hin & _).
    assert (Hne : ts ≠ []).
    { unfold ts. destruct d; [simpl in Hd; lia|done]. }
    specialize (Hin Hne).
    apply list_elem_of_fmap in Hin as ([k a] & Heq & Hin).
    exists k, a. pose proof Hin as Hin'. apply elem_of_stale in Hin' as [Hk _].
    split; [done|]. split; [by apply (Hrem k a)|done].
  - intros Hnz k a Hk Hnone.
    destruct (sweep_acc_oldest ts 0) as (_ & _ & Hmin).
    assert (Hall : Forall (λ T, T ≠ 0) ts).
    { unfold ts. apply Forall_fmap, Forall_forall. intros [k' a'] Hin. simpl.
      pose proof Hin as Hin'. apply elem_of_stale in Hin' as [Hk' _].
      apply (Hnz k' a'); [done|]. by apply (Hrem k' a'). }
    specialize (Hmin Hall). rewrite Forall_forall in Hmin. apply Hmin.
    unfold ts. apply list_elem_of_fmap. exists (k, a). split; [done|].
    by apply (Hrem k a).
Qed.

(** X7: a second sweep finds nothing. After a sweep with the cut-off
    [now - lifetime], a sweep with the same or an earlier cut-off removes
    no record, reports no dropped counter and leaves the registry exactly
    as the first sweep left it. *)
Theorem sweep_twice now lifetime now' lifetime' s r s' :
  wf s → now' - lifetime' ≤ now - lifetime →
  stats_prune_old_counters now lifetime s = Ok (r, s') →
  stats_prune_old_counters now' lifetime' s' = Ok ((0, 0), s').
Proof.
  intros Hwf Hle Hrun.
  assert (Hwf' : wf s') by (by eapply preserves_stats_prune_old_counters).
  rewrite stats_prune_old_counters_run in Hrun by done.
  injection Hrun as _ Hs'.
  rewrite stats_prune_old_counters_run by done. cbv zeta.
  assert (Hnil : stale now' lifetime' s' = []).
  { apply elem_of_nil_inv. intros [k a] Hin.
    apply elem_of_stale in Hin as (Hk & sc & Hsc & Hold).
    subst s'. cbn [counter_hash heap] in *.
    apply lookup_foldr_delete_Some in Hk as [Hout Hk].
    apply lookup_foldr_delete_Some in Hsc as [_ Hsc].
    apply Hout. apply list_elem_of_fmap. exists (k, a). split; [done|].
    apply elem_of_stale. split; [done|]. exists sc. split; [done|].
    by eapply too_old_mono. }
  rewrite Hnil. simpl. subst s'. done.
Qed.

(** ** The comparison and hash functions *)

Lemma string_compare_refl s : String.compare s s = Eq.
Proof.
  induction s as [|c s IH]; [done|]. simpl.
  unfold Ascii.compare. by rewrite N.compare_refl.
Qed.

Lemma strcmp_eq s1 s2 : (strcmp s1 s2 =? 0) = true ↔ s1 = s2.
Proof.
  unfold strcmp. split.
  - pose proof (String.compare_eq_iff s1 s2) as Hc.
    destruct (String.compare s1 s2); [by auto|done|done].
  - intros ->. by rewrite string_compare_refl.
Qed.

(** X8: [stats_counter_equal] holds exactly for two records with the same
    source, id and instance, whatever their counters, reference counts and
    flags, and such records have the same [stats_counter_hash]: the table
    is a map from (source, id, instance) to records. *)
Theorem stats_counter_equal_same_key (g_str_hash : string → Z) sc1 sc2 :
  (stats_counter_equal sc1 sc2 = true ↔ key_of sc1 = key_of sc2) ∧
  (stats_counter_equal sc1 sc2 = true →
   stats_counter_hash g_str_hash sc1 = stats_counter_hash g_str_hash sc2).
Proof.
  assert (Heq : stats_counter_equal sc1 sc2 = true ↔ key_of sc1 = key_of sc2).
  { unfold stats_counter_equal, key_of.
    rewrite !andb_true_iff, !strcmp_eq, Z.eqb_eq. split.
    - intros [[-> ->] ->]. done.
    - intros [= -> -> ->]. done. }
  split; [done|]. intros [= H1 H2 H3]%Heq.
  unfold stats_counter_hash. by rewrite H1, H2, H3.
Qed.

(** ** The two exporters *)

Lemma Forall2_same_left {A B C} (R1 : A → B → Prop) (R2 : A → C → Prop) l :
  ∀ l1 l2, Forall2 R1 l l1 → Forall2 R2 l l2 →
           Forall2 (λ b c, ∃ a, a ∈ l ∧ R1 a b ∧ R2 a c) l1 l2.
Proof.
  induction l as [|a l IH]; intros l1 l2 H1 H2.
  - inversion H1; inversion H2; subst. constructor.
  - inversion H1 as [|? b ? l1' Hb H1']; inversion H2 as [|? c ? l2' Hc H2'];
      subst. constructor.
    + exists a. split; [by left|done].
    + eapply Forall2_impl; [by apply IH|].
      intros b' c' (a' & Hin & Hb' & Hc'). exists a'. split; [by right|done].
Qed.

Lemma substring_all s n : (String.length s ≤ n)%nat → String.substring 0 n s = s.
Proof.
  revert n. induction s as [|c s IH]; intros n Hn; [by destruct n|].
  destruct n as [|n]; simpl in *; [lia|]. f_equal. apply IH. lia.
Qed.

Lemma length_append s1 s2 :
  String.length (s1 +:+ s2) = (String.length s1 + String.length s2)%nat.
Proof. induction s1 as [|c s1 IH]; [done|]. simpl. by rewrite IH. Qed.

Lemma source_names_short name :
  name ∈ source_names → (String.length name ≤ 27)%nat.
Proof.
  unfold source_names. rewrite !elem_of_cons, elem_of_nil.
  intros H. repeat (destruct H as [->|H]; [simpl; lia|]). done.
Qed.

Section ExportFacts.

Variable utf8_escape_string : string → Z → string.
Variables SCS_SOURCE SCS_DESTINATION SCS_SOURCE_MASK SCS_GROUP : Z.

Local Abbreviation escapevar := (stats_format_csv_escapevar utf8_escape_string).
Local Abbreviation source_name_of :=
  (csv_source_name SCS_SOURCE SCS_DESTINATION SCS_SOURCE_MASK SCS_GROUP).
Local Abbreviation format_row :=
  (stats_format_csv_row utf8_escape_string SCS_SOURCE SCS_DESTINATION
     SCS_SOURCE_MASK SCS_GROUP).
Local Abbreviation format_csv :=
  (stats_format_csv utf8_escape_string SCS_SOURCE SCS_DESTINATION
     SCS_SOURCE_MASK SCS_GROUP).
Local Abbreviation log_tag :=
  (stats_format_log_tag SCS_SOURCE SCS_DESTINATION SCS_SOURCE_MASK SCS_GROUP).
Local Abbreviation log_loop :=
  (stats_format_log_loop SCS_SOURCE SCS_DESTINATION SCS_SOURCE_MASK SCS_GROUP).
Local Abbreviation log_counter :=
  (stats_format_log_counter SCS_SOURCE SCS_DESTINATION SCS_SOURCE_MASK SCS_GROUP).
Local Abbreviation valid :=
  (valid_source SCS_SOURCE SCS_DESTINATION SCS_SOURCE_MASK SCS_GROUP).

(** The buffer of 32 bytes is large enough for every source name. *)
Lemma csv_source_name_log sc t tag :
  log_tag sc t = Ok tag →
  ∃ name, source_name_of sc = Ok name ∧
          tag = (tag_names t,
                 name +:+ "(" +:+ id sc +:+ log_separator sc +:+ instance sc
                 +:+ ")=" +:+ print_u (counter_value sc t)).
Proof.
  unfold stats_format_log_tag, csv_source_name.
  destruct (Z.land (source sc) SCS_SOURCE_MASK =? SCS_GROUP).
  - destruct (negb (Z.land (source sc) SCS_SOURCE =? 0)); simpl.
    { intros [= <-]. by eexists. }
    destruct (negb (Z.land (source sc) SCS_DESTINATION =? 0)); simpl.
    { intros [= <-]. by eexists. }
    discriminate.
  - destruct (source_names !! Z.to_nat (Z.land (source sc) SCS_SOURCE_MASK))
      as [name|] eqn:Hname; [|discriminate].
    apply list_elem_of_lookup_2, source_names_short in Hname.
    intros [= <-]. eexists. split; [reflexivity|].
    rewrite substring_all; [by rewrite append_assoc|].
    rewrite length_append. repeat case_match; simpl; lia.
Qed.

Lemma log_tag_valid sc t : (∃ tag, log_tag sc t = Ok tag) ↔ valid sc.
Proof.
  unfold stats_format_log_tag, valid_source.
  destruct (Z.land (source sc) SCS_SOURCE_MASK =? SCS_GROUP).
  - destruct (Z.land (source sc) SCS_SOURCE =? 0) eqn:H1; simpl.
    + destruct (Z.land (source sc) SCS_DESTINATION =? 0) eqn:H2; simpl.
      * apply Z.eqb_eq in H1, H2. split; [by intros [? ?]|]. intros [?|?]; done.
      * apply Z.eqb_neq in H2. split; [by right|]. intros _. by eexists.
    + apply Z.eqb_neq in H1. split; [by left|]. intros _. by eexists.
  - destruct (source_names !! Z.to_nat (Z.land (source sc) SCS_SOURCE_MASK)).
    + split; [by eauto|]. intros _. by eexists.
    + split; [by intros [? ?]|]. by intros [? ?].
Qed.

Lemma stats_format_log_loop_tags sc types :
  ∀ e e',
    log_loop sc types e = Ok e' →
    ∃ tags, e' = mkEVTREC (evt_description e) (evt_tags e ++ tags) ∧
            Forall2 (λ t tag, log_tag sc t = Ok tag) (live_types sc types) tags.
Proof.
  induction types as [|t types IH]; intros e e' Hrun; simpl in Hrun.
  - injection Hrun as <-. exists []. rewrite app_nil_r. split; [by destruct e|].
    constructor.
  - unfold live_types. simpl. destruct (is_live sc t).
    + destruct (log_tag sc t) as [tag| |] eqn:Htag; try discriminate.
      simpl in Hrun. apply IH in Hrun as (tags & -> & Htags).
      exists (tag :: tags). simpl. rewrite <- app_assoc. split; [done|].
      by constructor.
    + by apply IH.
Qed.

Lemma stats_format_log_loop_returns sc types e :
  (live_types sc types ≠ [] → valid sc) →
  ∃ e', log_loop sc types e = Ok e'.
Proof.
  revert e. induction types as [|t types IH]; intros e Hv; simpl; [by eexists|].
  unfold live_types in Hv. simpl in Hv. destruct (is_live sc t).
  - assert (Hvalid : valid sc) by (by apply Hv).
    apply (log_tag_valid sc t) in Hvalid as [tag ->]. simpl. apply IH.
    intros _. by apply Hv.
  - by apply IH.
Qed.

Lemma foreach_format_log_tags l :
  ∀ e e' s s',
    foreach_format_log SCS_SOURCE SCS_DESTINATION SCS_SOURCE_MASK SCS_GROUP
      l e s = Ok (e', s') →
    s' = s ∧
    ∃ tags, e' = mkEVTREC (evt_description e) (evt_tags e ++ tags) ∧
      Forall2 (λ p tag, log_tag p.1 p.2 = Ok tag)
        (flat_map (λ ka : Key * addr,
                     match heap s !! ka.2 with
                     | Some sc => (λ t, (sc, t)) <$> live_types sc all_types
                     | None => []
                     end) l) tags.
Proof.
  induction l as [|[k a] l IH]; intros e e' s s' Hrun; simpl in Hrun.
  - injection Hrun as <- <-. split; [done|]. exists []. rewrite app_nil_r.
    split; [by destruct e|]. constructor.
  - unfold bind, deref in Hrun.
    destruct (heap s !! a) as [sc|] eqn:Hsc; [|discriminate]. unfold lift in Hrun.
    destruct (log_counter sc e) as [e1| |] eqn:He1; try discriminate.
    apply stats_format_log_loop_tags in He1 as (tags1 & -> & Htags1).
    apply IH in Hrun as (-> & tags & -> & Htags). split; [done|].
    exists (tags1 ++ tags). simpl. rewrite app_assoc. split; [done|].
    rewrite Hsc. apply Forall2_app; [|done].
    apply Forall2_fmap_l. eapply Forall2_impl; [exact Htags1|]. done.
Qed.

Lemma foreach_format_log_returns l :
  ∀ e s,
    (∀ k a, (k, a) ∈ l → is_Some (heap s !! a)) →
    (∀ k a sc, (k, a) ∈ l → heap s !! a = Some sc →
               live_types sc all_types ≠ [] → valid sc) →
    ∃ e', foreach_format_log SCS_SOURCE SCS_DESTINATION SCS_SOURCE_MASK SCS_GROUP
            l e s = Ok (e', s).
Proof.
  induction l as [|[k a] l IH]; intros e s Hlive Hvalid; simpl; [by eexists|].
  destruct (Hlive k a) as [sc Hsc]; [by left|].
  unfold bind, deref. rewrite Hsc. unfold lift.
  destruct (stats_format_log_loop_returns sc all_types e) as [e1 He1].
  { eapply Hvalid; [by left|done]. }
  unfold stats_format_log_counter. rewrite He1. apply IH.
  - intros k' a' Hin. eapply Hlive. by right.
  - intros k' a' sc' Hin. eapply Hvalid. by right.
Qed.

(** X9: the log exporter. When [stats_generate_log] returns, the event it
    sends is described as "Log statistics" and carries one tag for every
    live counter type of every record in the table, in table order and, per
    record, in type order; each tag is the one [evt_tag_printf] builds for
    that record and type. The registry is unchanged but for the lock, which
    is released. *)
Theorem log_one_tag_per_live_counter s e s' :
  stats_generate_log SCS_SOURCE SCS_DESTINATION SCS_SOURCE_MASK SCS_GROUP s
    = Ok (e, s') →
  s' = set_stats_locked false s ∧
  evt_description e = "Log statistics"%string ∧
  Forall2 (λ p tag, log_tag p.1 p.2 = Ok tag) (exported_pairs s) (evt_tags e).
Proof.
  unfold stats_generate_log, bind, stats_lock, modify, get. simpl. intros Hrun.
  destruct (foreach_format_log _ _ _ _ _ _ _) as [[e1 s1]| |] eqn:Hloop;
    try discriminate.
  apply foreach_format_log_tags in Hloop as (-> & tags & -> & Htags).
  unfold stats_unlock, modify, ret in Hrun. simpl in Hrun.
  injection Hrun as <- <-. split; [by destruct s|]. split; [done|]. exact Htags.
Qed.

(** X10: the log exporter returns exactly when every record it has to
    report can be named. In a well-formed registry [stats_generate_log]
    returns if and only if every record with a live counter type is either
    a group record with the source or the destination bit, or a record
    whose category is an index into [source_names]; the contents of id and
    instance never make it fail. *)
Theorem log_returns_iff_sources_valid s :
  wf s →
  (∃ e s', stats_generate_log SCS_SOURCE SCS_DESTINATION SCS_SOURCE_MASK
             SCS_GROUP s = Ok (e, s')) ↔
  Forall (λ p, valid p.1) (exported_pairs s).
Proof.
  intros Hwf. split.
  - intros (e & s' & Hrun).
    unfold stats_generate_log, bind, stats_lock, modify, get in Hrun.
    simpl in Hrun.
    destruct (foreach_format_log _ _ _ _ _ _ _) as [[e1 s1]| |] eqn:Hloop;
      try discriminate.
    apply foreach_format_log_tags in Hloop as (_ & tags & _ & Htags).
    simpl in Htags. fold (exported_pairs s) in Htags.
    apply Forall_forall. intros p Hp.
    apply list_elem_of_lookup_1 in Hp as [n Hn].
    destruct (Forall2_lookup_l _ _ _ _ _ Htags Hn) as (tag & _ & Htag).
    apply (log_tag_valid p.1 p.2). eauto.
  - intros Hall. rewrite Forall_forall in Hall.
    destruct (foreach_format_log_returns (map_to_list (counter_hash s))
                (mkEVTREC "Log statistics" []) (set_stats_locked true s))
      as [e He].
    { intros k a Hin%elem_of_map_to_list.
      destruct (wf_live _ Hwf _ _ Hin) as (sc & Hsc & _). simpl. eauto. }
    { intros k a sc Hin Hsc Hne. simpl in Hsc.
      destruct (live_types sc all_types) as [|t ts] eqn:Hts; [done|].
      apply (Hall (sc, t)). unfold exported_pairs.
      apply list_elem_of_In, in_flat_map. exists (k, a).
      split; [by apply list_elem_of_In|]. cbn [snd]. rewrite Hsc, Hts.
      apply list_elem_of_In. by left. }
    exists e. eexists.
    unfold stats_generate_log, bind, stats_lock, modify, get. simpl.
    rewrite He. reflexivity.
Qed.

(** *** The CSV exporter *)

Lemma foreach_format_csv_pairs l :
  ∀ csv csv' s s',
    foreach_format_csv utf8_escape_string SCS_SOURCE SCS_DESTINATION
      SCS_SOURCE_MASK SCS_GROUP l csv s = Ok (csv', s') →
    s' = s ∧
    ∃ rows, csv' = csv +:+ print_rows rows ∧
      Forall2 (λ p row, ∃ s_id s_instance,
                 escapevar (id p.1) = Ok s_id ∧
                 escapevar (instance p.1) = Ok s_instance ∧
                 format_row p.1 s_id s_instance p.2 = Ok row)
        (flat_map (λ ka : Key * addr,
                     match heap s !! ka.2 with
                     | Some sc => (λ t, (sc, t)) <$> live_types sc all_types
                     | None => []
                     end) l) rows.
Proof.
  induction l as [|[k a] l IH]; intros csv csv' s s' Hrun; simpl in Hrun.
  - injection Hrun as <- <-. split; [done|]. exists []. simpl.
    rewrite append_empty_r. split; [done|]. constructor.
  - unfold bind, deref in Hrun.
    destruct (heap s !! a) as [sc|] eqn:Hsc; [|discriminate]. unfold lift in Hrun.
    destruct (format_csv sc csv) as [csv1| |] eqn:Hcsv1; try discriminate.
    unfold stats_format_csv in Hcsv1.
    destruct (escapevar (id sc)) as [s_id| |] eqn:Hid; try discriminate.
    destruct (escapevar (instance sc)) as [s_instance| |] eqn:Hins;
      try discriminate.
    cbn [obind] in Hcsv1.
    apply stats_format_csv_loop_rows in Hcsv1 as (rows1 & -> & Hrows1).
    apply IH in Hrun as (-> & rows & -> & Hrows). split; [done|].
    exists (rows1 ++ rows). rewrite print_rows_app, append_assoc.
    split; [done|]. simpl. rewrite Hsc. apply Forall2_app; [|done].
    apply Forall2_fmap_l. eapply Forall2_impl; [exact Hrows1|].
    intros t row Hrow. simpl. by exists s_id, s_instance.
Qed.

(** X11: the CSV exporter. When [stats_generate_csv] returns, the document
    is the header row followed by exactly one data row for every live
    counter type of every record in the table, in table order and, per
    record, in type order; the row of a pair is the one the loop body
    builds from the escaped id and instance of the record. The registry is
    unchanged but for the lock, which is released. *)
Theorem csv_one_row_per_live_counter s doc s' :
  stats_generate_csv utf8_escape_string SCS_SOURCE SCS_DESTINATION
    SCS_SOURCE_MASK SCS_GROUP s = Ok (doc, s') →
  s' = set_stats_locked false s ∧
  ∃ rows, doc = csv_header +:+ print_rows rows ∧
    Forall2 (λ p row, ∃ s_id s_instance,
               escapevar (id p.1) = Ok s_id ∧
               escapevar (instance p.1) = Ok s_instance ∧
               format_row p.1 s_id s_instance p.2 = Ok row)
      (exported_pairs s) rows.
Proof.
  unfold stats_generate_csv, bind, stats_lock, modify, get. simpl. intros Hrun.
  destruct (foreach_format_csv _ _ _ _ _ _ _ _) as [[csv s1]| |] eqn:Hloop;
    try discriminate.
  apply foreach_format_csv_pairs in Hloop as (-> & rows & -> & Hrows).
  unfold stats_unlock, modify, ret in Hrun. simpl in Hrun.
  injection Hrun as <- <-. split; [by destruct s|]. by exists rows.
Qed.

Lemma escapevar_tag_name t :
  escapevar (tag_names t) =
    Ok (utf8_escape_string (tag_names t) (Z.of_nat (String.length (tag_names t)))).
Proof. by destruct t. Qed.

(** C8: the document that [stats_generate_csv] returns is the header row
    followed by exactly one data row for every live counter type of every
    record in the table, in table order and, per record, in type order. In
    the data row of a record the State field is [d] when the record is
    dynamic, whatever its reference count, else [o] when its reference
    count is 0, else [a]; the row's SourceId and SourceInstance are the
    escaped id and instance of that same record, its Type the escaped name
    of the counter type and its Number the value of that counter. *)
Theorem csv_state_field s doc s' :
  stats_generate_csv utf8_escape_string SCS_SOURCE SCS_DESTINATION
    SCS_SOURCE_MASK SCS_GROUP s = Ok (doc, s') →
  ∃ rows, doc = csv_header +:+ print_rows rows ∧
    Forall2 (λ p row,
               State row = (if dynamic p.1 then "d"%char
                            else if ref_cnt p.1 =? 0 then "o"%char
                            else "a"%char) ∧
               escapevar (id p.1) = Ok (SourceId row) ∧
               escapevar (instance p.1) = Ok (SourceInstance row) ∧
               Type_ row = utf8_escape_string (tag_names p.2)
                             (Z.of_nat (String.length (tag_names p.2))) ∧
               Number row = counter_value p.1 p.2)
      (exported_pairs s) rows.
Proof.
  unfold stats_generate_csv, bind, stats_lock, modify, get. simpl. intros Hrun.
  destruct (foreach_format_csv _ _ _ _ _ _ _ _) as [[csv s1]| |] eqn:Hloop;
    try discriminate.
  apply foreach_format_csv_pairs in Hloop as (-> & rows & -> & Hrows).
  unfold stats_unlock, modify, ret in Hrun. simpl in Hrun.
  injection Hrun as <- _. exists rows. split; [done|].
  simpl in Hrows. fold (exported_pairs s) in Hrows.
  eapply Forall2_impl; [exact Hrows|].
  intros [sc t] row (s_id & s_instance & Hid & Hins & Hrow). simpl in *.
  unfold stats_format_csv_row in Hrow.
  destruct (source_name_of sc) as [name| |]; try discriminate.
  simpl in Hrow. rewrite escapevar_tag_name in Hrow. simpl in Hrow.
  injection Hrow as <-. done.
Qed.

(** X12: the two exporters agree. When both return on the same registry,
    the event has as many tags as the document has data rows, and the n-th
    tag and the n-th row report the same counter of the same record: the
    tag is named by the counter type whose escaped name is the row's Type
    field, and the tag's value is the row's SourceName, then the record's
    id and instance in parentheses, separated by a comma when both are
    non-empty, then [=] and the row's Number. In particular no source name
    is cut short by the 32-byte buffer of the CSV exporter. *)
Theorem log_and_csv_agree s e s1 doc s2 :
  stats_generate_log SCS_SOURCE SCS_DESTINATION SCS_SOURCE_MASK SCS_GROUP s
    = Ok (e, s1) →
  stats_generate_csv utf8_escape_string SCS_SOURCE SCS_DESTINATION
    SCS_SOURCE_MASK SCS_GROUP s = Ok (doc, s2) →
  ∃ rows, doc = csv_header +:+ print_rows rows ∧
    length (evt_tags e) = length rows ∧
    Forall2 (λ (tag : EVTTAG) row, ∃ sc t,
               (sc, t) ∈ exported_pairs s ∧
               tag.1 = tag_names t ∧
               Type_ row = utf8_escape_string (tag_names t)
                             (Z.of_nat (String.length (tag_names t))) ∧
               Number row = counter_value sc t ∧
               tag.2 = SourceName row +:+ "(" +:+ id sc +:+ log_separator sc
                       +:+ instance sc +:+ ")=" +:+ print_u (Number row))
      (evt_tags e) rows.
Proof.
  intros Hlog Hcsv.
  unfold stats_generate_log, bind, stats_lock, modify, get in Hlog.
  simpl in Hlog.
  destruct (foreach_format_log _ _ _ _ _ _ _) as [[e1 s1']| |] eqn:Hloop;
    try discriminate.
  apply foreach_format_log_tags in Hloop as (_ & tags & -> & Htags).
  unfold stats_unlock, modify, ret in Hlog. simpl in Hlog.
  injection Hlog as <- _. simpl in Htags. fold (exported_pairs s) in Htags.
  unfold stats_generate_csv, bind, stats_lock, modify, get in Hcsv.
  simpl in Hcsv.
  destruct (foreach_format_csv _ _ _ _ _ _ _ _) as [[csv s2']| |] eqn:Hloop;
    try discriminate.
  apply foreach_format_csv_pairs in Hloop as (_ & rows & -> & Hrows).
  unfold stats_unlock, modify, ret in Hcsv. simpl in Hcsv.
  injection Hcsv as <- _. simpl in Hrows. fold (exported_pairs s) in Hrows.
  exists rows. split; [done|]. simpl.
  pose proof (Forall2_same_left _ _ _ _ _ Htags Hrows) as Hboth.
  split; [by eapply Forall2_length|].
  eapply Forall2_impl; [exact Hboth|].
  intros tag row ([sc t] & Hin & Htag & s_id & s_instance & _ & _ & Hrow).
  simpl in *. exists sc, t. split; [done|].
  apply csv_source_name_log in Htag as (name & Hname & ->).
  unfold stats_format_csv_row in Hrow. rewrite Hname in Hrow. simpl in Hrow.
  rewrite escapevar_tag_name in Hrow. simpl in Hrow. injection Hrow as <-.
  done.
Qed.

End ExportFacts.

(** ** The severity and facility counters *)

Lemma keeps_records_touch s k f :
  (∀ sc, key_of (f sc) = key_of sc) →
  (∀ sc, dynamic sc = true → dynamic (f sc) = true) →
  (∀ sc t, is_live sc t = true → is_live (f sc) t = true) →
  keeps_records s (touch s k f).
Proof.
  intros Hkey Hdyn Hlive. unfold touch, with_record, addr_at, record_at. split; simpl.
  - intros k' a' Hk'. destruct (decide (k' = k)) as [->|Hne].
    + rewrite lookup_insert_eq, Hk'. done.
    + by rewrite lookup_insert_ne.
  - intros a' sc' Hsc'. destruct (counter_hash s !! k) as [a|] eqn:Hk; simpl.
    + destruct (decide (a' = a)) as [->|Hne].
      * rewrite lookup_insert_eq, Hsc'. simpl. eexists. split; [done|].
        split; [done|]. split; [by auto|by auto].
      * rewrite lookup_insert_ne by done. by exists sc'.
    + rewrite lookup_insert_ne; [by exists sc'|]. intros <-.
      assert (Hin : fresh (dom (heap s)) ∈ dom (heap s)) by (apply elem_of_dom; eauto).
      by apply is_fresh in Hin.
Qed.

Lemma addr_at_other s k k' a' sc' :
  wf s → k' ≠ k → counter_hash s !! k' = Some a' → heap s !! a' = Some sc' →
  a' ≠ addr_at s k.
Proof.
  intros Hwf Hne Hk' Hsc' ->. unfold addr_at in *.
  destruct (counter_hash s !! k) as [a|] eqn:Hk; simpl in *.
  - destruct (wf_live _ Hwf _ _ Hk) as (sc & Hsc & Hkey).
    destruct (wf_live _ Hwf _ _ Hk') as (sc2 & Hsc2 & Hkey2). congruence.
  - assert (Hin : fresh (dom (heap s)) ∈ dom (heap s)) by (apply elem_of_dom; eauto).
    by apply is_fresh in Hin.
Qed.

Lemma changes_only_touch s k f :
  wf s →
  (∀ sc, key_of (f sc) = key_of sc) →
  (∀ sc, 0 ≤ ref_cnt sc < 65536 → 0 ≤ ref_cnt (f sc) < 65536) →
  (∀ sc, dynamic sc = true → dynamic (f sc) = true) →
  (∀ sc t, is_live sc t = true → is_live (f sc) t = true) →
  changes_only s (touch s k f) k f.
Proof.
  intros Hwf Hkey Hrange Hdyn Hlive. split; [|split; [done|split; [done|split; [|split]]]].
  - apply wf_with_record; [done| |].
    + rewrite Hkey. by apply key_of_record_at.
    + apply Hrange. by apply ref_cnt_record_at.
  - by apply keeps_records_touch.
  - apply record_at_with_record.
  - intros k' Hne. unfold touch, with_record, record_at at 1. simpl.
    rewrite lookup_insert_ne by done. split; [|done].
    unfold record_at. destruct (counter_hash s !! k') as [a'|] eqn:Hk'; [|done].
    destruct (wf_live _ Hwf _ _ Hk') as (sc' & Hsc' & _).
    rewrite lookup_insert_ne; [done|].
    intros Heq. by eapply (addr_at_other s k k' a' sc').
Qed.

Lemma changes_only_refl s k : wf s → changes_only s s k (λ sc, sc).
Proof.
  intros Hwf. split; [done|]. split; [done|]. split; [done|].
  split; [apply keeps_records_refl|]. split; done.
Qed.

Lemma slot_ok_keeps s s' k c : keeps_records s s' → slot_ok s k c → slot_ok s' k c.
Proof.
  intros [Ht Hh]. destruct c as [h|]; [|done]. intros (a & sc & -> & Hk & Hsc & Hl).
  destruct (Hh _ _ Hsc) as (sc' & Hsc' & _ & _ & Hl').
  exists a, sc'. split; [done|]. split; [by apply Ht|]. split; [done|by apply Hl'].
Qed.

Lemma registered_facts t :
  (∀ sc, key_of (registered t sc) = key_of sc) ∧
  (∀ sc, 0 ≤ ref_cnt sc < 65536 → 0 ≤ ref_cnt (registered t sc) < 65536) ∧
  (∀ sc, dynamic sc = true → dynamic (registered t sc) = true) ∧
  (∀ sc t', is_live sc t' = true → is_live (registered t sc) t' = true).
Proof.
  split; [done|]. split; [|split; [done|]].
  - intros sc _. apply guint16_range.
  - intros sc t' Ht'. unfold registered. rewrite is_live_mark_live.
    rewrite (is_live_eq _ sc) by done. by rewrite Ht'.
Qed.

Lemma decr_facts :
  (∀ sc, key_of (set_ref_cnt decr sc) = key_of sc) ∧
  (∀ sc, 0 ≤ ref_cnt sc < 65536 → 0 ≤ ref_cnt (set_ref_cnt decr sc) < 65536) ∧
  (∀ sc, dynamic sc = true → dynamic (set_ref_cnt decr sc) = true) ∧
  (∀ sc t', is_live sc t' = true → is_live (set_ref_cnt decr sc) t' = true).
Proof.
  split; [done|]. split; [|split; [done|done]].
  intros sc _. apply guint16_range.
Qed.

Lemma register_step lvl src i ins t s :
  let k := key_for src i ins in
  wf s → stats_locked s = true → lvl ≤ current_stats_level s →
  stats_register_counter lvl src i ins t s =
    Ok (Some (addr_at s k, t), touch s k (registered t)) ∧
  changes_only s (touch s k (registered t)) k (registered t) ∧
  counter_hash (touch s k (registered t)) !! k = Some (addr_at s k).
Proof.
  intros k Hwf Hl Hlvl. split; [|split].
  - by rewrite stats_register_counter_ok by (try done; by apply wf_sound).
  - destruct (registered_facts t) as (H1 & H2 & H3 & H4).
    by apply changes_only_touch.
  - apply with_record_lookup.
Qed.

Lemma unregister_step src i ins c s :
  let k := key_for src i ins in
  wf s → stats_locked s = true → slot_ok s k c →
  ∃ s', stats_unregister_counter src i ins SC_TYPE_PROCESSED c s = Ok (None, s') ∧
        changes_only s s' k (unregistered_through c) ∧
        counter_hash s' = counter_hash s.
Proof.
  intros k Hwf Hl Hc. destruct c as [h|].
  - destruct Hc as (a & sc & -> & Hk & Hsc & Hlive).
    exists (touch s k (set_ref_cnt decr)).
    assert (Hrun : stats_unregister_counter src i ins SC_TYPE_PROCESSED
                     (Some (a, SC_TYPE_PROCESSED)) s =
                   Ok (None, touch s k (set_ref_cnt decr))).
    { rewrite stats_unregister_counter_run by done. fold k.
      rewrite Hk, Hsc, Hlive, item_ptr_eqb_refl. simpl. do 2 f_equal.
      unfold touch, with_record, set_heap.
      rewrite (addr_at_present _ _ _ Hk), (record_at_present _ _ _ _ Hk Hsc).
      by rewrite (insert_id (counter_hash s)) by done. }
    assert (Hch : changes_only s (touch s k (set_ref_cnt decr)) k
                    (set_ref_cnt decr)).
    { destruct decr_facts as (H1 & H2 & H3 & H4). by apply changes_only_touch. }
    assert (Htab : counter_hash (touch s k (set_ref_cnt decr)) = counter_hash s).
    { unfold touch. rewrite (addr_at_present _ _ _ Hk). by apply with_record_present. }
    done.
  - exists s. split; [|split; [by apply changes_only_refl|done]].
    unfold stats_unregister_counter, bind. by rewrite assert_locked_ok.
Qed.

Lemma array_set_ok (array : list StatsCounterItem_ptr) i c s :
  (i < length array)%nat →
  array_set array (Z.of_nat i) c s = Ok (<[i := c]> array, s).
Proof.
  intros Hi. unfold array_set.
  assert (H1 : (0 <=? Z.of_nat i) = true) by (apply Z.leb_le; lia).
  assert (H2 : (Z.of_nat i <? Z.of_nat (length array)) = true) by (apply Z.ltb_lt; lia).
  by rewrite H1, H2, Nat2Z.id.
Qed.

Lemma array_get_ok (array : list StatsCounterItem_ptr) i c s :
  array !! i = Some c → array_get array (Z.of_nat i) s = Ok (c, s).
Proof.
  intros Hi. unfold array_get.
  assert (H1 : (0 <=? Z.of_nat i) = true) by (apply Z.leb_le; lia).
  by rewrite H1, Nat2Z.id, Hi.
Qed.

Lemma numbered_key_inj src i j :
  numbered_key src i = numbered_key src j →
  snprintf_d (Z.of_nat i) = snprintf_d (Z.of_nat j).
Proof. unfold numbered_key, key_for. simpl. by intros [= ->]. Qed.

Lemma changes_only_then s s1 s2 k f k2 f2 :
  k2 ≠ k → changes_only s s1 k f → changes_only s1 s2 k2 f2 →
  record_at s2 k = f (record_at s k) ∧
  counter_hash s2 !! k = counter_hash s1 !! k.
Proof.
  intros Hne (_ & _ & _ & _ & Hk & _) (_ & _ & _ & _ & _ & Hframe).
  destruct (Hframe k) as [-> ->]; done.
Qed.

(** The registering loop over the indices [indices]. *)
Lemma reinit_register_run src :
  ∀ indices array s,
    wf s → stats_locked s = true → 3 ≤ current_stats_level s →
    NoDup ((λ i, snprintf_d (Z.of_nat i)) <$> indices) →
    (∀ i, i ∈ indices → (i < length array)%nat) →
    ∃ array' s',
      reinit_register src indices array s = Ok (array', s') ∧
      wf s' ∧ stats_locked s' = true ∧
      current_stats_level s' = current_stats_level s ∧
      keeps_records s s' ∧ length array' = length array ∧
      (∀ i, i ∉ indices → array' !! i = array !! i) ∧
      (∀ i, i ∈ indices →
         ∃ a, array' !! i = Some (Some (a, SC_TYPE_PROCESSED)) ∧
              counter_hash s' !! numbered_key src i = Some a ∧
              record_at s' (numbered_key src i) =
                registered SC_TYPE_PROCESSED (record_at s (numbered_key src i))) ∧
      (∀ k, (∀ i, i ∈ indices → k ≠ numbered_key src i) →
            record_at s' k = record_at s k ∧
            counter_hash s' !! k = counter_hash s !! k).
Proof.
  induction indices as [|i indices IH]; intros array s Hwf Hl Hlvl Hnd Hlen.
  - exists array, s. simpl. split; [done|]. split; [done|]. split; [done|].
    split; [done|]. split; [apply keeps_records_refl|]. split; [done|].
    split; [done|]. split; [|done]. intros i Hi. by apply elem_of_nil in Hi.
  - rewrite fmap_cons in Hnd. apply NoDup_cons in Hnd as [Hi Hnd].
    assert (Hkeys : ∀ j, j ∈ indices → numbered_key src j ≠ numbered_key src i).
    { intros j Hj Heq%numbered_key_inj. apply Hi. rewrite <- Heq.
      apply list_elem_of_fmap. by exists j. }
    assert (Hii : i ∉ indices).
    { intros Hin. by apply (Hkeys i Hin). }
    destruct (register_step 3 src None (Some (snprintf_d (Z.of_nat i)))
                SC_TYPE_PROCESSED s Hwf Hl Hlvl) as (Hrun & Hch & Haddr).
    fold (numbered_key src i) in Hrun, Hch, Haddr.
    set (k := numbered_key src i) in *.
    set (s1 := touch s k (registered SC_TYPE_PROCESSED)) in *.
    set (c := Some (addr_at s k, SC_TYPE_PROCESSED)) in *.
    pose proof Hch as (Hwf1 & Hl1 & Hlvl1 & Hkeep1 & Hrec1 & Hframe1).
    destruct (IH (<[i := c]> array) s1) as
      (array' & s' & Hloop & Hwf' & Hl' & Hlvl' & Hkeep' & Hlen' & Hout & Hin & Hframe).
    { done. } { congruence. } { lia. } { done. }
    { intros j Hj. rewrite length_insert. apply Hlen. by right. }
    exists array', s'. split.
    { cbn [reinit_register]. unfold bind at 1. rewrite Hrun. cbn beta iota.
      unfold bind at 1. rewrite array_set_ok by (apply Hlen; by left).
      exact Hloop. }
    split; [done|]. split; [done|]. split; [congruence|].
    split; [by eapply keeps_records_trans|].
    split; [by rewrite Hlen', length_insert|]. split; [|split].
    + intros j Hj. apply not_elem_of_cons in Hj as [Hji Hj].
      rewrite Hout by done. by rewrite list_lookup_insert_ne.
    + intros j Hj. apply elem_of_cons in Hj as [Hji|Hj].
      * subst j. fold k. exists (addr_at s k). rewrite Hout by done.
        rewrite list_lookup_insert_eq by (apply Hlen; by left).
        split; [done|]. destruct (Hframe k) as [Hr Ht].
        { intros j Hj Heq. by apply (Hkeys j Hj). }
        rewrite Ht, Hr. done.
      * destruct (Hin j Hj) as (a & Ha & Hk & Hr). exists a.
        split; [done|]. split; [done|]. rewrite Hr.
        destruct (Hframe1 (numbered_key src j)) as [-> _]; [by apply Hkeys|done].
    + intros k' Hk'. destruct (Hframe k') as [-> ->].
      { intros j Hj. apply Hk'. by right. }
      apply Hframe1. apply Hk'. by left.
Qed.

(** The unregistering loop over the indices [indices]. *)
Lemma reinit_unregister_run src :
  ∀ indices array s,
    wf s → stats_locked s = true →
    NoDup ((λ i, snprintf_d (Z.of_nat i)) <$> indices) →
    (∀ i, i ∈ indices →
       ∃ c, array !! i = Some c ∧ slot_ok s (numbered_key src i) c) →
    ∃ array' s',
      reinit_unregister src indices array s = Ok (array', s') ∧
      wf s' ∧ stats_locked s' = true ∧
      current_stats_level s' = current_stats_level s ∧
      keeps_records s s' ∧ counter_hash s' = counter_hash s ∧
      length array' = length array ∧
      (∀ i, i ∉ indices → array' !! i = array !! i) ∧
      (∀ i, i ∈ indices →
         array' !! i = Some None ∧
         ∃ c, array !! i = Some c ∧
              record_at s' (numbered_key src i) =
                unregistered_through c (record_at s (numbered_key src i))) ∧
      (∀ k, (∀ i, i ∈ indices → k ≠ numbered_key src i) →
            record_at s' k = record_at s k).
Proof.
  induction indices as [|i indices IH]; intros array s Hwf Hl Hnd Hslots.
  - exists array, s. simpl. split; [done|]. split; [done|]. split; [done|].
    split; [done|]. split; [apply keeps_records_refl|]. split; [done|].
    split; [done|]. split; [done|]. split; [|done].
    intros i Hi. by apply elem_of_nil in Hi.
  - rewrite fmap_cons in Hnd. apply NoDup_cons in Hnd as [Hi Hnd].
    assert (Hkeys : ∀ j, j ∈ indices → numbered_key src j ≠ numbered_key src i).
    { intros j Hj Heq%numbered_key_inj. apply Hi. rewrite <- Heq.
      apply list_elem_of_fmap. by exists j. }
    assert (Hii : i ∉ indices).
    { intros Hin. by apply (Hkeys i Hin). }
    destruct (Hslots i) as (c & Hc & Hok); [by left|].
    assert (Hlt : (i < length array)%nat) by (by eapply lookup_lt_Some).
    destruct (unregister_step src None (Some (snprintf_d (Z.of_nat i))) c s
                Hwf Hl Hok) as (s1 & Hrun & Hch & Htab).
    fold (numbered_key src i) in Hch.
    set (k := numbered_key src i) in *.
    pose proof Hch as (Hwf1 & Hl1 & Hlvl1 & Hkeep1 & Hrec1 & Hframe1).
    destruct (IH (<[i := None]> array) s1) as
      (array' & s' & Hloop & Hwf' & Hl' & Hlvl' & Hkeep' & Htab' & Hlen' & Hout
       & Hin & Hframe).
    { done. } { congruence. } { done. }
    { intros j Hj. destruct (Hslots j) as (cj & Hcj & Hokj); [by right|].
      exists cj. split.
      - rewrite list_lookup_insert_ne; [done|]. intros ->. done.
      - by eapply slot_ok_keeps. }
    exists array', s'. split.
    { cbn [reinit_unregister]. unfold bind at 1. rewrite (array_get_ok _ _ c) by done.
      cbn beta iota. unfold bind at 1. rewrite Hrun. cbn beta iota.
      unfold bind at 1. rewrite array_set_ok by done. exact Hloop. }
    split; [done|]. split; [done|]. split; [congruence|].
    split; [by eapply keeps_records_trans|]. split; [congruence|].
    split; [by rewrite Hlen', length_insert|]. split; [|split].
    + intros j Hj. apply not_elem_of_cons in Hj as [Hji Hj].
      rewrite Hout by done. by rewrite list_lookup_insert_ne.
    + intros j Hj. apply elem_of_cons in Hj as [Hji|Hj].
      * subst j. fold k. rewrite Hout by done.
        rewrite list_lookup_insert_eq by done. split; [done|].
        exists c. split; [done|]. rewrite Hframe; [done|].
        intros j Hj Heq. by apply (Hkeys j Hj).
      * destruct (Hin j Hj) as (Hnone & cj & Hcj & Hr). split; [done|].
        exists cj. split.
        { rewrite list_lookup_insert_ne in Hcj; [done|]. intros ->. done. }
        rewrite Hr. destruct (Hframe1 (numbered_key src j)) as [-> _];
          [by apply Hkeys|done].
    + intros k' Hk'. rewrite Hframe.
      * apply Hframe1. apply Hk'. by left.
      * intros j Hj. apply Hk'. by right.
Qed.

Lemma severity_names_NoDup :
  NoDup ((λ i, snprintf_d (Z.of_nat i)) <$> seq 0 SEVERITY_MAX).
Proof. apply (bool_decide_unpack _). vm_compute. exact I. Qed.

Lemma facility_names_NoDup :
  NoDup (((λ i, snprintf_d (Z.of_nat i)) <$> seq 0 (FACILITY_MAX - 1))
         ++ ["other"%string]).
Proof. apply (bool_decide_unpack _). vm_compute. exact I. Qed.

Lemma facility_numbers_NoDup :
  NoDup ((λ i, snprintf_d (Z.of_nat i)) <$> seq 0 (FACILITY_MAX - 1)).
Proof.
  pose proof facility_names_NoDup as H.
  by apply NoDup_app in H as (? & _ & _).
Qed.

Lemma other_not_numbered i :
  (i < FACILITY_MAX - 1)%nat → snprintf_d (Z.of_nat i) ≠ "other"%string.
Proof.
  intros Hi Heq. pose proof facility_names_NoDup as H.
  apply NoDup_app in H as (_ & Hno & _).
  apply (Hno "other"%string); [|by left].
  apply list_elem_of_fmap. exists i. split; [done|]. apply elem_of_seq. lia.
Qed.

Lemma wf_same s s' :
  counter_hash s' = counter_hash s → heap s' = heap s → wf s → wf s'.
Proof.
  intros Ht Hh [H1 H2]. split.
  - intros k a. rewrite Ht, Hh. apply H1.
  - intros a sc. rewrite Hh. apply H2.
Qed.

Section ReinitFacts.

Variables SCS_SEVERITY SCS_FACILITY SCS_SOURCE : Z.

Local Abbreviation sev_source := (Z.lor SCS_SEVERITY SCS_SOURCE).
Local Abbreviation fac_source := (Z.lor SCS_FACILITY SCS_SOURCE).
Local Abbreviation skey := (severity_key SCS_SEVERITY SCS_SOURCE).
Local Abbreviation fkey := (facility_key SCS_FACILITY SCS_SOURCE).
Local Abbreviation other_key := (key_for fac_source None (Some "other"%string)).
Local Abbreviation reinit := (stats_reinit SCS_SEVERITY SCS_FACILITY SCS_SOURCE).
Local Abbreviation consistent := (slots_ok SCS_SEVERITY SCS_FACILITY SCS_SOURCE).

(** The two categories differ as 16-bit sources, so that a severity and a
    facility with the same number are different counters. *)
Hypothesis sources_differ : guint16 sev_source ≠ guint16 fac_source.

Lemma skey_fkey i j : skey i ≠ fkey j.
Proof.
  unfold severity_key, facility_key, numbered_key, key_for.
  destruct (j <? FACILITY_MAX - 1)%nat; simpl; intros [= H]; done.
Qed.

Lemma skey_numbered i j : skey i ≠ numbered_key fac_source j.
Proof. unfold severity_key, numbered_key, key_for. simpl. intros [= H]. done. Qed.

Lemma skey_other i : skey i ≠ other_key.
Proof. unfold severity_key, numbered_key, key_for. simpl. intros [= H]. done. Qed.

Lemma fkey_numbered i : (i < FACILITY_MAX - 1)%nat → fkey i = numbered_key fac_source i.
Proof.
  intros Hi. unfold facility_key.
  by destruct (Nat.ltb_spec i (FACILITY_MAX - 1)); [|lia].
Qed.

Lemma fkey_other : fkey (FACILITY_MAX - 1) = other_key.
Proof. done. Qed.

Lemma numbered_other i :
  (i < FACILITY_MAX - 1)%nat → numbered_key fac_source i ≠ other_key.
Proof.
  intros Hi. unfold numbered_key, key_for. simpl. intros [= H].
  by apply (other_not_numbered i).
Qed.

Lemma facility_index i :
  (i < FACILITY_MAX)%nat → (i < FACILITY_MAX - 1)%nat ∨ i = (FACILITY_MAX - 1)%nat.
Proof. unfold FACILITY_MAX. lia. Qed.

(** The registering branch of [stats_reinit]. *)
Lemma stats_reinit_counters_enable severity facility s :
  wf s → stats_locked s = true → 3 ≤ current_stats_level s →
  length severity = SEVERITY_MAX → length facility = FACILITY_MAX →
  ∃ severity' facility' s',
    stats_reinit_counters SCS_SEVERITY SCS_FACILITY SCS_SOURCE severity facility s
      = Ok (severity', facility', s') ∧
    wf s' ∧ stats_locked s' = true ∧
    current_stats_level s' = current_stats_level s ∧
    keeps_records s s' ∧
    length severity' = SEVERITY_MAX ∧ length facility' = FACILITY_MAX ∧
    (∀ i, (i < SEVERITY_MAX)%nat →
       ∃ a, severity' !! i = Some (Some (a, SC_TYPE_PROCESSED)) ∧
            counter_hash s' !! skey i = Some a ∧
            record_at s' (skey i) = registered SC_TYPE_PROCESSED (record_at s (skey i))) ∧
    (∀ i, (i < FACILITY_MAX)%nat →
       ∃ a, facility' !! i = Some (Some (a, SC_TYPE_PROCESSED)) ∧
            counter_hash s' !! fkey i = Some a ∧
            record_at s' (fkey i) = registered SC_TYPE_PROCESSED (record_at s (fkey i))) ∧
    (∀ k, (∀ i, (i < SEVERITY_MAX)%nat → k ≠ skey i) →
          (∀ i, (i < FACILITY_MAX)%nat → k ≠ fkey i) →
          record_at s' k = record_at s k ∧
          counter_hash s' !! k = counter_hash s !! k).
Proof.
  intros Hwf Hl Hlvl Hlens Hlenf.
  destruct (reinit_register_run sev_source (seq 0 SEVERITY_MAX) severity s)
    as (sev' & s1 & Hrun1 & Hwf1 & Hl1 & Hlvl1 & Hkeep1 & Hlen1 & _ & Hin1 & Hframe1);
    [done|done|done|apply severity_names_NoDup| |].
  { intros i Hi%elem_of_seq. lia. }
  destruct (reinit_register_run fac_source (seq 0 (FACILITY_MAX - 1)) facility s1)
    as (fac2 & s2 & Hrun2 & Hwf2 & Hl2 & Hlvl2 & Hkeep2 & Hlen2 & Hout2 & Hin2 & Hframe2);
    [done|done|lia|apply facility_numbers_NoDup| |].
  { intros i Hi%elem_of_seq. unfold FACILITY_MAX in *. lia. }
  destruct (register_step 3 fac_source None (Some "other"%string)
              SC_TYPE_PROCESSED s2 Hwf2 Hl2) as (Hrun3 & Hch3 & Haddr3); [lia|].
  set (s3 := touch s2 other_key (registered SC_TYPE_PROCESSED)) in *.
  pose proof Hch3 as (Hwf3 & Hl3 & Hlvl3 & Hkeep3 & Hrec3 & Hframe3).
  set (c := Some (addr_at s2 other_key, SC_TYPE_PROCESSED)) in *.
  exists sev', (<[(FACILITY_MAX - 1)%nat := c]> fac2), s3.
  split.
  { unfold stats_reinit_counters, bind at 1, stats_check_level.
    assert (H3 : (3 <=? current_stats_level s) = true) by (apply Z.leb_le; lia).
    rewrite H3. unfold bind at 1. rewrite Hrun1. cbn beta iota.
    unfold bind at 1. rewrite Hrun2. cbn beta iota.
    unfold bind at 1. rewrite Hrun3. cbn beta iota.
    unfold bind at 1. rewrite array_set_ok; [done|].
    rewrite Hlen2, Hlenf. unfold FACILITY_MAX. lia. }
  split; [done|]. split; [congruence|]. split; [congruence|].
  split; [eapply keeps_records_trans; [|exact Hkeep3];
          by eapply keeps_records_trans|].
  split; [congruence|]. split; [by rewrite length_insert, Hlen2|].
  split; [|split].
  - intros i Hi. destruct (Hin1 i) as (a & Ha & Hk & Hr); [apply elem_of_seq; lia|].
    fold (skey i) in Hk, Hr. exists a. split; [done|].
    destruct (Hframe2 (skey i)) as [Hr2 Ht2].
    { intros j _. apply skey_numbered. }
    destruct (Hframe3 (skey i)) as [Hr3 Ht3]; [apply skey_other|].
    split; congruence.
  - intros i Hi. destruct (facility_index i Hi) as [Hlt| ->].
    + rewrite (fkey_numbered i Hlt).
      destruct (Hin2 i) as (a & Ha & Hk & Hr); [apply elem_of_seq; lia|].
      exists a. rewrite list_lookup_insert_ne by lia. split; [done|].
      destruct (Hframe3 (numbered_key fac_source i)) as [Hr3 Ht3];
        [by apply numbered_other|].
      destruct (Hframe1 (numbered_key fac_source i)) as [Hr1 _].
      { intros j _ Heq. by apply (skey_numbered j i). }
      split; congruence.
    + rewrite fkey_other. exists (addr_at s2 other_key).
      rewrite list_lookup_insert_eq by (rewrite Hlen2, Hlenf; unfold FACILITY_MAX; lia).
      split; [done|]. split; [done|]. rewrite Hrec3.
      destruct (Hframe2 other_key) as [-> _].
      { intros j Hj%elem_of_seq Heq. apply (numbered_other j); [lia|done]. }
      destruct (Hframe1 other_key) as [-> _]; [|done].
      intros j _ Heq. by apply (skey_other j).
  - intros k Hs Hf.
    destruct (Hframe3 k) as [-> ->].
    { rewrite <- fkey_other. apply Hf. unfold FACILITY_MAX. lia. }
    destruct (Hframe2 k) as [-> ->].
    { intros j Hj%elem_of_seq. rewrite <- fkey_numbered by lia. apply Hf.
      unfold FACILITY_MAX in *. lia. }
    apply Hframe1. intros j Hj%elem_of_seq. apply Hs. lia.
Qed.

Lemma all_null (array : list StatsCounterItem_ptr) n :
  length array = n → (∀ i, (i < n)%nat → array !! i = Some None) →
  array = replicate n None.
Proof.
  intros Hlen Hall. apply list_eq. intros i.
  destruct (decide (i < n)%nat) as [Hi|Hi].
  - rewrite Hall by done. symmetry. by apply lookup_replicate_2.
  - rewrite !lookup_ge_None_2; [done| |]; rewrite ?length_replicate; lia.
Qed.

(** The unregistering branch of [stats_reinit]. *)
Lemma stats_reinit_counters_disable severity facility s :
  wf s → stats_locked s = true → current_stats_level s < 3 →
  length severity = SEVERITY_MAX → length facility = FACILITY_MAX →
  (∀ i c, severity !! i = Some c → slot_ok s (skey i) c) →
  (∀ i c, facility !! i = Some c → slot_ok s (fkey i) c) →
  ∃ s',
    stats_reinit_counters SCS_SEVERITY SCS_FACILITY SCS_SOURCE severity facility s
      = Ok (replicate SEVERITY_MAX None, replicate FACILITY_MAX None, s') ∧
    wf s' ∧ stats_locked s' = true ∧
    current_stats_level s' = current_stats_level s ∧
    keeps_records s s' ∧ counter_hash s' = counter_hash s ∧
    (∀ i c, severity !! i = Some c →
       record_at s' (skey i) = unregistered_through c (record_at s (skey i))) ∧
    (∀ i c, facility !! i = Some c →
       record_at s' (fkey i) = unregistered_through c (record_at s (fkey i))) ∧
    (∀ k, (∀ i, (i < SEVERITY_MAX)%nat → k ≠ skey i) →
          (∀ i, (i < FACILITY_MAX)%nat → k ≠ fkey i) →
          record_at s' k = record_at s k).
Proof.
  intros Hwf Hl Hlvl Hlens Hlenf Hsev Hfac.
  destruct (reinit_unregister_run sev_source (seq 0 SEVERITY_MAX) severity s)
    as (sev' & s1 & Hrun1 & Hwf1 & Hl1 & Hlvl1 & Hkeep1 & Htab1 & Hlen1 & _
        & Hin1 & Hframe1);
    [done|done|apply severity_names_NoDup| |].
  { intros i Hi%elem_of_seq.
    destruct (lookup_lt_is_Some_2 severity i) as [c Hc]; [lia|].
    exists c. split; [done|]. by apply Hsev. }
  destruct (reinit_unregister_run fac_source (seq 0 (FACILITY_MAX - 1)) facility s1)
    as (fac2 & s2 & Hrun2 & Hwf2 & Hl2 & Hlvl2 & Hkeep2 & Htab2 & Hlen2 & Hout2
        & Hin2 & Hframe2);
    [done|done|apply facility_numbers_NoDup| |].
  { intros i Hi%elem_of_seq.
    destruct (lookup_lt_is_Some_2 facility i) as [c Hc];
      [unfold FACILITY_MAX in *; lia|].
    exists c. split; [done|]. rewrite <- fkey_numbered by lia.
    eapply slot_ok_keeps; [exact Hkeep1|]. by apply Hfac. }
  destruct (lookup_lt_is_Some_2 facility (FACILITY_MAX - 1)) as [c Hc];
    [unfold FACILITY_MAX in *; lia|].
  assert (Hc2 : fac2 !! (FACILITY_MAX - 1)%nat = Some c).
  { rewrite Hout2; [done|]. intros Hi%elem_of_seq. lia. }
  destruct (unregister_step fac_source None (Some "other"%string) c s2 Hwf2 Hl2)
    as (s3 & Hrun3 & Hch3 & Htab3).
  { eapply slot_ok_keeps; [exact Hkeep2|]. eapply slot_ok_keeps; [exact Hkeep1|].
    rewrite <- fkey_other. by apply Hfac. }
  pose proof Hch3 as (Hwf3 & Hl3 & Hlvl3 & Hkeep3 & Hrec3 & Hframe3).
  exists s3.
  assert (Hsev' : sev' = replicate SEVERITY_MAX None).
  { apply all_null; [congruence|]. intros i Hi.
    apply Hin1. apply elem_of_seq. lia. }
  assert (Hfac' : <[(FACILITY_MAX - 1)%nat := None]> fac2 = replicate FACILITY_MAX None).
  { apply all_null; [rewrite length_insert; congruence|]. intros i Hi.
    destruct (facility_index i Hi) as [Hlt| ->].
    - rewrite list_lookup_insert_ne by lia. apply Hin2. apply elem_of_seq. lia.
    - apply list_lookup_insert_eq. rewrite Hlen2, Hlenf. unfold FACILITY_MAX. lia. }
  split.
  { unfold stats_reinit_counters, bind at 1, stats_check_level.
    assert (H3 : (3 <=? current_stats_level s) = false) by (apply Z.leb_gt; lia).
    rewrite H3. unfold bind at 1. rewrite Hrun1. cbn beta iota.
    unfold bind at 1. rewrite Hrun2. cbn beta iota.
    unfold bind at 1. rewrite (array_get_ok _ _ c) by done. cbn beta iota.
    unfold bind at 1. rewrite Hrun3. cbn beta iota.
    unfold bind at 1. rewrite array_set_ok.
    - unfold ret. by rewrite Hsev', Hfac'.
    - rewrite Hlen2, Hlenf. unfold FACILITY_MAX. lia. }
  split; [done|]. split; [congruence|]. split; [congruence|].
  split; [eapply keeps_records_trans; [|exact Hkeep3];
          by eapply keeps_records_trans|].
  split; [congruence|]. split; [|split].
  - intros i ci Hci.
    assert (Hi : (i < SEVERITY_MAX)%nat) by (rewrite <- Hlens; by eapply lookup_lt_Some).
    destruct (Hin1 i) as (_ & c' & Hc' & Hr); [apply elem_of_seq; lia|].
    fold (skey i) in Hr. assert (c' = ci) as -> by congruence.
    destruct (Hframe3 (skey i)) as [-> _]; [apply skey_other|].
    rewrite Hframe2; [done|]. intros j _. apply skey_numbered.
  - intros i ci Hci.
    assert (Hi : (i < FACILITY_MAX)%nat) by (rewrite <- Hlenf; by eapply lookup_lt_Some).
    destruct (facility_index i Hi) as [Hlt| ->].
    + rewrite (fkey_numbered i Hlt).
      destruct (Hin2 i) as (_ & c' & Hc' & Hr); [apply elem_of_seq; lia|].
      assert (c' = ci) as -> by congruence.
      destruct (Hframe3 (numbered_key fac_source i)) as [-> _];
        [by apply numbered_other|].
      rewrite Hr. f_equal. apply Hframe1.
      intros j _ Heq. by apply (skey_numbered j i).
    + rewrite fkey_other. assert (c = ci) as -> by congruence.
      rewrite Hrec3. f_equal. rewrite Hframe2.
      * apply Hframe1. intros j _ Heq. by apply (skey_other j).
      * intros j Hj%elem_of_seq Heq. apply (numbered_other j); [lia|done].
  - intros k Hs Hf.
    destruct (Hframe3 k) as [-> _].
    { rewrite <- fkey_other. apply Hf. unfold FACILITY_MAX. lia. }
    rewrite Hframe2.
    + apply Hframe1. intros j Hj%elem_of_seq. apply Hs. lia.
    + intros j Hj%elem_of_seq. rewrite <- fkey_numbered by lia. apply Hf.
      unfold FACILITY_MAX in *. lia.
Qed.

Lemma stats_reinit_unfold lvl g severity facility s1 :
  stats_reinit_counters SCS_SEVERITY SCS_FACILITY SCS_SOURCE
    (severity_counters g) (facility_counters g)
    (set_stats_locked true (set_current_stats_level lvl (registry g)))
    = Ok (severity, facility, s1) →
  reinit lvl g = Ok (mkGlobals (set_stats_locked false s1) severity facility).
Proof.
  intros Hrun. unfold stats_reinit, bind, modify, stats_lock, modify.
  cbn beta iota. rewrite Hrun. done.
Qed.

Lemma slots_ok_enabled s severity facility :
  wf s → length severity = SEVERITY_MAX → length facility = FACILITY_MAX →
  (∀ i, (i < SEVERITY_MAX)%nat →
     ∃ a, severity !! i = Some (Some (a, SC_TYPE_PROCESSED)) ∧
          counter_hash s !! skey i = Some a ∧
          is_live (record_at s (skey i)) SC_TYPE_PROCESSED = true) →
  (∀ i, (i < FACILITY_MAX)%nat →
     ∃ a, facility !! i = Some (Some (a, SC_TYPE_PROCESSED)) ∧
          counter_hash s !! fkey i = Some a ∧
          is_live (record_at s (fkey i)) SC_TYPE_PROCESSED = true) →
  consistent (mkGlobals s severity facility).
Proof.
  intros Hwf Hlens Hlenf Hsev Hfac.
  split; [done|]. split; [done|]. split; [done|]. simpl. split.
  - intros i c Hc.
    assert (Hi : (i < SEVERITY_MAX)%nat) by (rewrite <- Hlens; by eapply lookup_lt_Some).
    destruct (Hsev i Hi) as (a & Ha & Hk & Hlive).
    assert (c = Some (a, SC_TYPE_PROCESSED)) as -> by congruence.
    destruct (wf_live _ Hwf _ _ Hk) as (sc & Hsc & _).
    exists a, sc. rewrite (record_at_present _ _ _ _ Hk Hsc) in Hlive. done.
  - intros i c Hc.
    assert (Hi : (i < FACILITY_MAX)%nat) by (rewrite <- Hlenf; by eapply lookup_lt_Some).
    destruct (Hfac i Hi) as (a & Ha & Hk & Hlive).
    assert (c = Some (a, SC_TYPE_PROCESSED)) as -> by congruence.
    destruct (wf_live _ Hwf _ _ Hk) as (sc & Hsc & _).
    exists a, sc. rewrite (record_at_present _ _ _ _ Hk Hsc) in Hlive. done.
Qed.

Lemma is_live_registered t sc : is_live (registered t sc) t = true.
Proof. apply is_live_mark_live_same. Qed.

(** A call of [stats_reinit] with a level of 3 or more. *)
Lemma stats_reinit_enable_run lvl g :
  wf (registry g) →
  length (severity_counters g) = SEVERITY_MAX →
  length (facility_counters g) = FACILITY_MAX →
  3 ≤ lvl →
  ∃ g',
    reinit lvl g = Ok g' ∧ consistent g' ∧
    stats_locked (registry g') = false ∧
    current_stats_level (registry g') = lvl ∧
    keeps_records (registry g) (registry g') ∧
    (∀ i, (i < SEVERITY_MAX)%nat →
       ∃ a, severity_counters g' !! i = Some (Some (a, SC_TYPE_PROCESSED)) ∧
            counter_hash (registry g') !! skey i = Some a ∧
            record_at (registry g') (skey i) =
              registered SC_TYPE_PROCESSED (record_at (registry g) (skey i))) ∧
    (∀ i, (i < FACILITY_MAX)%nat →
       ∃ a, facility_counters g' !! i = Some (Some (a, SC_TYPE_PROCESSED)) ∧
            counter_hash (registry g') !! fkey i = Some a ∧
            record_at (registry g') (fkey i) =
              registered SC_TYPE_PROCESSED (record_at (registry g) (fkey i))) ∧
    (∀ k, (∀ i, (i < SEVERITY_MAX)%nat → k ≠ skey i) →
          (∀ i, (i < FACILITY_MAX)%nat → k ≠ fkey i) →
          record_at (registry g') k = record_at (registry g) k ∧
          counter_hash (registry g') !! k = counter_hash (registry g) !! k).
Proof.
  intros Hwf Hlens Hlenf Hlvl.
  set (s0 := set_stats_locked true (set_current_stats_level lvl (registry g))).
  assert (Hwf0 : wf s0) by (by apply (wf_same (registry g))).
  destruct (stats_reinit_counters_enable (severity_counters g) (facility_counters g)
              s0 Hwf0) as
    (sev' & fac' & s1 & Hrun & Hwf1 & Hl1 & Hlvl1 & Hkeep & Hlens' & Hlenf'
     & Hsev & Hfac & Hframe); [done|done|done|done|].
  exists (mkGlobals (set_stats_locked false s1) sev' fac').
  split; [by apply stats_reinit_unfold|].
  assert (Hwf' : wf (set_stats_locked false s1)) by (by apply (wf_same s1)).
  split.
  { apply slots_ok_enabled; [done|done|done| |].
    - intros i Hi. destruct (Hsev i Hi) as (a & Ha & Hk & Hr). exists a.
      split; [done|]. split; [done|].
      change (record_at (set_stats_locked false s1) (skey i)) with (record_at s1 (skey i)).
      rewrite Hr. apply is_live_registered.
    - intros i Hi. destruct (Hfac i Hi) as (a & Ha & Hk & Hr). exists a.
      split; [done|]. split; [done|].
      change (record_at (set_stats_locked false s1) (fkey i)) with (record_at s1 (fkey i)).
      rewrite Hr. apply is_live_registered. }
  split; [done|]. split; [done|]. split; [exact Hkeep|].
  split; [exact Hsev|]. split; [exact Hfac|exact Hframe].
Qed.

(** A call of [stats_reinit] with a level below 3. *)
Lemma stats_reinit_disable_run lvl g :
  consistent g → lvl < 3 →
  ∃ g',
    reinit lvl g = Ok g' ∧ consistent g' ∧
    stats_locked (registry g') = false ∧
    current_stats_level (registry g') = lvl ∧
    keeps_records (registry g) (registry g') ∧
    counter_hash (registry g') = counter_hash (registry g) ∧
    severity_counters g' = replicate SEVERITY_MAX None ∧
    facility_counters g' = replicate FACILITY_MAX None ∧
    (∀ i c, severity_counters g !! i = Some c →
       record_at (registry g') (skey i) =
         unregistered_through c (record_at (registry g) (skey i))) ∧
    (∀ i c, facility_counters g !! i = Some c →
       record_at (registry g') (fkey i) =
         unregistered_through c (record_at (registry g) (fkey i))) ∧
    (∀ k, (∀ i, (i < SEVERITY_MAX)%nat → k ≠ skey i) →
          (∀ i, (i < FACILITY_MAX)%nat → k ≠ fkey i) →
          record_at (registry g') k = record_at (registry g) k).
Proof.
  intros (Hwf & Hlens & Hlenf & Hsev & Hfac) Hlvl.
  set (s0 := set_stats_locked true (set_current_stats_level lvl (registry g))).
  assert (Hwf0 : wf s0) by (by apply (wf_same (registry g))).
  destruct (stats_reinit_counters_disable (severity_counters g) (facility_counters g)
              s0 Hwf0) as
    (s1 & Hrun & Hwf1 & Hl1 & Hlvl1 & Hkeep & Htab & Hsev' & Hfac' & Hframe);
    [done|done|done|done|exact Hsev|exact Hfac|].
  exists (mkGlobals (set_stats_locked false s1) (replicate SEVERITY_MAX None)
            (replicate FACILITY_MAX None)).
  split; [by apply stats_reinit_unfold|].
  assert (Hwf' : wf (set_stats_locked false s1)) by (by apply (wf_same s1)).
  split.
  { split; [done|]. split; [apply length_replicate|].
    split; [apply length_replicate|].
    cbn [severity_counters facility_counters registry]. split.
    - intros i c [-> _]%lookup_replicate. done.
    - intros i c [-> _]%lookup_replicate. done. }
  split; [done|]. split; [done|]. split; [exact Hkeep|]. split; [exact Htab|].
  split; [done|]. split; [done|]. split; [exact Hsev'|]. split; [exact Hfac'|].
  exact Hframe.
Qed.

(** X13: [stats_reinit] with a level of 3 or more, on a well-formed
    registry and whatever the two arrays held before. The call returns with
    the lock released and the level stored; each of the 8 severity slots
    and 25 facility slots holds the address of the "processed" counter of
    the record of its key, which is in the table, live for "processed", and
    has one reference more than the key had before (modulo 65536), with the
    counter values and the dynamic flag it had. No other key is touched. *)
Theorem stats_reinit_registers lvl g :
  wf (registry g) →
  length (severity_counters g) = SEVERITY_MAX →
  length (facility_counters g) = FACILITY_MAX →
  3 ≤ lvl →
  ∃ g',
    reinit lvl g = Ok g' ∧ wf (registry g') ∧
    stats_locked (registry g') = false ∧
    current_stats_level (registry g') = lvl ∧
    (∀ i, (i < SEVERITY_MAX)%nat →
       ∃ a sc, severity_counters g' !! i = Some (Some (a, SC_TYPE_PROCESSED)) ∧
               counter_hash (registry g') !! skey i = Some a ∧
               heap (registry g') !! a = Some sc ∧
               is_live sc SC_TYPE_PROCESSED = true ∧
               ref_cnt sc = guint16 (ref_cnt (record_at (registry g) (skey i)) + 1) ∧
               counters sc = counters (record_at (registry g) (skey i)) ∧
               dynamic sc = dynamic (record_at (registry g) (skey i))) ∧
    (∀ i, (i < FACILITY_MAX)%nat →
       ∃ a sc, facility_counters g' !! i = Some (Some (a, SC_TYPE_PROCESSED)) ∧
               counter_hash (registry g') !! fkey i = Some a ∧
               heap (registry g') !! a = Some sc ∧
               is_live sc SC_TYPE_PROCESSED = true ∧
               ref_cnt sc = guint16 (ref_cnt (record_at (registry g) (fkey i)) + 1) ∧
               counters sc = counters (record_at (registry g) (fkey i)) ∧
               dynamic sc = dynamic (record_at (registry g) (fkey i))) ∧
    (∀ k, (∀ i, (i < SEVERITY_MAX)%nat → k ≠ skey i) →
          (∀ i, (i < FACILITY_MAX)%nat → k ≠ fkey i) →
          record_at (registry g') k = record_at (registry g) k ∧
          counter_hash (registry g') !! k = counter_hash (registry g) !! k).
Proof.
  intros Hwf Hlens Hlenf Hlvl.
  destruct (stats_reinit_enable_run lvl g Hwf Hlens Hlenf Hlvl) as
    (g' & Hrun & (Hwf' & _) & Hl & Hlv & _ & Hsev & Hfac & Hframe).
  exists g'. split; [done|]. split; [done|]. split; [done|]. split; [done|].
  split; [|split; [|exact Hframe]].
  - intros i Hi. destruct (Hsev i Hi) as (a & Ha & Hk & Hr).
    destruct (wf_live _ Hwf' _ _ Hk) as (sc & Hsc & _).
    rewrite (record_at_present _ _ _ _ Hk Hsc) in Hr. exists a, sc.
    split; [done|]. split; [done|]. split; [done|]. rewrite Hr.
    split; [apply is_live_registered|done].
  - intros i Hi. destruct (Hfac i Hi) as (a & Ha & Hk & Hr).
    destruct (wf_live _ Hwf' _ _ Hk) as (sc & Hsc & _).
    rewrite (record_at_present _ _ _ _ Hk Hsc) in Hr. exists a, sc.
    split; [done|]. split; [done|]. split; [done|]. rewrite Hr.
    split; [apply is_live_registered|done].
Qed.

(** X14: [stats_reinit] with a level below 3, on consistent globals, the
    severity and the facility category differing as 16-bit sources. The
    call returns with the lock released and the level stored; every slot of
    the two arrays is NULL afterwards; the record behind a slot that was
    not NULL has lost one reference (modulo 65536), the record of a slot
    that was NULL and every other record are as before. No entry leaves
    the table: the unused counters stay, orphaned. *)
Theorem stats_reinit_unregisters lvl g :
  consistent g → lvl < 3 →
  ∃ g',
    reinit lvl g = Ok g' ∧ consistent g' ∧
    stats_locked (registry g') = false ∧
    current_stats_level (registry g') = lvl ∧
    counter_hash (registry g') = counter_hash (registry g) ∧
    severity_counters g' = replicate SEVERITY_MAX None ∧
    facility_counters g' = replicate FACILITY_MAX None ∧
    (∀ i h, severity_counters g !! i = Some (Some h) →
       record_at (registry g') (skey i) =
         set_ref_cnt (λ n, guint16 (n - 1)) (record_at (registry g) (skey i))) ∧
    (∀ i, severity_counters g !! i = Some None →
       record_at (registry g') (skey i) = record_at (registry g) (skey i)) ∧
    (∀ i h, facility_counters g !! i = Some (Some h) →
       record_at (registry g') (fkey i) =
         set_ref_cnt (λ n, guint16 (n - 1)) (record_at (registry g) (fkey i))) ∧
    (∀ i, facility_counters g !! i = Some None →
       record_at (registry g') (fkey i) = record_at (registry g) (fkey i)) ∧
    (∀ k, (∀ i, (i < SEVERITY_MAX)%nat → k ≠ skey i) →
          (∀ i, (i < FACILITY_MAX)%nat → k ≠ fkey i) →
          record_at (registry g') k = record_at (registry g) k).
Proof.
  intros Hok Hlvl.
  destruct (stats_reinit_disable_run lvl g Hok Hlvl) as
    (g' & Hrun & Hok' & Hl & Hlv & _ & Htab & Hs & Hf & Hsev & Hfac & Hframe).
  exists g'. split; [done|]. split; [done|]. split; [done|]. split; [done|].
  split; [done|]. split; [done|]. split; [done|].
  split; [intros i h Hi; by apply (Hsev i (Some h))|].
  split; [intros i Hi; by apply (Hsev i None)|].
  split; [intros i h Hi; by apply (Hfac i (Some h))|].
  split; [intros i Hi; by apply (Hfac i None)|done].
Qed.

Lemma reinit_times_enable_run n lvl :
  ∀ g,
    wf (registry g) →
    length (severity_counters g) = SEVERITY_MAX →
    length (facility_counters g) = FACILITY_MAX →
    3 ≤ lvl →
    ∃ g',
      reinit_times SCS_SEVERITY SCS_FACILITY SCS_SOURCE (S n) lvl g = Ok g' ∧
      consistent g' ∧
      (∀ i, (i < SEVERITY_MAX)%nat →
         (∃ h, severity_counters g' !! i = Some (Some h)) ∧
         is_Some (counter_hash (registry g') !! skey i) ∧
         ref_cnt (record_at (registry g') (skey i)) =
           guint16 (ref_cnt (record_at (registry g) (skey i)) + Z.of_nat (S n))) ∧
      (∀ i, (i < FACILITY_MAX)%nat →
         (∃ h, facility_counters g' !! i = Some (Some h)) ∧
         is_Some (counter_hash (registry g') !! fkey i) ∧
         ref_cnt (record_at (registry g') (fkey i)) =
           guint16 (ref_cnt (record_at (registry g) (fkey i)) + Z.of_nat (S n))).
Proof.
  induction n as [|n IH]; intros g Hwf Hlens Hlenf Hlvl.
  - destruct (stats_reinit_enable_run lvl g Hwf Hlens Hlenf Hlvl) as
      (g' & Hrun & Hok' & _ & _ & _ & Hsev & Hfac & _).
    exists g'. split; [by cbn [reinit_times]; rewrite Hrun|]. split; [done|]. split.
    + intros i Hi. destruct (Hsev i Hi) as (a & Ha & Hk & ->).
      split; [by eauto|]. split; [by eauto|]. done.
    + intros i Hi. destruct (Hfac i Hi) as (a & Ha & Hk & ->).
      split; [by eauto|]. split; [by eauto|]. done.
  - destruct (stats_reinit_enable_run lvl g Hwf Hlens Hlenf Hlvl) as
      (g1 & Hrun & (Hwf1 & Hlens1 & Hlenf1 & _) & _ & _ & _ & Hsev & Hfac & _).
    destruct (IH g1 Hwf1 Hlens1 Hlenf1 Hlvl) as (g' & Hrun' & Hok' & Hsev' & Hfac').
    exists g'. split.
    { change (reinit_times SCS_SEVERITY SCS_FACILITY SCS_SOURCE (S (S n)) lvl g)
        with (g0 <~ reinit lvl g ;;
              reinit_times SCS_SEVERITY SCS_FACILITY SCS_SOURCE (S n) lvl g0).
      rewrite Hrun. exact Hrun'. }
    split; [done|]. split.
    + intros i Hi. destruct (Hsev' i Hi) as (Hh & Hk & ->).
      destruct (Hsev i Hi) as (_ & _ & _ & ->).
      split; [done|]. split; [done|].
      change (ref_cnt (registered SC_TYPE_PROCESSED ?r)) with (guint16 (ref_cnt r + 1)).
      rewrite guint16_add. f_equal. lia.
    + intros i Hi. destruct (Hfac' i Hi) as (Hh & Hk & ->).
      destruct (Hfac i Hi) as (_ & _ & _ & ->).
      split; [done|]. split; [done|].
      change (ref_cnt (registered SC_TYPE_PROCESSED ?r)) with (guint16 (ref_cnt r + 1)).
      rewrite guint16_add. f_equal. lia.
Qed.

(** X15: [stats_reinit] does not remember that it has registered, the
    severity and the facility category differing as 16-bit sources. After
    [n + 1] calls with a level of 3 or more and then one call with a level
    below 3, every slot of the two arrays is NULL, while each of the 33
    records is still in the table and keeps [n] references more than its
    key had at the start (modulo 65536): each call that registers again
    overwrites the handle of the call before it, and only one reference is
    ever given back. *)
Theorem stats_reinit_repeated n lvl lvl' g :
  wf (registry g) →
  length (severity_counters g) = SEVERITY_MAX →
  length (facility_counters g) = FACILITY_MAX →
  3 ≤ lvl → lvl' < 3 →
  ∃ g1 g2,
    reinit_times SCS_SEVERITY SCS_FACILITY SCS_SOURCE (S n) lvl g = Ok g1 ∧
    reinit lvl' g1 = Ok g2 ∧
    severity_counters g2 = replicate SEVERITY_MAX None ∧
    facility_counters g2 = replicate FACILITY_MAX None ∧
    (∀ i, (i < SEVERITY_MAX)%nat →
       is_Some (counter_hash (registry g2) !! skey i) ∧
       ref_cnt (record_at (registry g2) (skey i)) =
         guint16 (ref_cnt (record_at (registry g) (skey i)) + Z.of_nat n)) ∧
    (∀ i, (i < FACILITY_MAX)%nat →
       is_Some (counter_hash (registry g2) !! fkey i) ∧
       ref_cnt (record_at (registry g2) (fkey i)) =
         guint16 (ref_cnt (record_at (registry g) (fkey i)) + Z.of_nat n)).
Proof.
  intros Hwf Hlens Hlenf Hlvl Hlvl'.
  destruct (reinit_times_enable_run n lvl g Hwf Hlens Hlenf Hlvl) as
    (g1 & Hrun1 & Hok1 & Hsev1 & Hfac1).
  destruct (stats_reinit_disable_run lvl' g1 Hok1 Hlvl') as
    (g2 & Hrun2 & _ & _ & _ & _ & Htab & Hs & Hf & Hsev2 & Hfac2 & _).
  exists g1, g2. split; [done|]. split; [done|]. split; [done|]. split; [done|].
  split.
  - intros i Hi. destruct (Hsev1 i Hi) as ([h Hh] & Hk & Hr).
    rewrite Htab. split; [done|]. rewrite (Hsev2 i (Some h) Hh).
    change (ref_cnt (unregistered_through (Some h) ?r)) with (guint16 (ref_cnt r - 1)).
    rewrite Hr. rewrite <- Z.add_opp_r, guint16_add. f_equal. lia.
  - intros i Hi. destruct (Hfac1 i Hi) as ([h Hh] & Hk & Hr).
    rewrite Htab. split; [done|]. rewrite (Hfac2 i (Some h) Hh).
    change (ref_cnt (unregistered_through (Some h) ?r)) with (guint16 (ref_cnt r - 1)).
    rewrite Hr. rewrite <- Z.add_opp_r, guint16_add. f_equal. lia.
Qed.

(** *** Counting a message by its priority *)

Lemma inc_step k c s :
  wf s → slot_ok s k c →
  ∃ s', stats_counter_inc c s = Ok (tt, s') ∧
        changes_only s s' k (counted_through c) ∧
        counter_hash s' = counter_hash s.
Proof.
  intros Hwf Hc. destruct c as [h|].
  - destruct Hc as (a & sc & -> & Hk & Hsc & Hlive).
    set (f := set_counter SC_TYPE_PROCESSED (λ v, v + 1)).
    exists (touch s k f).
    assert (Hrun : stats_counter_inc (Some (a, SC_TYPE_PROCESSED)) s =
                   Ok (tt, touch s k f)).
    { simpl. rewrite (update_ok _ _ _ sc) by done. do 2 f_equal.
      unfold touch, with_record, set_heap.
      rewrite (addr_at_present _ _ _ Hk), (record_at_present _ _ _ _ Hk Hsc).
      by rewrite (insert_id (counter_hash s)) by done. }
    assert (Hch : changes_only s (touch s k f) k f) by (by apply changes_only_touch).
    assert (Htab : counter_hash (touch s k f) = counter_hash s).
    { unfold touch. rewrite (addr_at_present _ _ _ Hk). by apply with_record_present. }
    done.
  - exists s. split; [done|]. split; [by apply changes_only_refl|done].
Qed.

(** [LOG_PRI] and [LOG_FAC] of the syslog headers. *)
Variables LOG_PRI LOG_FAC : Z → Z.

(** X16: [stats_counter_inc_pri] on consistent globals, the severity and
    the facility category differing as 16-bit sources, for a priority whose
    severity [LOG_PRI] is in 0..7 and whose facility [LOG_FAC] is not
    negative. The call returns without touching the arrays or the table.
    It counts the message in the severity slot [LOG_PRI] and in the
    facility slot [LOG_FAC], or in the last facility slot, the one of
    "other", when [LOG_FAC] is 24 or more: the "processed" counter behind a
    slot that is not NULL goes up by one, a NULL slot is skipped, and no
    other record changes. *)
Theorem stats_counter_inc_pri_counts pri g :
  let i := Z.to_nat (LOG_PRI (guint16 pri)) in
  let j := Z.to_nat (Z.min (LOG_FAC (guint16 pri)) 24) in
  consistent g →
  0 ≤ LOG_PRI (guint16 pri) < 8 → 0 ≤ LOG_FAC (guint16 pri) →
  ∃ g',
    stats_counter_inc_pri LOG_PRI LOG_FAC pri g = Ok g' ∧ consistent g' ∧
    severity_counters g' = severity_counters g ∧
    facility_counters g' = facility_counters g ∧
    counter_hash (registry g') = counter_hash (registry g) ∧
    (∀ c, severity_counters g !! i = Some c →
       record_at (registry g') (skey i) =
         counted_through c (record_at (registry g) (skey i))) ∧
    (∀ c, facility_counters g !! j = Some c →
       record_at (registry g') (fkey j) =
         counted_through c (record_at (registry g) (fkey j))) ∧
    (∀ k, k ≠ skey i → k ≠ fkey j →
          record_at (registry g') k = record_at (registry g) k).
Proof.
  intros i j (Hwf & Hlens & Hlenf & Hsev & Hfac) Hpri Hfacr.
  destruct (lookup_lt_is_Some_2 (severity_counters g) i) as [ci Hci].
  { rewrite Hlens. unfold i, SEVERITY_MAX. lia. }
  destruct (lookup_lt_is_Some_2 (facility_counters g) j) as [cj Hcj].
  { rewrite Hlenf. unfold j, FACILITY_MAX. lia. }
  destruct (inc_step (skey i) ci (registry g) Hwf (Hsev _ _ Hci)) as
    (s1 & Hrun1 & Hch1 & Htab1).
  pose proof Hch1 as (Hwf1 & _ & _ & Hkeep1 & Hrec1 & Hframe1).
  destruct (inc_step (fkey j) cj s1 Hwf1) as (s2 & Hrun2 & Hch2 & Htab2).
  { eapply slot_ok_keeps; [exact Hkeep1|]. by apply Hfac. }
  pose proof Hch2 as (Hwf2 & _ & _ & Hkeep2 & Hrec2 & Hframe2).
  exists (mkGlobals s2 (severity_counters g) (facility_counters g)). split.
  { unfold stats_counter_inc_pri. cbv zeta. unfold bind at 1.
    replace (LOG_PRI (guint16 pri)) with (Z.of_nat i) by (unfold i; lia).
    rewrite (array_get_ok _ _ ci) by done. cbn beta iota.
    unfold bind at 1. rewrite Hrun1. cbn beta iota. unfold bind at 1.
    replace (if Z.of_nat (FACILITY_MAX - 1) <? LOG_FAC (guint16 pri)
             then Z.of_nat (FACILITY_MAX - 1) else LOG_FAC (guint16 pri))
      with (Z.of_nat j).
    2:{ unfold j, FACILITY_MAX.
        destruct (Z.ltb_spec (Z.of_nat (25 - 1)) (LOG_FAC (guint16 pri))); lia. }
    rewrite (array_get_ok _ _ cj) by done. cbn beta iota.
    rewrite Hrun2. done. }
  split.
  { split; [done|]. split; [done|]. split; [done|].
    cbn [severity_counters facility_counters registry]. split.
    - intros n c Hc. eapply slot_ok_keeps; [exact Hkeep2|].
      eapply slot_ok_keeps; [exact Hkeep1|]. by apply Hsev.
    - intros n c Hc. eapply slot_ok_keeps; [exact Hkeep2|].
      eapply slot_ok_keeps; [exact Hkeep1|]. by apply Hfac. }
  cbn [severity_counters facility_counters registry].
  split; [done|]. split; [done|]. split; [congruence|]. split; [|split].
  - intros c Hc. assert (c = ci) as -> by congruence.
    destruct (Hframe2 (skey i)) as [-> _]; [apply skey_fkey|done].
  - intros c Hc. assert (c = cj) as -> by congruence.
    rewrite Hrec2. f_equal. apply Hframe1. intros Heq. by apply (skey_fkey i j).
  - intros k Hks Hkf. destruct (Hframe2 k Hkf) as [-> _]. by apply Hframe1.
Qed.

End ReinitFacts.

(** ** A counted message and the sweep *)

(** The composite with a timestamp that fits the counter, on a key that is
    free or whose record is dynamic or orphaned: the record it leaves
    behind. *)
Lemma register_and_increment_stamped lvl src i ins T s :
  let k := key_for src i ins in
  let pre := record_at s k in
  wf s → stats_locked s = true → lvl ≤ current_stats_level s →
  (dynamic pre = true ∨ ref_cnt pre = 0) → 0 ≤ T < 2147483648 →
  ∃ sc,
    stats_register_and_increment_dynamic_counter lvl src i ins T s =
      Ok (tt, with_record s k (addr_at s k) sc) ∧
    dynamic sc = true ∧ ref_cnt sc = ref_cnt pre ∧
    is_live sc SC_TYPE_STAMP = true ∧ counter_value sc SC_TYPE_STAMP = T.
Proof.
  intros k pre Hwf Hlk Hl Hpre HT.
  assert (Hs : sound_at s k) by by apply wf_sound.
  assert (Hrange : 0 ≤ ref_cnt pre < 65536) by (by apply ref_cnt_record_at).
  unfold stats_register_and_increment_dynamic_counter.
  unfold bind at 1. rewrite assert_locked_ok by done.
  unfold bind at 1. rewrite stats_register_dynamic_counter_run by done.
  fold k. fold pre.
  replace (negb (ref_cnt pre =? 0) && negb (dynamic pre)) with false.
  2:{ destruct Hpre as [-> | ->]; [by rewrite andb_false_r | done]. }
  set (a := addr_at s k).
  unfold bind at 1. unfold stats_counter_inc. rewrite update_with_record.
  assert (H0T : (0 <=? T) = true) by (apply Z.leb_le; lia). rewrite H0T.
  unfold bind at 1. unfold bind at 1.
  erewrite stats_register_associated_counter_run
    by (try done; apply with_record_lookup).
  simpl dynamic. cbv iota. rewrite set_heap_with_record.
  unfold bind at 1. unfold stats_counter_set. rewrite update_with_record.
  rewrite stats_unregister_dynamic_counter_run by done.
  rewrite (proj2 (with_record_lookup _ _ _ _)).
  replace (is_live _ SC_TYPE_STAMP) with true.
  2:{ symmetry. live_as (mark_live SC_TYPE_STAMP (mark_live SC_TYPE_PROCESSED pre)).
      apply is_live_mark_live_same. }
  rewrite item_ptr_eqb_refl. cbv iota beta. simpl andb. cbv iota.
  rewrite set_heap_with_record.
  rewrite stats_unregister_dynamic_counter_run by done.
  rewrite (proj2 (with_record_lookup _ _ _ _)).
  replace (is_live _ SC_TYPE_PROCESSED) with true.
  2:{ symmetry. live_as (mark_live SC_TYPE_STAMP (mark_live SC_TYPE_PROCESSED pre)).
      rewrite is_live_mark_live, is_live_mark_live_same. done. }
  rewrite item_ptr_eqb_refl. simpl andb. cbv iota.
  rewrite set_heap_with_record.
  eexists. split; [reflexivity|]. split; [done|]. split.
  { simpl ref_cnt. rewrite decr_incr by apply guint16_range. by apply decr_incr. }
  split.
  { live_as (mark_live SC_TYPE_STAMP (mark_live SC_TYPE_PROCESSED pre)).
    apply is_live_mark_live_same. }
  value_as (set_counter SC_TYPE_STAMP (λ _, gint T)
              (set_counter SC_TYPE_PROCESSED (λ v, v + 1) pre)).
  by apply gint_small.
Qed.

(** X17: a counted message expires. After
    [stats_register_and_increment_dynamic_counter] with a timestamp
    [0 <= T < 2^31], which the 32-bit counter keeps as it is, on a key that
    is free or whose record is dynamic or orphaned, a sweep at [now] with
    [lifetime] removes the record of the key if and only if the key had no
    reference before the call and [T <= now - lifetime]: the call leaves no
    reference of its own, and the stamp it stores is what the sweep
    compares. *)
Theorem counted_record_expires lvl src i ins T now lifetime s :
  let k := key_for src i ins in
  let pre := record_at s k in
  wf s → stats_locked s = true → lvl ≤ current_stats_level s →
  (dynamic pre = true ∨ ref_cnt pre = 0) → 0 ≤ T < 2147483648 →
  ∃ s1 r s2,
    stats_register_and_increment_dynamic_counter lvl src i ins T s = Ok (tt, s1) ∧
    is_Some (counter_hash s1 !! k) ∧
    stats_prune_old_counters now lifetime s1 = Ok (r, s2) ∧
    (counter_hash s2 !! k = None ↔ ref_cnt pre = 0 ∧ T ≤ now - lifetime).
Proof.
  intros k pre Hwf Hlk Hl Hpre HT.
  destruct (register_and_increment_stamped lvl src i ins T s Hwf Hlk Hl Hpre HT)
    as (sc & Hrun & Hdyn & Hrc & Hlive & Hstamp).
  fold k in Hrun. fold pre in Hrc.
  set (a := addr_at s k) in *. set (s1 := with_record s k a sc) in *.
  assert (Hwf1 : wf s1) by (by eapply preserves_stats_register_and_increment).
  destruct (with_record_lookup s k a sc) as [Hk Ha]. fold s1 in Hk, Ha.
  exists s1. eexists. eexists. split; [exact Hrun|]. split; [by eauto|].
  split; [by apply stats_prune_old_counters_run|].
  cbn [counter_hash].
  assert (Hin : k ∈ (stale now lifetime s1).*1 ↔ too_old now lifetime sc = true).
  { rewrite list_elem_of_fmap. split.
    - intros ([k' a'] & -> & Hin). apply elem_of_stale in Hin as (Hk' & sc' & Hsc' & Hp).
      simpl in *. congruence.
    - intros Hp. exists (k, a). split; [done|]. apply elem_of_stale. eauto. }
  assert (Hr : 0 ≤ ref_cnt sc) by (apply (wf_ref _ Hwf1) in Ha; lia).
  rewrite (too_old_spec now lifetime sc Hr) in Hin.
  rewrite <- is_live_testbit, Hdyn, Hrc, Hlive, Hstamp in Hin.
  split.
  - intros Hnone. destruct (decide (k ∈ (stale now lifetime s1).*1)) as [Hd|Hd].
    + apply Hin in Hd as (_ & ? & _ & ?). done.
    + rewrite lookup_foldr_delete_not_elem_of in Hnone by done. congruence.
  - intros [H0 Hle]. apply lookup_foldr_delete. apply Hin. done.
Qed.

(** ** Find or create *)

(** X18: an admitted [stats_register_counter] finds or creates exactly one
    record. In a well-formed registry with the lock held and the level met
    the call returns a handle; the table grows by one entry when the key
    was free and keeps its size otherwise; a created record carries the
    16-bit source, the id and the instance of the call, with all counters
    zero, one reference, the one live bit of the type, and not dynamic; and
    no other key's entry or record changes. *)
Theorem registration_finds_or_creates lvl src i ins t s :
  let k := key_for src i ins in
  wf s → stats_locked s = true → lvl ≤ current_stats_level s →
  ∃ a s',
    stats_register_counter lvl src i ins t s = Ok (Some (a, t), s') ∧
    counter_hash s' !! k = Some a ∧
    size (counter_hash s') =
      match counter_hash s !! k with
      | Some _ => size (counter_hash s)
      | None => S (size (counter_hash s))
      end ∧
    (counter_hash s !! k = None →
       heap s !! a = None ∧
       heap s' !! a =
         Some (mkStatsCounter (vreplicate SC_TYPE_MAX 0) 1 (guint16 src)
                 (default EmptyString i) (default EmptyString ins)
                 (Z.shiftl 1 (type_num t)) false)) ∧
    (∀ k', k' ≠ k → counter_hash s' !! k' = counter_hash s !! k' ∧
                    record_at s' k' = record_at s k').
Proof.
  intros k Hwf Hlk Hl.
  destruct (register_step lvl src i ins t s Hwf Hlk Hl) as (Hrun & Hch & Haddr).
  fold k in Hrun, Hch, Haddr.
  destruct Hch as (_ & _ & _ & _ & _ & Hframe).
  exists (addr_at s k), (touch s k (registered t)).
  split; [done|]. split; [done|]. split; [|split].
  - unfold touch, with_record. cbn [counter_hash].
    rewrite map_size_insert. by destruct (counter_hash s !! k).
  - intros Hk. split; [by apply addr_at_absent_fresh|].
    unfold touch. rewrite (proj2 (with_record_lookup _ _ _ _)).
    rewrite record_at_absent by done. f_equal.
    unfold registered, mark_live, set_live_mask, set_ref_cnt, blank, incr, k, key_for.
    cbn. f_equal. rewrite guint16_small; [done|].
    destruct t; split; vm_compute; done.
  - intros k' Hne. destruct (Hframe k' Hne) as [H1 H2]. done.
Qed.

(** ** Shared-counter identity *)

Lemma run_call_keeps_address c s s' k a :
  wf s → run_call c s = Ok (tt, s') →
  counter_hash s !! k = Some a → is_Some (counter_hash s' !! k) →
  counter_hash s' !! k = Some a.
Proof.
  intros Hwf Hrun Hk Hstay. destruct (is_prune c) eqn:Hc.
  - destruct c; try discriminate. simpl in Hrun. unfold bind in Hrun.
    rewrite stats_prune_old_counters_run in Hrun by done.
    injection Hrun as <-. cbn [counter_hash] in *.
    destruct Hstay as [a' Ha'].
    pose proof Ha' as Ha''. apply lookup_foldr_delete_Some in Ha'' as [_ Ha''].
    congruence.
  - destruct (monotone_run_call c Hc s tt s' Hrun) as [Ht _]. by apply Ht.
Qed.

Lemma run_calls_keep_address cs :
  ∀ s s' k a,
    wf s → run_calls cs s = Ok (tt, s') →
    counter_hash s !! k = Some a → key_stays k cs s →
    counter_hash s' !! k = Some a.
Proof.
  induction cs as [|c cs IH]; intros s s' k a Hwf Hrun Hk Hstay.
  - by inversion Hrun; subst.
  - simpl in Hrun, Hstay. unfold bind in Hrun.
    destruct (run_call c s) as [[[] s1]| |] eqn:Hc; try discriminate.
    destruct Hstay as [Hs1 Hstay].
    eapply (IH s1); [by eapply preserves_run_call|done| |done].
    by eapply run_call_keeps_address.
Qed.

Lemma key_stays_sweep_free cs :
  ∀ s k, forallb (λ c, negb (is_prune c)) cs = true →
         is_Some (counter_hash s !! k) → key_stays k cs s.
Proof.
  induction cs as [|c cs IH]; intros s k Hcs [a Hk]; [done|].
  simpl in Hcs. apply andb_true_iff in Hcs as [Hc Hcs].
  apply negb_true_iff in Hc. simpl.
  destruct (run_call c s) as [[[] s1]| |] eqn:Hrun; try done.
  destruct (monotone_run_call c Hc s tt s1 Hrun) as [Ht _].
  split; [by eauto|]. apply IH; [done|by eauto].
Qed.

Lemma register_by_key_handle d lvl src i ins t s h s' :
  register_by_key d lvl src i ins t s = Ok (Some h, s') →
  h = (addr_at s (key_for src i ins), t) ∧
  counter_hash s' !! key_for src i ins = Some (addr_at s (key_for src i ins)).
Proof.
  destruct d; simpl.
  - unfold bind.
    destruct (stats_register_dynamic_counter lvl src i ins t s)
      as [[[[sc c] n] s1]| |] eqn:Hrun; try discriminate.
    intros [= -> <-].
    destruct (stats_register_dynamic_counter_inv _ _ _ _ _ _ _ _ _ _ Hrun)
      as (L & A & S).
    rewrite stats_register_dynamic_counter_run in Hrun by done.
    destruct (negb _ && negb _) in Hrun; [done|].
    injection Hrun as _ <- _ <-. split; [done|]. apply with_record_lookup.
  - intros Hrun.
    destruct (stats_register_counter_inv _ _ _ _ _ _ _ _ Hrun) as (L & A & S).
    rewrite stats_register_counter_ok in Hrun by done.
    injection Hrun as <- <-. split; [done|]. apply with_record_lookup.
Qed.

(** C6, as the code has it. A registration by key, static or dynamic, that
    is admitted on a well-formed registry with the lock held (and, if
    dynamic, does not meet a static record in use) returns a handle, and
    that handle is the address of the slot of the counter type in the
    record that the table then holds for the key: the record that was
    there before the call, if there was one. The keys are compared as
    [stats_counter_equal] does. After any interface calls during which the
    key stays in the table, a second registration of the same key and type
    that returns a handle returns this same handle, whichever of static
    and dynamic the two registrations are. *)
Theorem register_twice_same_handle d1 d2 lvl1 lvl2 src1 src2 i1 i2 ins1 ins2 t cs s :
  let k := key_for src1 i1 ins1 in
  key_for src2 i2 ins2 = k →
  wf s → stats_locked s = true → lvl1 ≤ current_stats_level s →
  (d1 = true → dynamic (record_at s k) = true ∨ ref_cnt (record_at s k) = 0) →
  ∃ a s1,
    register_by_key d1 lvl1 src1 i1 ins1 t s = Ok (Some (a, t), s1) ∧
    counter_hash s1 !! k = Some a ∧
    (∃ sc, heap s1 !! a = Some sc ∧ key_of sc = k ∧ is_live sc t = true) ∧
    (∀ a0, counter_hash s !! k = Some a0 → a = a0) ∧
    ∀ s2 h2 s3,
      run_calls cs s1 = Ok (tt, s2) → key_stays k cs s1 →
      register_by_key d2 lvl2 src2 i2 ins2 t s2 = Ok (Some h2, s3) →
      h2 = (a, t) ∧ counter_hash s3 !! k = Some a.
Proof.
  intros k Hk2 Hwf Hlk Hl Hd1.
  assert (Hs : sound_at s k) by (by apply wf_sound).
  assert (Hfirst : ∃ s1, register_by_key d1 lvl1 src1 i1 ins1 t s =
                           Ok (Some (addr_at s k, t), s1) ∧
                         is_live (record_at s1 k) t = true).
  { destruct d1; simpl.
    - unfold bind. rewrite stats_register_dynamic_counter_run by done.
      fold k. destruct (Hd1 eq_refl) as [Hd|Hr].
      + rewrite Hd, andb_false_r. eexists. split; [reflexivity|].
        rewrite record_at_with_record. apply is_live_mark_live_same.
      + rewrite Hr. simpl. eexists. split; [reflexivity|].
        rewrite record_at_with_record. apply is_live_mark_live_same.
    - rewrite stats_register_counter_ok by done. fold k.
      eexists. split; [reflexivity|].
      rewrite record_at_with_record. apply is_live_mark_live_same. }
  destruct Hfirst as (s1 & Hrun1 & Hlive1).
  destruct (register_by_key_handle _ _ _ _ _ _ _ _ _ Hrun1) as [_ Hk1].
  fold k in Hk1.
  assert (Hwf1 : wf s1).
  { destruct d1; simpl in Hrun1.
    - unfold bind in Hrun1.
      destruct (stats_register_dynamic_counter lvl1 src1 i1 ins1 t s)
        as [[r s0]| |] eqn:Hr; try discriminate.
      injection Hrun1 as _ <-.
      by eapply preserves_stats_register_dynamic_counter.
    - by eapply preserves_stats_register_counter. }
  exists (addr_at s k), s1. split; [done|]. split; [done|]. split; [|split].
  - destruct (wf_live _ Hwf1 _ _ Hk1) as (sc & Hsc & Hkey).
    exists sc. split; [done|]. split; [done|].
    by rewrite (record_at_present _ _ _ _ Hk1 Hsc) in Hlive1.
  - intros a0 Ha0. by apply addr_at_present.
  - intros s2 h2 s3 Hcs Hstay Hrun2.
    pose proof (run_calls_keep_address cs s1 s2 k _ Hwf1 Hcs Hk1 Hstay) as Hk2'.
    destruct (register_by_key_handle _ _ _ _ _ _ _ _ _ Hrun2) as [-> Hk3].
    rewrite Hk2 in *. rewrite (addr_at_present _ _ _ Hk2') in *. done.
Qed.

(** C6 as stated fails across a sweep. A dynamic registration of a stamp
    counter is given a stamp and unregistered; the sweep removes the
    orphaned record; another key is registered; then the first key is
    registered again. Both registrations of the first key return a handle,
    and the two handles differ: the address of the first now lies in the
    record of the other key. *)
Lemma handle_changes_across_sweep :
  ∃ s',
    (r <- stats_register_dynamic_counter 3 259 None (Some "10.0.0.1"%string)
            SC_TYPE_STAMP ;;
     stats_counter_set r.1.2 1000 ;;;
     stats_unregister_dynamic_counter r.1.1 SC_TYPE_STAMP r.1.2 ;;;
     stats_prune_old_counters 2000 100 ;;;
     stats_lock ;;;
     stats_register_counter 3 257 (Some "s1"%string) None SC_TYPE_STAMP ;;;
     h2 <- register_by_key true 3 259 None (Some "10.0.0.1"%string)
             SC_TYPE_STAMP ;;
     ret (r.1.2, h2)) demo_level3 =
      Ok ((Some (1%positive, SC_TYPE_STAMP), Some (2%positive, SC_TYPE_STAMP)), s').
Proof. eexists. vm_compute. reflexivity. Qed.

(** ** The statements at sample registries *)

Lemma wf_demo_level3 : wf demo_level3.
Proof. split; simpl; intros ? ?; rewrite lookup_empty; discriminate. Qed.

Lemma wf_demo_registry : wf demo_registry.
Proof.
  split; simpl.
  - intros k a [[<- <-]|[_ [<- <-]%lookup_singleton_Some]]%lookup_insert_Some.
    + exists demo_stale. split; reflexivity.
    + exists demo_static. split; reflexivity.
  - intros a sc [[<- <-]|[_ [<- <-]%lookup_singleton_Some]]%lookup_insert_Some;
      unfold demo_stale, demo_static; simpl; lia.
Qed.

(** The sweep at time 2000 with lifetime 100 on the sample registry: the
    stale dynamic record goes, the static record stays. *)
Lemma prune_removes_iff_witness :
  wf demo_registry ∧
  ∃ r s',
    stats_prune_old_counters 2000 100 demo_registry = Ok (r, s') ∧
    counter_hash s' !! (259, EmptyString, "10.0.0.1"%string) = None ∧
    counter_hash s' !! (257, "s1"%string, EmptyString) = Some 2%positive.
Proof.
  split; [exact wf_demo_registry|].
  destruct (prune_removes_iff 2000 100 demo_registry wf_demo_registry)
    as (r & s' & Hrun & _ & Hrec).
  exists r, s'. split; [exact Hrun|]. split.
  - apply (Hrec _ 1%positive demo_stale); [reflexivity|reflexivity|].
    split; [reflexivity|]. split; [reflexivity|]. split; [reflexivity|].
    vm_compute. discriminate.
  - apply (Hrec _ 2%positive demo_static); reflexivity.
Defined.

(** Three registrations and two unregistrations from an empty registry leave
    one reference. *)
Lemma ref_cnt_after_lifecycle_witness :
  ∃ a sc,
    counter_hash
      (final_state (run_lifecycle 1 257 (Some "s1"%string) None SC_TYPE_PROCESSED
                      demo_lifecycle) demo_level3)
      !! key_for 257 (Some "s1"%string) None = Some a ∧
    heap
      (final_state (run_lifecycle 1 257 (Some "s1"%string) None SC_TYPE_PROCESSED
                      demo_lifecycle) demo_level3) !! a = Some sc ∧
    ref_cnt sc = 1.
Proof.
  destruct (ref_cnt_after_lifecycle 1 257 (Some "s1"%string) None
              SC_TYPE_PROCESSED demo_lifecycle demo_level3
              (final_state (run_lifecycle 1 257 (Some "s1"%string) None
                              SC_TYPE_PROCESSED demo_lifecycle) demo_level3))
    as (a & sc & Ha & Hsc & _ & Hr & _).
  - reflexivity.
  - simpl. lia.
  - reflexivity.
  - repeat constructor.
  - vm_compute. reflexivity.
  - discriminate.
  - exists a, sc. split; [exact Ha|]. split; [exact Hsc|].
    apply Hr. simpl. lia.
Defined.

(** Level 5 asked for at configured level 3. *)
Lemma register_level_not_met_witness :
  stats_register_counter 5 257 (Some "s1"%string) None SC_TYPE_PROCESSED demo_level3
    = Ok (None, demo_level3) ∧
  stats_register_dynamic_counter 5 259 None (Some "10.0.0.1"%string)
    SC_TYPE_PROCESSED demo_level3 = Ok (None, None, None, demo_level3).
Proof.
  split.
  - apply (register_level_not_met 5 257 (Some "s1"%string) None
             SC_TYPE_PROCESSED demo_level3); [reflexivity | simpl; lia].
  - apply (register_level_not_met 5 259 None (Some "10.0.0.1"%string)
             SC_TYPE_PROCESSED demo_level3); [reflexivity | simpl; lia].
Defined.

(** The orphaned dynamic record of the sample registry registered again. *)
Lemma register_orphaned_reports_new_witness :
  ∃ s' sc',
    stats_register_dynamic_counter 3 259 None (Some "10.0.0.1"%string)
      SC_TYPE_PROCESSED (set_stats_locked true demo_registry)
      = Ok (Some 1%positive, Some (1%positive, SC_TYPE_PROCESSED), Some true, s') ∧
    revived (set_stats_locked true demo_registry) s' 1%positive demo_stale sc'.
Proof.
  apply (register_orphaned_reports_new 3 259 None (Some "10.0.0.1"%string)
           SC_TYPE_PROCESSED (set_stats_locked true demo_registry)
           1%positive demo_stale).
  - reflexivity.
  - simpl. lia.
  - reflexivity.
  - reflexivity.
  - reflexivity.
Defined.

(** ** The further statements at sample registries *)

Lemma wf_demo_registry_locked : wf demo_registry_locked.
Proof. apply (wf_same demo_registry); [done|done|apply wf_demo_registry]. Qed.

Lemma demo_sources_differ :
  guint16 (Z.lor demo_SCS_SEVERITY demo_SCS_SOURCE) ≠
  guint16 (Z.lor demo_SCS_FACILITY demo_SCS_SOURCE).
Proof. vm_compute. discriminate. Qed.

(** A batch of calls and a sweep on the sample registry. *)
Lemma interface_keeps_wf_witness :
  wf (final_state (run_calls demo_calls) demo_registry).
Proof.
  apply (interface_keeps_wf demo_calls demo_registry);
    [exact wf_demo_registry | vm_compute; reflexivity].
Defined.

(** The batch without the sweep. *)
Lemma only_the_sweep_removes_witness :
  keeps_records demo_registry
    (final_state (run_calls demo_calls_no_sweep) demo_registry).
Proof.
  apply (only_the_sweep_removes demo_calls_no_sweep demo_registry);
    [reflexivity | vm_compute; reflexivity].
Defined.

(** The sample registry, whose lock is not held. *)
Lemma unlocked_call_aborts_witness :
  stats_register_counter 0 257 (Some "s1"%string) None SC_TYPE_PROCESSED
    demo_registry = AssertFail ∧
  stats_unregister_counter 257 (Some "s1"%string) None SC_TYPE_PROCESSED None
    demo_registry = AssertFail.
Proof.
  destruct (unlocked_call_aborts demo_registry eq_refl) as (H1 & _ & _ & H4 & _).
  split; [apply H1 | apply H4].
Defined.

(** The static record of the sample registry unregistered through its own
    handle and through the handle of the other record. *)
Lemma unregister_contract_witness :
  stats_unregister_counter 257 (Some "s1"%string) None SC_TYPE_PROCESSED
    (Some (2%positive, SC_TYPE_PROCESSED)) demo_registry_locked =
    Ok (None, set_heap (insert 2%positive (set_ref_cnt decr demo_static))
                demo_registry_locked) ∧
  stats_unregister_counter 257 (Some "s1"%string) None SC_TYPE_PROCESSED
    (Some (1%positive, SC_TYPE_PROCESSED)) demo_registry_locked = AssertFail.
Proof.
  split.
  - apply (proj1 (unregister_contract 257 (Some "s1"%string) None
                    SC_TYPE_PROCESSED (2%positive, SC_TYPE_PROCESSED)
                    demo_registry_locked wf_demo_registry_locked eq_refl));
      reflexivity.
  - apply (proj2 (unregister_contract 257 (Some "s1"%string) None
                    SC_TYPE_PROCESSED (1%positive, SC_TYPE_PROCESSED)
                    demo_registry_locked wf_demo_registry_locked eq_refl)).
    intros a sc Hk _ _ Heq. injection Heq as <-.
    vm_compute in Hk. discriminate.
Defined.

(** A first registration at level 1 in an empty registry at level 3, taken
    back at once. *)
Lemma register_unregister_roundtrip_witness :
  (c <- stats_register_counter 1 257 (Some "s1"%string) None SC_TYPE_PROCESSED ;;
   stats_unregister_counter 257 (Some "s1"%string) None SC_TYPE_PROCESSED c)
    demo_level3 =
    Ok (None,
        with_record demo_level3 (key_for 257 (Some "s1"%string) None)
          (addr_at demo_level3 (key_for 257 (Some "s1"%string) None))
          (mark_live SC_TYPE_PROCESSED (blank (key_for 257 (Some "s1"%string) None)))).
Proof.
  exact (register_unregister_roundtrip 1 257 (Some "s1"%string) None
           SC_TYPE_PROCESSED demo_level3 wf_demo_level3 eq_refl).
Defined.

(** The sweep at time 2000 with lifetime 100 on the sample registry. *)
Lemma sweep_report_witness :
  ∃ oldest dropped s',
    stats_prune_old_counters 2000 100 demo_registry = Ok ((oldest, dropped), s') ∧
    stats_locked s' = false ∧
    Z.of_nat (size (counter_hash s')) =
      Z.of_nat (size (counter_hash demo_registry)) - dropped.
Proof.
  destruct (sweep_report 2000 100 demo_registry wf_demo_registry)
    as (o & d & s' & H1 & H2 & _ & H3 & _).
  exists o, d, s'. split; [exact H1|]. split; [exact H2|exact H3].
Defined.

(** The same sweep run a second time. *)
Lemma sweep_twice_witness :
  stats_prune_old_counters 2000 100
    (final_state (stats_prune_old_counters 2000 100) demo_registry) =
    Ok ((0, 0), final_state (stats_prune_old_counters 2000 100) demo_registry).
Proof.
  apply (sweep_twice 2000 100 2000 100 demo_registry (1000, 1));
    [exact wf_demo_registry | lia | vm_compute; reflexivity].
Defined.

(** The log of the sample registry. *)
Lemma log_one_tag_per_live_counter_witness :
  Forall2 (λ p tag,
             stats_format_log_tag demo_SCS_SOURCE demo_SCS_DESTINATION
               demo_SCS_SOURCE_MASK demo_SCS_GROUP p.1 p.2 = Ok tag)
    (exported_pairs demo_registry)
    (evt_tags (final_event
                 (stats_generate_log demo_SCS_SOURCE demo_SCS_DESTINATION
                    demo_SCS_SOURCE_MASK demo_SCS_GROUP) demo_registry)).
Proof.
  apply (log_one_tag_per_live_counter demo_SCS_SOURCE demo_SCS_DESTINATION
           demo_SCS_SOURCE_MASK demo_SCS_GROUP demo_registry _
           (set_stats_locked false demo_registry)).
  vm_compute. reflexivity.
Defined.

Lemma log_returns_iff_sources_valid_witness :
  (∃ e s', stats_generate_log demo_SCS_SOURCE demo_SCS_DESTINATION
             demo_SCS_SOURCE_MASK demo_SCS_GROUP demo_registry = Ok (e, s')) ↔
  Forall (λ p, valid_source demo_SCS_SOURCE demo_SCS_DESTINATION
                 demo_SCS_SOURCE_MASK demo_SCS_GROUP p.1)
    (exported_pairs demo_registry).
Proof.
  exact (log_returns_iff_sources_valid demo_SCS_SOURCE demo_SCS_DESTINATION
           demo_SCS_SOURCE_MASK demo_SCS_GROUP demo_registry wf_demo_registry).
Defined.

(** The CSV document of the sample registry. *)
Lemma csv_one_row_per_live_counter_witness :
  ∃ rows,
    final_doc (stats_generate_csv demo_escape demo_SCS_SOURCE demo_SCS_DESTINATION
                 demo_SCS_SOURCE_MASK demo_SCS_GROUP) demo_registry =
      csv_header +:+ print_rows rows ∧
    length (exported_pairs demo_registry) = length rows.
Proof.
  destruct (csv_one_row_per_live_counter demo_escape demo_SCS_SOURCE
              demo_SCS_DESTINATION demo_SCS_SOURCE_MASK demo_SCS_GROUP
              demo_registry
              (final_doc (stats_generate_csv demo_escape demo_SCS_SOURCE
                            demo_SCS_DESTINATION demo_SCS_SOURCE_MASK
                            demo_SCS_GROUP) demo_registry)
              (set_stats_locked false demo_registry))
    as (_ & rows & Hdoc & Hrows); [vm_compute; reflexivity|].
  exists rows. split; [exact Hdoc|]. exact (Forall2_length _ _ _ Hrows).
Defined.

(** The log and the CSV document of the sample registry. *)
Lemma log_and_csv_agree_witness :
  ∃ rows,
    final_doc (stats_generate_csv demo_escape demo_SCS_SOURCE demo_SCS_DESTINATION
                 demo_SCS_SOURCE_MASK demo_SCS_GROUP) demo_registry =
      csv_header +:+ print_rows rows ∧
    length (evt_tags (final_event
                        (stats_generate_log demo_SCS_SOURCE demo_SCS_DESTINATION
                           demo_SCS_SOURCE_MASK demo_SCS_GROUP) demo_registry))
      = length rows.
Proof.
  destruct (log_and_csv_agree demo_escape demo_SCS_SOURCE
              demo_SCS_DESTINATION demo_SCS_SOURCE_MASK demo_SCS_GROUP
              demo_registry
              (final_event (stats_generate_log demo_SCS_SOURCE demo_SCS_DESTINATION
                              demo_SCS_SOURCE_MASK demo_SCS_GROUP) demo_registry)
              (set_stats_locked false demo_registry)
              (final_doc (stats_generate_csv demo_escape demo_SCS_SOURCE
                            demo_SCS_DESTINATION demo_SCS_SOURCE_MASK
                            demo_SCS_GROUP) demo_registry)
              (set_stats_locked false demo_registry))
    as (rows & Hdoc & Hlen & _);
    [vm_compute; reflexivity | vm_compute; reflexivity |].
  exists rows. split; [exact Hdoc|exact Hlen].
Defined.

(** The first [stats_reinit] of a run, at level 3. *)
Lemma stats_reinit_registers_witness :
  ∃ g',
    stats_reinit demo_SCS_SEVERITY demo_SCS_FACILITY demo_SCS_SOURCE 3
      globals_at_start = Ok g' ∧
    stats_locked (registry g') = false ∧
    current_stats_level (registry g') = 3.
Proof.
  destruct (stats_reinit_registers demo_SCS_SEVERITY demo_SCS_FACILITY
              demo_SCS_SOURCE demo_sources_differ 3 globals_at_start)
    as (g' & Hrun & _ & Hl & Hlvl & _);
    [exact wf_init | reflexivity | reflexivity | lia |].
  exists g'. split; [exact Hrun|]. split; [exact Hl|exact Hlvl].
Defined.

(** A reload at level 3 followed by a reload at level 0. *)
Lemma stats_reinit_unregisters_witness :
  ∃ g1 g2,
    stats_reinit demo_SCS_SEVERITY demo_SCS_FACILITY demo_SCS_SOURCE 3
      globals_at_start = Ok g1 ∧
    stats_reinit demo_SCS_SEVERITY demo_SCS_FACILITY demo_SCS_SOURCE 0 g1
      = Ok g2 ∧
    severity_counters g2 = replicate SEVERITY_MAX None ∧
    facility_counters g2 = replicate FACILITY_MAX None.
Proof.
  destruct (stats_reinit_enable_run demo_SCS_SEVERITY demo_SCS_FACILITY
              demo_SCS_SOURCE demo_sources_differ 3 globals_at_start)
    as (g1 & Hrun1 & Hok & _);
    [exact wf_init | reflexivity | reflexivity | lia |].
  destruct (stats_reinit_unregisters demo_SCS_SEVERITY demo_SCS_FACILITY
              demo_SCS_SOURCE demo_sources_differ 0 g1 Hok)
    as (g2 & Hrun2 & _ & _ & _ & _ & Hs & Hf & _); [lia|].
  exists g1, g2. split; [exact Hrun1|]. split; [exact Hrun2|].
  split; [exact Hs|exact Hf].
Defined.

(** Two reloads at level 3 and one at level 0: the counter of severity 0
    is left with one reference. *)
Lemma stats_reinit_repeated_witness :
  ∃ g1 g2,
    reinit_times demo_SCS_SEVERITY demo_SCS_FACILITY demo_SCS_SOURCE 2 3
      globals_at_start = Ok g1 ∧
    stats_reinit demo_SCS_SEVERITY demo_SCS_FACILITY demo_SCS_SOURCE 0 g1
      = Ok g2 ∧
    severity_counters g2 = replicate SEVERITY_MAX None ∧
    ref_cnt (record_at (registry g2)
               (severity_key demo_SCS_SEVERITY demo_SCS_SOURCE 0)) = 1.
Proof.
  destruct (stats_reinit_repeated demo_SCS_SEVERITY demo_SCS_FACILITY
              demo_SCS_SOURCE demo_sources_differ 1 3 0 globals_at_start)
    as (g1 & g2 & Hrun1 & Hrun2 & Hs & _ & Hsev & _);
    [exact wf_init | reflexivity | reflexivity | lia | lia |].
  exists g1, g2. split; [exact Hrun1|]. split; [exact Hrun2|].
  split; [exact Hs|]. destruct (Hsev 0%nat) as [_ Hr]; [unfold SEVERITY_MAX; lia|].
  exact Hr.
Defined.

(** A message of priority 13, facility 1 and severity 5, counted after a
    reload at level 3. *)
Lemma stats_counter_inc_pri_counts_witness :
  ∃ g1 g2,
    stats_reinit demo_SCS_SEVERITY demo_SCS_FACILITY demo_SCS_SOURCE 3
      globals_at_start = Ok g1 ∧
    stats_counter_inc_pri demo_LOG_PRI demo_LOG_FAC 13 g1 = Ok g2 ∧
    severity_counters g2 = severity_counters g1 ∧
    facility_counters g2 = facility_counters g1.
Proof.
  destruct (stats_reinit_enable_run demo_SCS_SEVERITY demo_SCS_FACILITY
              demo_SCS_SOURCE demo_sources_differ 3 globals_at_start)
    as (g1 & Hrun1 & Hok & _);
    [exact wf_init | reflexivity | reflexivity | lia |].
  assert (Hpri : 0 ≤ demo_LOG_PRI (guint16 13) < 8)
    by (vm_compute; split; [discriminate | reflexivity]).
  assert (Hfac : 0 ≤ demo_LOG_FAC (guint16 13)) by (vm_compute; discriminate).
  destruct (stats_counter_inc_pri_counts demo_SCS_SEVERITY demo_SCS_FACILITY
              demo_SCS_SOURCE demo_sources_differ demo_LOG_PRI demo_LOG_FAC
              13 g1 Hok Hpri Hfac)
    as (g2 & Hrun2 & _ & Hs & Hf & _).
  exists g1, g2. split; [exact Hrun1|]. split; [exact Hrun2|].
  split; [exact Hs|exact Hf].
Defined.

(** A message counted at time 1000 in an empty registry, and the sweep at
    time 2000 with lifetime 100. *)
Lemma counted_record_expires_witness :
  ∃ s1 r s2,
    stats_register_and_increment_dynamic_counter 3 259 None
      (Some "10.0.0.9"%string) 1000 demo_level3 = Ok (tt, s1) ∧
    stats_prune_old_counters 2000 100 s1 = Ok (r, s2) ∧
    counter_hash s2 !! key_for 259 None (Some "10.0.0.9"%string) = None.
Proof.
  destruct (counted_record_expires 3 259 None (Some "10.0.0.9"%string) 1000
              2000 100 demo_level3)
    as (s1 & r & s2 & Hrun & _ & Hsweep & Hgone);
    [exact wf_demo_level3 | reflexivity | simpl; lia | right; reflexivity | lia |].
  exists s1, r, s2. split; [exact Hrun|]. split; [exact Hsweep|].
  apply Hgone. split; [reflexivity | lia].
Defined.

(** A first registration in an empty registry. *)
Lemma registration_finds_or_creates_witness :
  ∃ a s',
    stats_register_counter 1 257 (Some "s1"%string) None SC_TYPE_PROCESSED
      demo_level3 = Ok (Some (a, SC_TYPE_PROCESSED), s') ∧
    size (counter_hash s') = 1%nat.
Proof.
  destruct (registration_finds_or_creates 1 257 (Some "s1"%string) None
              SC_TYPE_PROCESSED demo_level3)
    as (a & s' & Hrun & _ & Hsize & _);
    [exact wf_demo_level3 | reflexivity | simpl; lia |].
  exists a, s'. split; [exact Hrun|exact Hsize].
Defined.

(** The field [a;b], which fits. *)
Lemma stats_format_csv_escapevar_special_witness :
  stats_format_csv_escapevar demo_escape "a;b" =
    Ok (demo_escape (quoted_field "a;b") 6).
Proof.
  apply (stats_format_csv_escapevar_special demo_escape "a;b");
    [simpl; lia | discriminate | reflexivity | repeat constructor; discriminate].
Defined.

(** The dynamic record of the sample registry unregistered twice through
    the same handle. *)
Lemma unregister_dynamic_repeated_witness :
  (stats_unregister_dynamic_counter (Some 1%positive) SC_TYPE_PROCESSED
     (Some (1%positive, SC_TYPE_PROCESSED)) ;;;
   stats_unregister_dynamic_counter (Some 1%positive) SC_TYPE_PROCESSED
     (Some (1%positive, SC_TYPE_PROCESSED))) demo_registry_locked =
    Ok (tt, set_heap (insert 1%positive
                        (set_ref_cnt (λ n, decr (decr n)) demo_stale))
              demo_registry_locked).
Proof.
  apply (unregister_dynamic_repeated 1%positive SC_TYPE_PROCESSED
           demo_registry_locked demo_stale); reflexivity.
Defined.

(** A static registration after a dynamic one of the same key. *)
Lemma static_after_dynamic_returns_witness :
  ∃ s2,
    stats_register_counter 3 259 None (Some "10.0.0.1"%string) SC_TYPE_DROPPED
      (final_state (stats_register_dynamic_counter 3 259 None
                      (Some "10.0.0.1"%string) SC_TYPE_PROCESSED) demo_level3)
      = Ok (Some (1%positive, SC_TYPE_DROPPED), s2).
Proof.
  destruct (static_after_dynamic_returns 3 3 259 None (Some "10.0.0.1"%string)
              SC_TYPE_PROCESSED SC_TYPE_DROPPED demo_level3 1%positive
              (Some (1%positive, SC_TYPE_PROCESSED)) (Some true)
              (final_state (stats_register_dynamic_counter 3 259 None
                              (Some "10.0.0.1"%string) SC_TYPE_PROCESSED)
                 demo_level3))
    as (s2 & r1 & r2 & Hrun & _); [vm_compute; reflexivity | simpl; lia |].
  exists s2. exact Hrun.
Defined.

(** The composite at level 5 asked of a registry at level 3, and on the
    static record of the sample registry. *)
Lemma register_and_increment_rejected_witness :
  stats_register_and_increment_dynamic_counter 5 259 None
    (Some "10.0.0.1"%string) 1000 demo_level3 = Ok (tt, demo_level3).
Proof.
  apply (register_and_increment_rejected 5 259 None (Some "10.0.0.1"%string)
           1000 demo_level3); [reflexivity | simpl; lia].
Defined.

Lemma register_and_increment_on_static_asserts_witness :
  stats_register_and_increment_dynamic_counter 1 257 (Some "s1"%string) None
    1000 demo_registry_locked = AssertFail.
Proof.
  apply (register_and_increment_on_static_asserts 1 257 (Some "s1"%string) None
           1000 demo_registry_locked 2%positive demo_static);
    [reflexivity | simpl; lia | reflexivity | reflexivity | reflexivity
    | unfold demo_static; simpl; lia].
Defined.

(** ** The amended statements at sample registries *)

(** In the sample registry with the lock held: a dynamic registration of
    the key of the static record, which is in use; a dynamic registration
    of a key that has no record; an associated registration on the static
    record. *)
Lemma mixing_asserts_witness :
  stats_register_dynamic_counter 3 257 (Some "s1"%string) None SC_TYPE_PROCESSED
    demo_registry_locked = AssertFail ∧
  (∃ a s' sc',
     stats_register_dynamic_counter 3 259 None (Some "10.0.0.7"%string)
       SC_TYPE_DROPPED demo_registry_locked =
       Ok (Some a, Some (a, SC_TYPE_DROPPED), Some true, s') ∧
     heap s' !! a = Some sc' ∧ dynamic sc' = true) ∧
  stats_register_associated_counter (Some 2%positive) SC_TYPE_STAMP
    demo_registry_locked = AssertFail.
Proof.
  destruct (mixing_asserts 3 257 (Some "s1"%string) None SC_TYPE_PROCESSED
              SC_TYPE_STAMP demo_registry_locked)
    as (Hstatic & _ & Hassoc);
    [reflexivity | simpl; lia | apply wf_sound, wf_demo_registry_locked |].
  destruct (mixing_asserts 3 259 None (Some "10.0.0.7"%string) SC_TYPE_DROPPED
              SC_TYPE_STAMP demo_registry_locked)
    as (_ & Hnew & _);
    [reflexivity | simpl; lia | apply wf_sound, wf_demo_registry_locked |].
  split; [apply Hstatic; [reflexivity | vm_compute; discriminate]|].
  split.
  - destruct Hnew as (a & s' & sc' & Hrun & _ & _ & Hsc' & Hdyn & _);
      [reflexivity|].
    exists a, s', sc'. split; [exact Hrun|]. split; [exact Hsc'|exact Hdyn].
  - apply (Hassoc 2%positive demo_static); reflexivity.
Defined.

(** The composite called once on an empty registry, with timestamp 1000,
    and on the static record of the sample registry. *)
Lemma register_and_increment_spec_witness :
  (∃ s' a sc,
     stats_register_and_increment_dynamic_counter 3 259 None
       (Some "10.0.0.1"%string) 1000 demo_level3 = Ok (tt, s') ∧
     counter_hash s' !! key_for 259 None (Some "10.0.0.1"%string) = Some a ∧
     heap s' !! a = Some sc ∧
     counter_value sc SC_TYPE_PROCESSED = 1 ∧
     counter_value sc SC_TYPE_STAMP = 1000 ∧
     ref_cnt sc = 0) ∧
  stats_register_and_increment_dynamic_counter 1 257 (Some "s1"%string) None
    1000 demo_registry_locked = AssertFail.
Proof.
  split.
  - destruct (register_and_increment_spec 3 259 None (Some "10.0.0.1"%string)
                1000 demo_level3 wf_demo_level3) as [Hret _];
      [reflexivity | simpl; lia |].
    destruct Hret as (s' & a & sc & Hrun & Ha & Hsc & _ & _ & HT & _ & _ & _ & _ & Hnew);
      [right; reflexivity|].
    exists s', a, sc. split; [exact Hrun|]. split; [exact Ha|].
    split; [exact Hsc|]. split; [apply Hnew; reflexivity|].
    split; [apply HT; lia | apply Hnew; reflexivity].
  - destruct (register_and_increment_spec 1 257 (Some "s1"%string) None
                1000 demo_registry_locked wf_demo_registry_locked) as [_ Habort];
      [reflexivity | simpl; lia |].
    apply Habort; [reflexivity | vm_compute; discriminate].
Defined.

(** A dynamic registration and a static one of the same key, given once
    with a null id and once with an empty one and a source that differs
    above bit 15; between them an increment, a sweep, which finds the
    record in use, and the lock taken again. *)
Lemma register_twice_same_handle_witness :
  ∃ a s1 h2 s3,
    register_by_key true 1 257 None (Some "x"%string) SC_TYPE_STORED demo_level3
      = Ok (Some (a, SC_TYPE_STORED), s1) ∧
    register_by_key false 2 65793 (Some EmptyString) (Some "x"%string)
      SC_TYPE_STORED
      (final_state
         (run_calls [CallInc (Some (1%positive, SC_TYPE_STORED));
                     CallPrune 2000 100; CallLock]) s1)
      = Ok (Some h2, s3) ∧
    h2 = (a, SC_TYPE_STORED).
Proof.
  destruct (register_twice_same_handle true false 1 2 257 65793 None
              (Some EmptyString) (Some "x"%string) (Some "x"%string)
              SC_TYPE_STORED
              [CallInc (Some (1%positive, SC_TYPE_STORED)); CallPrune 2000 100;
               CallLock] demo_level3)
    as (a & s1 & Hrun1 & _ & _ & _ & Hsecond);
    [reflexivity | exact wf_demo_level3 | reflexivity | simpl; lia
    | intros _; right; reflexivity |].
  vm_compute in Hrun1. injection Hrun1 as <- <-.
  eexists _, _, _, _. split; [vm_compute; reflexivity|].
  match goal with
  | |- ?m ?s2 = Ok (Some ?h, ?s3) ∧ _ =>
      assert (Hrun2 : m s2 = Ok (Some (1%positive, SC_TYPE_STORED), final_state m s2))
        by (vm_compute; reflexivity)
  end.
  split; [exact Hrun2|].
  eapply Hsecond; [|vm_compute; repeat split; eauto|exact Hrun2].
  vm_compute. reflexivity.
Defined.

(** The export of the sample registry. *)
Lemma csv_state_field_witness :
  ∃ rows,
    final_doc (stats_generate_csv demo_escape demo_SCS_SOURCE
                 demo_SCS_DESTINATION demo_SCS_SOURCE_MASK demo_SCS_GROUP)
      demo_registry
      = csv_header +:+ print_rows rows ∧
    Forall2 (λ p row,
               State row = (if dynamic p.1 then "d"%char
                            else if ref_cnt p.1 =? 0 then "o"%char
                            else "a"%char))
      (exported_pairs demo_registry) rows.
Proof.
  destruct (csv_state_field demo_escape demo_SCS_SOURCE demo_SCS_DESTINATION
              demo_SCS_SOURCE_MASK demo_SCS_GROUP demo_registry
              (final_doc (stats_generate_csv demo_escape demo_SCS_SOURCE
                            demo_SCS_DESTINATION demo_SCS_SOURCE_MASK
                            demo_SCS_GROUP) demo_registry)
              (set_stats_locked false demo_registry))
    as (rows & Hdoc & Hrows); [vm_compute; reflexivity|].
  exists rows. split; [exact Hdoc|].
  eapply Forall2_impl; [exact Hrows|]. intros p row [Hstate _]. exact Hstate.
Defined.

(** Null handles, a repeated static unregistration and a repeated dynamic
    one in the sample registry with the lock held. *)
Lemma unregister_null_noop_witness :
  stats_unregister_counter 257 (Some "s1"%string) None SC_TYPE_PROCESSED None
    demo_registry_locked = Ok (None, demo_registry_locked) ∧
  stats_unregister_dynamic_counter None SC_TYPE_PROCESSED
    (Some (1%positive, SC_TYPE_PROCESSED)) demo_registry_locked
    = Ok (tt, demo_registry_locked) ∧
  stats_unregister_counter 257 (Some "s1"%string) None SC_TYPE_PROCESSED None
    (final_state
       (stats_unregister_counter 257 (Some "s1"%string) None SC_TYPE_PROCESSED
          (Some (2%positive, SC_TYPE_PROCESSED))) demo_registry_locked)
    = Ok (None,
          final_state
            (stats_unregister_counter 257 (Some "s1"%string) None
               SC_TYPE_PROCESSED (Some (2%positive, SC_TYPE_PROCESSED)))
            demo_registry_locked) ∧
  stats_unregister_dynamic_counter (Some 1%positive) SC_TYPE_PROCESSED None
    demo_registry_locked = AssertFail ∧
  (stats_unregister_dynamic_counter (Some 1%positive) SC_TYPE_PROCESSED
     (Some (1%positive, SC_TYPE_PROCESSED)) ;;;
   stats_unregister_dynamic_counter (Some 1%positive) SC_TYPE_PROCESSED
     (Some (1%positive, SC_TYPE_PROCESSED))) demo_registry_locked =
    Ok (tt, set_heap (insert 1%positive
                        (set_ref_cnt (λ n, decr (decr n)) demo_stale))
              demo_registry_locked).
Proof.
  destruct (unregister_null_noop 257 (Some "s1"%string) None SC_TYPE_PROCESSED
              (Some (1%positive, SC_TYPE_PROCESSED)) demo_registry_locked eq_refl)
    as (H1 & H2 & H3 & H4 & H5).
  split; [exact H1|]. split; [exact H2|]. split; [|split].
  - apply (H3 (Some (2%positive, SC_TYPE_PROCESSED)) None).
    vm_compute. reflexivity.
  - apply (H4 1%positive demo_stale). reflexivity.
  - apply (H5 1%positive demo_stale); reflexivity.
Defined.
